(** * The AMQP queue client of go-queue (amqp.go), embedded in Rocq

    The file follows [src/vendor/gopkg.in/src-d/go-queue.v1/amqp/amqp.go].
    The broker is outside the program: every call the code makes on an AMQP
    connection or channel is appended to a trace, and the answer of the broker
    to that call is read from an environment that may look at the whole trace
    so far.  The code itself is deterministic once the environment is fixed. *)

From Stdlib Require Import ZArith Lia.
From stdpp Require Import base gmap strings list pretty.

Local Open Scope string_scope.
Local Open Scope list_scope.
Local Open Scope Z_scope.

(** ** Errors *)

(** The error values the code builds or passes on.  [ErrOpenChannel] is formatted
    with the text of its cause; [ErrExternal] stands for an error made by the
    AMQP client library or by any other package; [ErrNilDereference] stands for
    the run-time panic of a method that dereferences a nil receiver. *)
Inductive error : Type :=
| ErrEmptyJob
| ErrAlreadyClosed
| ErrCantAck
| ErrOpenChannel (cause : string)
| ErrRetrievingHeader (header : string) (message : string)
| ErrRepublishingJobs (detail : string)
| ErrBuriedQueueNil
| ErrNilDereference
| ErrExternal (text : string).

Inductive result (A : Type) : Type :=
| Ok (a : A)
| Err (e : error).
Arguments Ok {A} a.
Arguments Err {A} e.

(** ** Machine integers *)

Definition uint8 (n : Z) : Z := n mod 2 ^ 8.
Definition uint64 (n : Z) : Z := n mod 2 ^ 64.
Definition int64 (n : Z) : Z := (n + 2 ^ 63) mod 2 ^ 64 - 2 ^ 63.

Definition max_int64 : Z := 2 ^ 63 - 1.
Definition min_int64 : Z := - 2 ^ 63.

(** [time.Duration] counts nanoseconds in an int64. *)
Definition Millisecond : Z := 1000000.

(** ** Package amqp (the client library): the data the code exchanges with it *)

Definition ConnId := nat.
Definition ChanId := nat.

Module amqp.

(** The values of an [amqp.Table] ([map[string]interface{}]), tagged with
    their dynamic type. *)
Inductive Value : Type :=
| VNil
| VBool (b : bool)
| VUint8 (n : Z)
| VInt16 (n : Z)
| VInt32 (n : Z)
| VInt64 (n : Z)
| VString (s : string).

Abbreviation Table := (gmap string Value).

Definition Persistent : Z := 2.

(** [amqp.Publishing]; the fields the code never sets keep their zero value
    and are left out.  A nil [Headers] reads as the empty table. *)
Record Publishing : Type := {
  Headers : Table;
  ContentType : string;
  DeliveryMode : Z;
  Priority : Z;
  MessageId : string;
  Timestamp : Z;
  Body : list Byte.byte
}.

(** [amqp.Delivery], with the fields [fromDelivery] reads. *)
Record Delivery : Type := {
  dAcknowledger : ChanId;
  dHeaders : Table;
  dContentType : string;
  dPriority : Z;
  dMessageId : string;
  dTimestamp : Z;
  dDeliveryTag : Z;
  dBody : list Byte.byte
}.

(** [amqp.Queue] as returned by [QueueDeclare]. *)
Record Queue : Type := { Name : string; Messages : Z; Consumers : Z }.

End amqp.

(** What a receive on the delivery channel of a consumer observes. *)
Inductive Recv : Type :=
| NoDelivery
| Closed
| Delivered (d : amqp.Delivery).

(** The calls made on a connection, a channel or an acknowledger, with their
    arguments in the order of the client library. *)
Inductive Event : Type :=
| EChannel (conn : ConnId)
| EQueueDeclare (ch : ChanId) (name : string)
    (durable autoDelete exclusive noWait : bool) (args : amqp.Table)
| EPublish (ch : ChanId) (exchange key : string) (mandatory immediate : bool)
    (msg : amqp.Publishing)
| EQos (ch : ChanId) (prefetchCount prefetchSize : Z) (global : bool)
| EConsume (ch : ChanId) (queue consumer : string)
    (autoAck exclusive noLocal noWait : bool) (args : amqp.Table)
| ECancel (ch : ChanId) (consumer : string) (noWait : bool)
| EClose (ch : ChanId)
| ETx (ch : ChanId)
| ETxRollback (ch : ChanId)
| ETxCommit (ch : ChanId)
| EAck (acknowledger : ChanId) (tag : Z) (multiple : bool)
| EReject (acknowledger : ChanId) (tag : Z) (requeue : bool).

Abbreviation Trace := (list Event).

(** [Acknowledger]: the acknowledger of the delivery and its delivery tag. *)
Module Acknowledger.
Record t : Type := { ack : ChanId; id : Z }.
End Acknowledger.

(** ** Package queue (gopkg.in/src-d/go-queue.v1) *)

Module queue.

(** Modelled from the spec: the type [queue.Job] is declared in package
    go-queue, which is not among the sources.  Its fields are the ones the
    code reads and writes: identity, priority, timestamp, content type, raw
    payload, retries (the code stores an int32 in it), error type, and the
    acknowledger, which only consumed jobs have. *)
Record Job : Type := {
  ID : string;
  Priority : Z;
  Timestamp : Z;
  ContentType : string;
  Raw : list Byte.byte;
  Retries : Z;
  ErrorType : string;
  Acknowledger : option Acknowledger.t
}.

(** Modelled from the spec: [Job.Size] is the size of the payload; a job whose
    payload is empty is refused at publish time. *)
Definition Size (j : Job) : Z := Z.of_nat (length (Raw j)).

(** Modelled from the spec: what the code uses of the constants of package
    go-queue: the highest priority, and the texts of its error kinds. *)
Record Constants : Type := {
  PriorityUrgent : Z;
  EmptyJobText : string;
  AlreadyClosedText : string;
  CantAckText : string
}.

End queue.

(** ** Configuration *)

Record Configuration : Type := {
  BuriedQueueSuffix : string;
  BuriedExchangeSuffix : string;
  BuriedNonBlockingRetries : Z;
  RetriesHeader : string;
  ErrorHeader : string;
  BackoffMin : Z;
  BackoffMax : Z
}.

(** The values the struct tags give when the process environment sets nothing. *)
Definition default_configuration : Configuration := {|
  BuriedQueueSuffix := ".buriedQueue";
  BuriedExchangeSuffix := ".buriedExchange";
  BuriedNonBlockingRetries := 3;
  RetriesHeader := "x-retries";
  ErrorHeader := "x-error-type";
  BackoffMin := 200 * Millisecond;
  BackoffMax := 30 * 1000 * Millisecond
|}.

(** ** The connection, the queue and the iterator *)

(** The [connection] interface: the current connection and channel of a broker. *)
Record connection : Type := { conn_connection : ConnId; conn_channel : ChanId }.

#[warnings="-register-all"]
Inductive Queue : Type :=
  mkQueue (conn : connection) (queue : amqp.Queue) (buriedQueue : option Queue).

Definition conn (q : Queue) : connection := let 'mkQueue c _ _ := q in c.
Definition queue_ (q : Queue) : amqp.Queue := let 'mkQueue _ n _ := q in n.
Definition buriedQueue (q : Queue) : option Queue := let 'mkQueue _ _ b := q in b.

Module JobIter.
Record t : Type := { id : string; ch : ChanId; c : list Recv }.
End JobIter.

Record jobErr : Type := { job : queue.Job; err : error }.

(** ** The world the code runs in *)

(** The program state outside the arguments: the calls made so far and the
    process-wide counter [consumerSeq]. *)
Record World : Type := { trace : Trace; consumerSeq : Z }.

(** The answers of the outside world.  Each may depend on the calls made so far. *)
Record Env : Type := {
  args0 : string;
  opened : Trace -> ConnId -> result ChanId;
  declared : Trace -> Event -> result amqp.Queue;
  consumed : Trace -> Event -> result (list Recv);
  failure : Trace -> Event -> option error;
  new_job : Trace -> result queue.Job
}.

Definition M (A : Type) : Type := World -> A * World.

Definition ret {A : Type} (a : A) : M A := fun w => (a, w).
Definition bind {A B : Type} (m : M A) (k : A -> M B) : M B :=
  fun w => let (a, w') := m w in k a w'.

Notation "x <- c1 ;; c2" := (bind c1 (fun x => c2))
  (at level 100, c1 at next level, right associativity).

Definition record (e : Event) (w : World) : World :=
  {| trace := trace w ++ [e]; consumerSeq := consumerSeq w |}.

(** ** The code *)

Section Code.

Context (cfg : Configuration) (qc : queue.Constants) (env : Env).

(** [err.Error()]. *)
Definition Error (e : error) : string :=
  match e with
  | ErrEmptyJob => queue.EmptyJobText qc
  | ErrAlreadyClosed => queue.AlreadyClosedText qc
  | ErrCantAck => queue.CantAckText qc
  | ErrOpenChannel cause => "failed to open a channel: " +:+ cause
  | ErrRetrievingHeader header message =>
      "error retrieving '" +:+ header +:+ "' header from message " +:+ message
  | ErrRepublishingJobs detail => "couldn't republish some jobs : " +:+ detail
  | ErrBuriedQueueNil =>
      "buriedQueue is nil, called RepublishBuried on the internal buried queue?"
  | ErrNilDereference =>
      "runtime error: invalid memory address or nil pointer dereference"
  | ErrExternal text => text
  end.

(** *** Calls on the client library *)

(** A call whose only result is an error. *)
Definition call (e : Event) : M (option error) :=
  fun w => (failure env (trace w) e, record e w).

(** [Connection.Channel()]. *)
Definition Connection_Channel (c : ConnId) : M (result ChanId) :=
  fun w => (opened env (trace w) c, record (EChannel c) w).

Definition Channel_QueueDeclare (ch : ChanId) (name : string)
    (durable autoDelete exclusive noWait : bool) (args : amqp.Table)
    : M (result amqp.Queue) :=
  fun w =>
    let e := EQueueDeclare ch name durable autoDelete exclusive noWait args in
    (declared env (trace w) e, record e w).

Definition Channel_Publish (ch : ChanId) (exchange key : string)
    (mandatory immediate : bool) (msg : amqp.Publishing) : M (option error) :=
  call (EPublish ch exchange key mandatory immediate msg).

Definition Channel_Qos (ch : ChanId) (prefetchCount prefetchSize : Z)
    (global : bool) : M (option error) :=
  call (EQos ch prefetchCount prefetchSize global).

Definition Channel_Consume (ch : ChanId) (queue consumer : string)
    (autoAck exclusive noLocal noWait : bool) (args : amqp.Table)
    : M (result (list Recv)) :=
  fun w =>
    let e := EConsume ch queue consumer autoAck exclusive noLocal noWait args in
    (consumed env (trace w) e, record e w).

Definition Channel_Cancel (ch : ChanId) (consumer : string) (noWait : bool)
    : M (option error) :=
  call (ECancel ch consumer noWait).

Definition Channel_Close (ch : ChanId) : M (option error) := call (EClose ch).
Definition Channel_Tx (ch : ChanId) : M (option error) := call (ETx ch).
Definition Channel_TxRollback (ch : ChanId) : M (option error) :=
  call (ETxRollback ch).
Definition Channel_TxCommit (ch : ChanId) : M (option error) :=
  call (ETxCommit ch).

(** [time.Sleep]: time passes, no call is made. *)
Definition Sleep (d : Z) : M unit := ret tt.

(** [queue.NewJob()], of package go-queue: its result is an answer of the
    outside world (a fresh identifier, the clock). *)
Definition NewJob : M (result queue.Job) :=
  fun w => (new_job env (trace w), w).

(** *** Acknowledger *)

Definition Acknowledger_Ack (a : Acknowledger.t) : M (option error) :=
  call (EAck (Acknowledger.ack a) (Acknowledger.id a) false).

Definition Acknowledger_Reject (a : Acknowledger.t) (requeue : bool)
    : M (option error) :=
  call (EReject (Acknowledger.ack a) (Acknowledger.id a) requeue).

(** Modelled from the spec: [Job.Ack] and [Job.Reject] of package go-queue hand
    over to the acknowledger of the job; a job without an acknowledger cannot
    be acked or rejected. *)
Definition Job_Ack (j : queue.Job) : M (option error) :=
  match queue.Acknowledger j with
  | None => ret (Some ErrCantAck)
  | Some a => Acknowledger_Ack a
  end.

(** Modelled from the spec: [Job.Reject], as [Job.Ack]. *)
Definition Job_Reject (j : queue.Job) (requeue : bool) : M (option error) :=
  match queue.Acknowledger j with
  | None => ret (Some ErrCantAck)
  | Some a => Acknowledger_Reject a requeue
  end.

(** *** Publish *)

(** The headers [Publish] builds. *)
Definition publish_headers (j : queue.Job) : amqp.Table :=
  let headers : amqp.Table := ∅ in
  let headers :=
    if 0 <? queue.Retries j
    then <[RetriesHeader cfg := amqp.VInt32 (queue.Retries j)]> headers
    else headers in
  let headers :=
    if negb (String.eqb (queue.ErrorType j) "")
    then <[ErrorHeader cfg := amqp.VString (queue.ErrorType j)]> headers
    else headers in
  headers.

Definition Publish (q : Queue) (j : option queue.Job) : M (option error) :=
  match j with
  | None => ret (Some ErrEmptyJob)
  | Some j =>
    if queue.Size j =? 0 then ret (Some ErrEmptyJob)
    else
      Channel_Publish (conn_channel (conn q))
        "" (amqp.Name (queue_ q)) false false
        {| amqp.DeliveryMode := amqp.Persistent;
           amqp.MessageId := queue.ID j;
           amqp.Priority := uint8 (queue.Priority j);
           amqp.Timestamp := queue.Timestamp j;
           amqp.ContentType := queue.ContentType j;
           amqp.Body := queue.Raw j;
           amqp.Headers := publish_headers j |}
  end.

(** The arguments of the scratch queue of [PublishDelayed]. *)
Definition delayed_args (q : Queue) (ttl : Z) : amqp.Table :=
  <["x-max-priority" := amqp.VUint8 (uint8 (queue.PriorityUrgent qc))]>
  (<["x-expires" := amqp.VInt64 (int64 (int64 ttl * 2))]>
  (<["x-message-ttl" := amqp.VInt64 (int64 ttl)]>
  (<["x-dead-letter-routing-key" := amqp.VString (amqp.Name (queue_ q))]>
  (<["x-dead-letter-exchange" := amqp.VString ""]> ∅)))).

Definition PublishDelayed (q : Queue) (j : option queue.Job) (delay : Z)
    : M (option error) :=
  match j with
  | None => ret (Some ErrEmptyJob)
  | Some j =>
    if queue.Size j =? 0 then ret (Some ErrEmptyJob)
    else
      let ttl := Z.quot delay Millisecond in
      r <- Channel_QueueDeclare (conn_channel (conn q))
             (queue.ID j) true true false false (delayed_args q ttl) ;;
      match r with
      | Err e => ret (Some e)
      | Ok delayedQueue =>
        Channel_Publish (conn_channel (conn q))
          "" (amqp.Name delayedQueue) false false
          {| amqp.DeliveryMode := amqp.Persistent;
             amqp.MessageId := queue.ID j;
             amqp.Priority := uint8 (queue.Priority j);
             amqp.Timestamp := queue.Timestamp j;
             amqp.ContentType := queue.ContentType j;
             amqp.Body := queue.Raw j;
             amqp.Headers := ∅ |}
      end
  end.

(** *** Decoding a delivery *)

Definition set_Retries (retries : Z) (j : queue.Job) : queue.Job :=
  {| queue.ID := queue.ID j;
     queue.Priority := queue.Priority j;
     queue.Timestamp := queue.Timestamp j;
     queue.ContentType := queue.ContentType j;
     queue.Raw := queue.Raw j;
     queue.Retries := retries;
     queue.ErrorType := queue.ErrorType j;
     queue.Acknowledger := queue.Acknowledger j |}.

Definition set_ErrorType (errorType : string) (j : queue.Job) : queue.Job :=
  {| queue.ID := queue.ID j;
     queue.Priority := queue.Priority j;
     queue.Timestamp := queue.Timestamp j;
     queue.ContentType := queue.ContentType j;
     queue.Raw := queue.Raw j;
     queue.Retries := queue.Retries j;
     queue.ErrorType := errorType;
     queue.Acknowledger := queue.Acknowledger j |}.

(** [fromDelivery]; [nj] is what [queue.NewJob()] returned. *)
Definition fromDelivery (nj : result queue.Job) (d : amqp.Delivery)
    : result queue.Job :=
  match nj with
  | Err e => Err e
  | Ok j =>
    let j :=
      {| queue.ID := amqp.dMessageId d;
         queue.Priority := amqp.dPriority d;
         queue.Timestamp := amqp.dTimestamp d;
         queue.ContentType := amqp.dContentType d;
         queue.Acknowledger :=
           Some {| Acknowledger.ack := amqp.dAcknowledger d;
                   Acknowledger.id := amqp.dDeliveryTag d |};
         queue.Raw := amqp.dBody d;
         queue.Retries := queue.Retries j;
         queue.ErrorType := queue.ErrorType j |} in
    let after_retries :=
      match amqp.dHeaders d !! RetriesHeader cfg with
      | Some retries =>
        match retries with
        | amqp.VInt32 retries => Ok (set_Retries retries j)
        | _ => Err (ErrRetrievingHeader (RetriesHeader cfg) (amqp.dMessageId d))
        end
      | None => Ok j
      end in
    match after_retries with
    | Err e => Err e
    | Ok j =>
      match amqp.dHeaders d !! ErrorHeader cfg with
      | Some errorType =>
        match errorType with
        | amqp.VString errorType => Ok (set_ErrorType errorType j)
        | _ => Err (ErrRetrievingHeader (ErrorHeader cfg) (amqp.dMessageId d))
        end
      | None => Ok j
      end
    end
  end.

(** *** Consumption *)

(** [consumeID]: the counter is incremented atomically and its new value
    printed in decimal. *)
Definition consumeID (q : Queue) : M string :=
  fun w =>
    let n := uint64 (consumerSeq w + 1) in
    (args0 env +:+ "-" +:+ amqp.Name (queue_ q) +:+ "-" +:+ pretty n,
     {| trace := trace w; consumerSeq := n |}).

Definition Consume (q : Queue) (advertisedWindow : Z) : M (result JobIter.t) :=
  r <- Connection_Channel (conn_connection (conn q)) ;;
  match r with
  | Err e => ret (Err (ErrOpenChannel (Error e)))
  | Ok ch =>
    e <- Channel_Qos ch advertisedWindow 0 false ;;
    match e with
    | Some e => ret (Err e)
    | None =>
      id <- consumeID q ;;
      r <- Channel_Consume ch (amqp.Name (queue_ q)) id
             false false false false ∅ ;;
      match r with
      | Err e => ret (Err e)
      | Ok c => ret (Ok {| JobIter.id := id; JobIter.ch := ch; JobIter.c := c |})
      end
    end
  end.

Definition with_c (i : JobIter.t) (c : list Recv) : JobIter.t :=
  {| JobIter.id := JobIter.id i; JobIter.ch := JobIter.ch i; JobIter.c := c |}.

(** [nextNonBlocking]: a receive that does not wait.  The delivery channel is
    the list of what the coming receives observe; once the list is used up
    nothing arrives any more, and a closed channel stays closed. *)
Definition nextNonBlocking (i : JobIter.t)
    : M (result (option queue.Job) * JobIter.t) :=
  match JobIter.c i with
  | Delivered d :: c' =>
      nj <- NewJob ;;
      ret (match fromDelivery nj d with
           | Ok j => Ok (Some j)
           | Err e => Err e
           end, with_c i c')
  | Closed :: _ => ret (Err ErrAlreadyClosed, i)
  | NoDelivery :: c' => ret (Ok None, with_c i c')
  | [] => ret (Ok None, i)
  end.

(** [JobIter.Close]. *)
Definition JobIter_Close (i : JobIter.t) : M (option error) :=
  e <- Channel_Cancel (JobIter.ch i) (JobIter.id i) false ;;
  match e with
  | Some e => ret (Some e)
  | None => Channel_Close (JobIter.ch i)
  end.

(** *** Republishing the buried jobs *)

(** How the drain loop of [RepublishBuried] is left: by [break], with the two
    lists it filled, or by [return err]. *)
Inductive LoopExit : Type :=
| LBreak (notComplying : list queue.Job) (errorsPublishing : list jobErr)
| LReturn (e : error).

(** The [for] loop of [RepublishBuried]; [None] when the fuel does not reach
    the end of the loop.  The counter [retries] is an [int]. *)
Fixpoint drain (fuel : nat) (comply : queue.Job -> bool) (q : Queue)
    (iter : JobIter.t) (retries : Z)
    (notComplying : list queue.Job) (errorsPublishing : list jobErr)
    : M (option LoopExit) :=
  match fuel with
  | O => ret None
  | S fuel =>
    r <- nextNonBlocking iter ;;
    let iter := snd r in
    match fst r with
    | Err e => ret (Some (LReturn e))
    | Ok None =>
      if retries >? BuriedNonBlockingRetries cfg
      then ret (Some (LBreak notComplying errorsPublishing))
      else
        _ <- Sleep (50 * Millisecond) ;;
        drain fuel comply q iter (int64 (retries + 1))
          notComplying errorsPublishing
    | Ok (Some j) =>
      e <- Job_Ack j ;;
      match e with
      | Some e => ret (Some (LReturn e))
      | None =>
        if comply j then
          e <- Publish q (Some j) ;;
          match e with
          | Some e =>
            drain fuel comply q iter 0 notComplying
              (errorsPublishing ++ [{| job := j; err := e |}])
          | None => drain fuel comply q iter 0 notComplying errorsPublishing
          end
        else drain fuel comply q iter 0 (notComplying ++ [j]) errorsPublishing
      end
    end
  end.

(** The loop over [notComplying] that follows the drain loop. *)
Fixpoint reject_all (notComplying : list queue.Job) : M (option error) :=
  match notComplying with
  | [] => ret None
  | job :: rest =>
    e <- Job_Reject job true ;;
    match e with
    | Some e => ret (Some e)
    | None => reject_all rest
    end
  end.

(** [q.buriedQueue.Publish(j)] where [q.buriedQueue] may be nil: the method is
    entered, and the receiver is dereferenced after the check of the job. *)
Definition Publish_buried (q : Queue) (j : option queue.Job) : M (option error) :=
  match buriedQueue q with
  | Some b => Publish b j
  | None =>
    match j with
    | None => ret (Some ErrEmptyJob)
    | Some j =>
      if queue.Size j =? 0 then ret (Some ErrEmptyJob)
      else ret (Some ErrNilDereference)
    end
  end.

(** The loop of [handleRepublishErrors]: [Ok] with the texts collected when
    the list is exhausted, [Err] when a publish into the buried queue fails. *)
Fixpoint rebury (q : Queue) (lst : list jobErr) (stringErrors : list string)
    : M (result (list string)) :=
  match lst with
  | [] => ret (Ok stringErrors)
  | je :: rest =>
    let stringErrors := stringErrors ++ [Error (err je)] in
    e <- Publish_buried q (Some (job je)) ;;
    match e with
    | Some e => ret (Err e)
    | None => rebury q rest stringErrors
    end
  end.

(** [strings.Join]. *)
Fixpoint Join (elems : list string) (sep : string) : string :=
  match elems with
  | [] => ""
  | [s] => s
  | s :: rest => s +:+ sep +:+ Join rest sep
  end.

Definition handleRepublishErrors (q : Queue) (lst : list jobErr)
    : M (option error) :=
  if 0 <? Z.of_nat (length lst) then
    r <- rebury q lst [] ;;
    match r with
    | Err e => ret (Some e)
    | Ok stringErrors =>
      ret (Some (ErrRepublishingJobs (Join stringErrors ": ")))
    end
  else ret None.

(** [RepublishBuried]; the conditions enter through [comply], which is
    [queue.RepublishConditions(conditions).Comply].  The result is [None]
    when the fuel does not reach the end of the drain loop. *)
Definition RepublishBuried (fuel : nat) (q : Queue)
    (comply : queue.Job -> bool) : M (option (option error)) :=
  match buriedQueue q with
  | None => ret (Some (Some ErrBuriedQueueNil))
  | Some b =>
    r <- Consume b 1 ;;
    match r with
    | Err e => ret (Some (Some e))
    | Ok iter =>
      res <-
        (x <- drain fuel comply q iter 0 [] [] ;;
         match x with
         | None => ret None
         | Some (LReturn e) => ret (Some (Some e))
         | Some (LBreak notComplying errorsPublishing) =>
           e <- reject_all notComplying ;;
           match e with
           | Some e => ret (Some (Some e))
           | None =>
             e <- handleRepublishErrors q errorsPublishing ;;
             ret (Some e)
           end
         end) ;;
      _ <- JobIter_Close iter ;;
      ret res
    end
  end.

(** *** Transactions *)

(** The queue handed to the callback of [Transaction]. *)
Definition txQueue (q : Queue) (ch : ChanId) : Queue :=
  mkQueue {| conn_connection := conn_connection (conn q); conn_channel := ch |}
          (queue_ q) None.

Definition Transaction (q : Queue) (txcb : Queue -> M (option error))
    : M (option error) :=
  r <- Connection_Channel (conn_connection (conn q)) ;;
  match r with
  | Err e => ret (Some (ErrOpenChannel (Error e)))
  | Ok ch =>
    res <-
      (e <- Channel_Tx ch ;;
       match e with
       | Some e => ret (Some e)
       | None =>
         e <- txcb (txQueue q ch) ;;
         match e with
         | Some e =>
           e' <- Channel_TxRollback ch ;;
           match e' with
           | Some e' => ret (Some e')
           | None => ret (Some e)
           end
         | None => Channel_TxCommit ch
         end
       end) ;;
    _ <- Channel_Close ch ;;
    ret res
  end.

End Code.

(** ** The broker between a publish and a receive *)

(** The delivery a consumer receives for a published message: the broker passes
    the properties, the headers and the body on as they were published, and adds
    the acknowledger and the delivery tag of the consuming channel. *)
Definition deliver (msg : amqp.Publishing) (acknowledger : ChanId) (tag : Z)
    : amqp.Delivery :=
  {| amqp.dAcknowledger := acknowledger;
     amqp.dHeaders := amqp.Headers msg;
     amqp.dContentType := amqp.ContentType msg;
     amqp.dPriority := amqp.Priority msg;
     amqp.dMessageId := amqp.MessageId msg;
     amqp.dTimestamp := amqp.Timestamp msg;
     amqp.dDeliveryTag := tag;
     amqp.dBody := amqp.Body msg |}.

(** The message [Publish] sends for a job. *)
Definition publishing (cfg : Configuration) (j : queue.Job) : amqp.Publishing :=
  {| amqp.DeliveryMode := amqp.Persistent;
     amqp.MessageId := queue.ID j;
     amqp.Priority := uint8 (queue.Priority j);
     amqp.Timestamp := queue.Timestamp j;
     amqp.ContentType := queue.ContentType j;
     amqp.Body := queue.Raw j;
     amqp.Headers := publish_headers cfg j |}.

(** The call [Publish] makes for a job on a queue. *)
Definition publish_event (cfg : Configuration) (q : Queue) (j : queue.Job) : Event :=
  EPublish (conn_channel (conn q)) "" (amqp.Name (queue_ q)) false false
    (publishing cfg j).

Definition is_int32 (v : amqp.Value) : bool :=
  match v with amqp.VInt32 _ => true | _ => false end.

Definition is_string (v : amqp.Value) : bool :=
  match v with amqp.VString _ => true | _ => false end.

(** ** The run of [RepublishBuried], told job by job *)

(** The calls [Job.Ack] and [Job.Reject] make for a job. *)
Definition ack_call (j : queue.Job) : Trace :=
  match queue.Acknowledger j with
  | Some a => [EAck (Acknowledger.ack a) (Acknowledger.id a) false]
  | None => []
  end.

Definition reject_call (requeue : bool) (j : queue.Job) : Trace :=
  match queue.Acknowledger j with
  | Some a => [EReject (Acknowledger.ack a) (Acknowledger.id a) requeue]
  | None => []
  end.

(** The calls [Publish] makes for a job: none when the payload is empty. *)
Definition publish_call (cfg : Configuration) (q : Queue) (j : queue.Job) : Trace :=
  if queue.Size j =? 0 then [] else [publish_event cfg q j].

(** The calls [JobIter.Close] makes after the calls [t]. *)
Definition close_calls (env : Env) (i : JobIter.t) (t : Trace) : Trace :=
  let cancel := ECancel (JobIter.ch i) (JobIter.id i) false in
  match failure env t cancel with
  | Some _ => [cancel]
  | None => [cancel; EClose (JobIter.ch i)]
  end.

(** The deliveries the drain loop takes from a delivery channel, when its
    counter of empty receives stands at [retries]: the loop gives up at an empty
    receive once the counter has passed the limit, and at a closed channel. *)
Fixpoint fetched (limit : Z) (c : list Recv) (retries : Z) : list amqp.Delivery :=
  match c with
  | [] => []
  | NoDelivery :: c' =>
      if retries >? limit then [] else fetched limit c' (retries + 1)
  | Closed :: _ => []
  | Delivered d :: c' => d :: fetched limit c' 0
  end.

(** A job as [queue.NewJob] leaves the fields [fromDelivery] does not fill. *)
Definition blank : queue.Job :=
  {| queue.ID := ""; queue.Priority := 0; queue.Timestamp := 0;
     queue.ContentType := ""; queue.Raw := []; queue.Retries := 0;
     queue.ErrorType := ""; queue.Acknowledger := None |}.

(** What became of a fetched job in the drain loop. *)
Inductive Verdict : Type :=
| NotComplying
| Republished
| Failed (e : error).

Section Log.

Context (cfg : Configuration) (env : Env).
Context (comply : queue.Job -> bool) (q : Queue).

(** The fetched jobs taken in turn from the world [w]: each is acked; one
    that complies is published to [q], and the answer to that publish is its
    verdict. The result is the log of the verdicts and the world reached. *)
Fixpoint treat (js : list queue.Job) (w : World)
    : list (queue.Job * Verdict) * World :=
  match js with
  | [] => ([], w)
  | j :: js' =>
    let w1 := snd (Job_Ack env j w) in
    if comply j then
      let r := Publish cfg env q (Some j) w1 in
      let rest := treat js' (snd r) in
      ((j, match fst r with Some e => Failed e | None => Republished end)
         :: fst rest, snd rest)
    else
      let rest := treat js' w1 in
      ((j, NotComplying) :: fst rest, snd rest)
  end.

(** The calls the drain loop makes for one entry of the log. *)
Definition entry_calls (entry : queue.Job * Verdict) : Trace :=
  ack_call (fst entry) ++
  match snd entry with
  | NotComplying => []
  | Republished | Failed _ => publish_call cfg q (fst entry)
  end.

End Log.

(** The jobs of a log that did not comply, and those whose publish failed. *)
Definition not_complying (log : list (queue.Job * Verdict)) : list queue.Job :=
  flat_map
    (fun entry => match snd entry with NotComplying => [fst entry] | _ => [] end)
    log.

Definition failed (log : list (queue.Job * Verdict)) : list jobErr :=
  flat_map
    (fun entry =>
       match snd entry with
       | Failed e => [{| job := fst entry; err := e |}]
       | _ => []
       end)
    log.

Definition is_reject (e : Event) : bool :=
  match e with EReject _ _ _ => true | _ => false end.

Definition is_ack (e : Event) : bool :=
  match e with EAck _ _ _ => true | _ => false end.

(** An event that, when it is a publish, carries the message of a job in [P]. *)
Definition publishes_of (cfg : Configuration) (P : queue.Job -> Prop)
    (ev : Event) : Prop :=
  match ev with
  | EPublish _ _ _ _ _ msg => exists j, P j /\ msg = publishing cfg j
  | _ => True
  end.

Definition is_publish (e : Event) : bool :=
  match e with EPublish _ _ _ _ _ _ => true | _ => false end.

(** The calls that settle a delivery or publish a message. *)
Definition settles_or_publishes (e : Event) : bool :=
  is_ack e || is_reject e || is_publish e.

(** ** The blocking receive *)

(** What a receive that waits obtains from a delivery channel: it passes over
    the moments at which nothing is there; [None] when the list of what the
    receives observe runs out first, and the receive never returns. *)
Fixpoint awaited (c : list Recv) : option (option amqp.Delivery * list Recv) :=
  match c with
  | [] => None
  | NoDelivery :: c' => awaited c'
  | Closed :: _ => Some (None, c)
  | Delivered d :: c' => Some (Some d, c')
  end.

Section Waiting.

Context (cfg : Configuration) (env : Env).

(** [JobIter.Next]; [None] when the receive never returns. *)
Definition Next (i : JobIter.t) : M (option (result queue.Job * JobIter.t)) :=
  match awaited (JobIter.c i) with
  | None => ret None
  | Some (None, c') => ret (Some (Err ErrAlreadyClosed, with_c i c'))
  | Some (Some d, c') =>
    nj <- NewJob env ;;
    ret (Some (fromDelivery cfg nj d, with_c i c'))
  end.

End Waiting.

(** ** The broker: its queues and its end *)

(** The calls the broker makes: those of the kinds above, the declaration of an
    exchange, the binding of a queue, the closing of a connection, the dialing
    of a connection, the calls on the backoff policy, and the sleeps. *)
Inductive BrokerEvent : Type :=
| Call (e : Event)
| EExchangeDeclare (ch : ChanId) (name kind : string)
    (durable autoDelete internal noWait : bool) (args : amqp.Table)
| EQueueBind (ch : ChanId) (name key exchange : string) (noWait : bool)
    (args : amqp.Table)
| EConnectionClose (conn : ConnId)
| EDial (url : string)
| EBackoffReset
| EBackoffDuration
| ESleep (d : Z).

(** The calls made so far, and whether the channel [stop] of the broker has
    been closed. *)
Record BrokerWorld : Type := { calls : list BrokerEvent; stopped : bool }.

Record BrokerEnv : Type := {
  channel_answer : list BrokerEvent -> ConnId -> result ChanId;
  declare_answer : list BrokerEvent -> BrokerEvent -> result amqp.Queue;
  error_answer : list BrokerEvent -> BrokerEvent -> option error;
  dial_answer : list BrokerEvent -> string -> result ConnId;
  duration_answer : list BrokerEvent -> Z
}.

(** A function that returns, or panics. *)
Inductive outcome (A : Type) : Type :=
| Returned (a : A)
| Panicked (text : string).
Arguments Returned {A} a.
Arguments Panicked {A} text.

Definition BM (A : Type) : Type := BrokerWorld -> A * BrokerWorld.

Definition bret {A : Type} (a : A) : BM A := fun w => (a, w).
Definition bbind {A B : Type} (m : BM A) (k : A -> BM B) : BM B :=
  fun w => let (a, w') := m w in k a w'.

Notation "x <~ c1 ;; c2" := (bbind c1 (fun x => c2))
  (at level 100, c1 at next level, right associativity).

Definition brecord (e : BrokerEvent) (w : BrokerWorld) : BrokerWorld :=
  {| calls := calls w ++ [e]; stopped := stopped w |}.

(** The zero value of [amqp.Queue]. *)
Definition zero_queue : amqp.Queue :=
  {| amqp.Name := ""; amqp.Messages := 0; amqp.Consumers := 0 |}.

Section BrokerCode.

Context (cfg : Configuration) (qc : queue.Constants) (benv : BrokerEnv).

Definition bcall (e : BrokerEvent) : BM (option error) :=
  fun w => (error_answer benv (calls w) e, brecord e w).

Definition bdeclare (e : BrokerEvent) : BM (result amqp.Queue) :=
  fun w => (declare_answer benv (calls w) e, brecord e w).

Definition bchannel (c : ConnId) : BM (result ChanId) :=
  fun w => (channel_answer benv (calls w) c, brecord (Call (EChannel c)) w).

(** [newBuriedQueue], with its three named results. *)
Definition newBuriedQueue (b : connection) (mainQueueName : string)
    : BM (amqp.Queue * string * option error) :=
  r <~ bchannel (conn_connection b) ;;
  match r with
  | Err e => bret (zero_queue, "", Some e)
  | Ok ch =>
    let buriedName := mainQueueName +:+ BuriedQueueSuffix cfg in
    let rex := mainQueueName +:+ BuriedExchangeSuffix cfg in
    e <~ bcall (EExchangeDeclare ch rex "fanout" true false false false ∅) ;;
    match e with
    | Some e => bret (zero_queue, rex, Some e)
    | None =>
      r <~ bdeclare (Call (EQueueDeclare (conn_channel b) buriedName
                             true false false false ∅)) ;;
      match r with
      | Err e => bret (zero_queue, rex, Some e)
      | Ok q =>
        e <~ bcall (EQueueBind ch buriedName "" rex true ∅) ;;
        match e with
        | Some e => bret (q, rex, Some e)
        | None => bret (q, rex, None)
        end
      end
    end
  end.

(** The arguments [Broker.Queue] declares the main queue with. *)
Definition main_args (name rex : string) : amqp.Table :=
  <["x-max-priority" := amqp.VUint8 (uint8 (queue.PriorityUrgent qc))]>
  (<["x-dead-letter-routing-key" := amqp.VString name]>
  (<["x-dead-letter-exchange" := amqp.VString rex]> ∅)).

(** [Broker.Queue]. *)
Definition Broker_Queue (b : connection) (name : string) : BM (result Queue) :=
  r <~ newBuriedQueue b name ;;
  let buriedQueue := fst (fst r) in
  let rex := snd (fst r) in
  match snd r with
  | Some e => bret (Err e)
  | None =>
    r <~ bdeclare (Call (EQueueDeclare (conn_channel b) name
                           true false false false (main_args name rex))) ;;
    match r with
    | Err e => bret (Err e)
    | Ok q => bret (Ok (mkQueue b q (Some (mkQueue b buriedQueue None))))
    end
  end.

(** [Broker.Close]: closing the channel [stop] a second time panics. *)
Definition Broker_Close (b : connection) : BM (outcome (option error)) :=
  fun w =>
    if stopped w then (Panicked "close of closed channel", w)
    else
      let w := {| calls := calls w; stopped := true |} in
      let (e, w) := bcall (Call (EClose (conn_channel b))) w in
      match e with
      | Some e => (Returned (Some e), w)
      | None =>
        let (e, w) := bcall (EConnectionClose (conn_connection b)) w in
        (Returned e, w)
      end.

(** [amqp.Dial], and the backoff policy of the broker. *)
Definition bdial (url : string) : BM (result ConnId) :=
  fun w => (dial_answer benv (calls w) url, brecord (EDial url) w).

Definition backoff_Reset : BM unit :=
  fun w => (tt, brecord EBackoffReset w).

Definition backoff_Duration : BM Z :=
  fun w => (duration_answer benv (calls w), brecord EBackoffDuration w).

Definition bsleep (d : Z) : BM unit := fun w => (tt, brecord (ESleep d) w).

(** [tryConnection]: the loop has no other way out than a connection; [None]
    when the fuel does not reach it.  The logging is left out. *)
Fixpoint tryConnection (fuel : nat) (url : string) : BM (option ConnId) :=
  match fuel with
  | O => bret None
  | S fuel =>
    r <~ bdial url ;;
    match r with
    | Ok conn =>
      _ <~ backoff_Reset ;;
      bret (Some conn)
    | Err err =>
      d <~ backoff_Duration ;;
      _ <~ bsleep d ;;
      tryConnection fuel url
    end
  end.

(** [tryChannel]. *)
Fixpoint tryChannel (fuel : nat) (conn : ConnId) : BM (option ChanId) :=
  match fuel with
  | O => bret None
  | S fuel =>
    r <~ bchannel conn ;;
    match r with
    | Ok ch =>
      _ <~ backoff_Reset ;;
      bret (Some ch)
    | Err err =>
      d <~ backoff_Duration ;;
      _ <~ bsleep d ;;
      tryChannel fuel conn
    end
  end.

(** [reconnect]; the fuel is that of each of its two loops. *)
Definition reconnect (fuel : nat) (url : string)
    : BM (option (ConnId * ChanId)) :=
  _ <~ backoff_Reset ;;
  c <~ tryConnection fuel url ;;
  match c with
  | None => bret None
  | Some conn =>
    h <~ tryChannel fuel conn ;;
    match h with
    | None => bret None
    | Some ch => bret (Some (conn, ch))
    end
  end.

End BrokerCode.

(** The calls of [Broker.Queue] for a queue name, [ch] being the channel
    [newBuriedQueue] opened: the declaration of the exchange of the buried
    queue, of the buried queue itself, the binding of the one to the other, and
    the declaration of the main queue. *)
Definition exchange_call (cfg : Configuration) (name : string) (ch : ChanId)
    : BrokerEvent :=
  EExchangeDeclare ch (name +:+ BuriedExchangeSuffix cfg) "fanout"
    true false false false ∅.

Definition buried_call (cfg : Configuration) (b : connection) (name : string)
    : BrokerEvent :=
  Call (EQueueDeclare (conn_channel b) (name +:+ BuriedQueueSuffix cfg)
          true false false false ∅).

Definition bind_call (cfg : Configuration) (name : string) (ch : ChanId)
    : BrokerEvent :=
  EQueueBind ch (name +:+ BuriedQueueSuffix cfg) ""
    (name +:+ BuriedExchangeSuffix cfg) true ∅.

Definition main_call (cfg : Configuration) (qc : queue.Constants)
    (b : connection) (name : string) : BrokerEvent :=
  Call (EQueueDeclare (conn_channel b) name true false false false
          (main_args qc name (name +:+ BuriedExchangeSuffix cfg))).

Definition queue_calls (cfg : Configuration) (qc : queue.Constants)
    (b : connection) (name : string) (ch : ChanId) : list BrokerEvent :=
  [Call (EChannel (conn_connection b));
   exchange_call cfg name ch;
   buried_call cfg b name;
   bind_call cfg name ch;
   main_call cfg qc b name].

(** The calls of the failed attempts of a retry loop: the attempt, the asking
    of the backoff policy for a duration, and the sleep of that duration. *)
Definition failed_attempts (attempt : BrokerEvent) (ds : list Z)
    : list BrokerEvent :=
  flat_map (fun d => [attempt; EBackoffDuration; ESleep d]) ds.

Definition is_dial (e : BrokerEvent) : bool :=
  match e with EDial _ => true | _ => false end.

Definition is_open (e : BrokerEvent) : bool :=
  match e with Call (EChannel _) => true | _ => false end.

(** How many connections have been dialed, and how many channels opened. *)
Definition dials (t : list BrokerEvent) : nat := length (List.filter is_dial t).
Definition opens (t : list BrokerEvent) : nat := length (List.filter is_open t).

Definition is_close (e : BrokerEvent) : bool :=
  match e with
  | Call (EClose _) => true
  | EConnectionClose _ => true
  | _ => false
  end.

(** ** Sample values *)

Module Sample.

Definition constants : queue.Constants :=
  {| queue.PriorityUrgent := 8;
     queue.EmptyJobText := "invalid empty job";
     queue.AlreadyClosedText := "iterator is closed";
     queue.CantAckText := "job has no acknowledger" |}.

Definition fresh : queue.Job :=
  {| queue.ID := "01F"; queue.Priority := 4; queue.Timestamp := 1000;
     queue.ContentType := ""; queue.Raw := []; queue.Retries := 0;
     queue.ErrorType := ""; queue.Acknowledger := None |}.

Definition answer_declare (e : Event) : result amqp.Queue :=
  match e with
  | EQueueDeclare _ name _ _ _ _ _ =>
      Ok {| amqp.Name := name; amqp.Messages := 0; amqp.Consumers := 0 |}
  | _ => Err (ErrExternal "not a declaration")
  end.

(** A broker that accepts every call, except those [refuse] names, and
    delivers [stream] to every consumer. *)
Definition broker_env (stream : list Recv) (refuse : Event -> option error)
    : Env :=
  {| args0 := "rovers";
     opened := fun t _ => Ok (length t + 10)%nat;
     declared := fun _ e => answer_declare e;
     consumed := fun _ _ => Ok stream;
     failure := fun _ e => refuse e;
     new_job := fun _ => Ok fresh |}.

Definition calm : Env := broker_env [] (fun _ => None).

Definition broker : connection := {| conn_connection := 0%nat; conn_channel := 1%nat |}.

Definition buried : Queue :=
  mkQueue broker
    {| amqp.Name := "repos.buriedQueue"; amqp.Messages := 0; amqp.Consumers := 0 |}
    None.

Definition main : Queue :=
  mkQueue broker
    {| amqp.Name := "repos"; amqp.Messages := 0; amqp.Consumers := 0 |}
    (Some buried).

Definition start : World := {| trace := []; consumerSeq := 0 |}.

Definition job (id : string) (retries : Z) (errorType : string)
    (raw : list Byte.byte) : queue.Job :=
  {| queue.ID := id; queue.Priority := 4; queue.Timestamp := 1500000000;
     queue.ContentType := "application/msgpack"; queue.Raw := raw;
     queue.Retries := retries; queue.ErrorType := errorType;
     queue.Acknowledger := None |}.

Definition payload : list Byte.byte := [Byte.x67; Byte.x69; Byte.x74].

(** Two buried deliveries, handed over by the channel 10 of the consumer. *)
Definition delivery (id : string) (tag : Z) (retries : Z) : amqp.Delivery :=
  {| amqp.dAcknowledger := 10%nat;
     amqp.dHeaders := <["x-retries" := amqp.VInt32 retries]> ∅;
     amqp.dContentType := "application/msgpack";
     amqp.dPriority := 4;
     amqp.dMessageId := id;
     amqp.dTimestamp := 1500000000;
     amqp.dDeliveryTag := tag;
     amqp.dBody := payload |}.

Definition d1 : amqp.Delivery := delivery "a" 1 1.
Definition d2 : amqp.Delivery := delivery "b" 2 5.

Definition stream : list Recv := [Delivered d1; NoDelivery; Delivered d2].

Definition decoded (d : amqp.Delivery) : queue.Job :=
  match fromDelivery default_configuration (Ok blank) d with
  | Ok j => j
  | Err _ => blank
  end.

(** The iterator and the world once [Consume] has run on [buried] from
    [start]. *)
Definition it : JobIter.t :=
  {| JobIter.id := "rovers-repos.buriedQueue-1"; JobIter.ch := 10%nat;
     JobIter.c := stream |}.

Definition consuming : World :=
  {| trace :=
       [EChannel 0%nat; EQos 10%nat 1 0 false;
        EConsume 10%nat "repos.buriedQueue" "rovers-repos.buriedQueue-1"
          false false false false ∅];
     consumerSeq := 1 |}.

(** A condition: the job has been tried fewer than 3 times. *)
Definition few_retries (j : queue.Job) : bool := queue.Retries j <? 3.

Definition not_open : error := ErrExternal "channel/connection is not open".

(** Brokers that refuse what is published to the main queue, every publish,
    and every reject. *)
Definition refuse_main (e : Event) : option error :=
  match e with
  | EPublish _ _ key _ _ _ =>
      if String.eqb key "repos" then Some not_open else None
  | _ => None
  end.

Definition refuse_publish (e : Event) : option error :=
  match e with
  | EPublish _ _ _ _ _ _ => Some not_open
  | _ => None
  end.

Definition refuse_reject (e : Event) : option error :=
  match e with
  | EReject _ _ _ => Some not_open
  | _ => None
  end.

(** A buried delivery whose body is empty. *)
Definition hollow : amqp.Delivery :=
  {| amqp.dAcknowledger := 10%nat;
     amqp.dHeaders := ∅;
     amqp.dContentType := "application/msgpack";
     amqp.dPriority := 4;
     amqp.dMessageId := "c";
     amqp.dTimestamp := 1500000000;
     amqp.dDeliveryTag := 1;
     amqp.dBody := [] |}.

(** A callback of [Transaction] that publishes one job. *)
Definition publish_one (v : Queue) : M (option error) :=
  Publish default_configuration calm v (Some (job "a" 0 "" payload)).

(** A broker that accepts every declaration and binding, except the calls
    [refuse] names. *)
Definition registrar (refuse : BrokerEvent -> option error) : BrokerEnv :=
  {| channel_answer := fun t _ => Ok (length t + 10)%nat;
     declare_answer := fun _ e =>
       match refuse e with
       | Some err => Err err
       | None =>
         match e with
         | Call c => answer_declare c
         | _ => Err (ErrExternal "not a declaration")
         end
       end;
     error_answer := fun _ e => refuse e;
     dial_answer := fun t _ =>
       if (dials t <? 2)%nat then Err not_open else Ok 3%nat;
     duration_answer := fun t => 200 * Millisecond * 2 ^ Z.of_nat (dials t - 1) |}.

Definition running : BrokerWorld := {| calls := []; stopped := false |}.

(** A broker that comes back slowly: the first two dials and the first opening
    of a channel fail. *)
Definition flaky : BrokerEnv :=
  {| channel_answer := fun t _ =>
       if (opens t <? 1)%nat then Err not_open else Ok 7%nat;
     declare_answer := fun _ _ => Err not_open;
     error_answer := fun _ _ => None;
     dial_answer := fun t _ =>
       if (dials t <? 2)%nat then Err not_open else Ok 3%nat;
     duration_answer := fun t => 200 * Millisecond * 2 ^ Z.of_nat (dials t - 1) |}.

Definition refuse_ack (e : Event) : option error :=
  match e with
  | EAck _ _ _ => Some not_open
  | _ => None
  end.

(** A broker that refuses the message whose id is "b". *)
Definition refuse_b (e : Event) : option error :=
  match e with
  | EPublish _ _ _ _ _ msg =>
      if String.eqb (amqp.MessageId msg) "b" then Some not_open else None
  | _ => None
  end.

(** The iterator of [it] on another delivery channel. *)
Definition it_on (c : list Recv) : JobIter.t :=
  {| JobIter.id := "rovers-repos.buriedQueue-1"; JobIter.ch := 10%nat;
     JobIter.c := c |}.

Definition refuse_bind (e : BrokerEvent) : option error :=
  match e with
  | EQueueBind _ _ _ _ _ _ => Some not_open
  | _ => None
  end.

Definition refuse_close (e : BrokerEvent) : option error :=
  match e with
  | Call (EClose _) => Some not_open
  | _ => None
  end.

(** A configuration in which the environment gives the retries header and the
    error-type header one and the same name. *)
Definition shared_header : Configuration :=
  {| BuriedQueueSuffix := ".buriedQueue";
     BuriedExchangeSuffix := ".buriedExchange";
     BuriedNonBlockingRetries := 3;
     RetriesHeader := "x-meta";
     ErrorHeader := "x-meta";
     BackoffMin := 200 * Millisecond;
     BackoffMax := 30 * 1000 * Millisecond |}.

(** A callback of [Transaction] that calls [RepublishBuried] on the queue it is
    given and returns its error.  The fuel is more than the loop needs on
    [calm], which delivers nothing; a loop cut short by the fuel would count
    as no error. *)
Definition republish_given (v : Queue) : M (option error) :=
  fun w =>
    let out :=
      RepublishBuried default_configuration constants calm 5 v few_retries w in
    (match fst out with Some e => e | None => None end, snd out).

Definition refuse_exchange (e : BrokerEvent) : option error :=
  match e with
  | EExchangeDeclare _ _ _ _ _ _ _ _ => Some not_open
  | _ => None
  end.

End Sample.

(** ** Publishing *)

Section PublishFacts.

Context (cfg : Configuration) (qc : queue.Constants) (env : Env).

Lemma Size_nonempty (j : queue.Job) :
  queue.Raw j <> [] -> (queue.Size j =? 0) = false.
Proof.
  intros H. unfold queue.Size. destruct (queue.Raw j) as [|b l]; [congruence|].
  apply Z.eqb_neq. cbn [length]. lia.
Qed.

Lemma Size_empty (j : queue.Job) :
  queue.Raw j = [] -> (queue.Size j =? 0) = true.
Proof. intros H. unfold queue.Size. rewrite H. reflexivity. Qed.

(** What [Publish] does with a job it accepts: one call, whose answer it
    returns. *)
Lemma Publish_accepted (q : Queue) (j : queue.Job) (w : World) :
  queue.Raw j <> [] ->
  Publish cfg env q (Some j) w =
    (failure env (trace w) (publish_event cfg q j),
     record (publish_event cfg q j) w).
Proof.
  intros H. unfold Publish. rewrite (Size_nonempty j H). reflexivity.
Qed.

Lemma Publish_refused (q : Queue) (j : queue.Job) (w : World) :
  queue.Raw j = [] -> Publish cfg env q (Some j) w = (Some ErrEmptyJob, w).
Proof. intros H. unfold Publish. rewrite (Size_empty j H). reflexivity. Qed.

(** C4.  A nil job, or a job whose payload is empty, makes both [Publish] and
    [PublishDelayed] return the empty-job error and leaves the world as it
    was: no queue is declared and nothing is published. *)
Theorem Publish_empty_job (q : Queue) (j : option queue.Job) (delay : Z)
    (w : World) :
  (j = None \/ exists j', j = Some j' /\ queue.Raw j' = []) ->
  Publish cfg env q j w = (Some ErrEmptyJob, w) /\
  PublishDelayed qc env q j delay w = (Some ErrEmptyJob, w).
Proof.
  intros [-> | (j' & -> & Hraw)].
  - split; reflexivity.
  - split.
    + apply Publish_refused, Hraw.
    + unfold PublishDelayed. rewrite (Size_empty j' Hraw). reflexivity.
Qed.

End PublishFacts.

Lemma Publish_empty_job_witness :
  let j := Sample.job "a" 0 "" [] in
  Publish default_configuration Sample.calm Sample.main (Some j) Sample.start
    = (Some ErrEmptyJob, Sample.start) /\
  PublishDelayed Sample.constants Sample.calm Sample.main (Some j) 200000000
    Sample.start = (Some ErrEmptyJob, Sample.start).
Proof.
  intros j.
  apply (Publish_empty_job default_configuration Sample.constants Sample.calm
           Sample.main (Some j) 200000000 Sample.start).
  right. exists j. split; reflexivity.
Defined.

Section Headers.

Context (cfg : Configuration) (qc : queue.Constants) (env : Env).

(** The retries entry of the headers of [Publish]. *)
Lemma publish_headers_retries (j : queue.Job) :
  RetriesHeader cfg <> ErrorHeader cfg ->
  publish_headers cfg j !! RetriesHeader cfg =
    if 0 <? queue.Retries j then Some (amqp.VInt32 (queue.Retries j)) else None.
Proof.
  intros Hne. unfold publish_headers.
  destruct (String.eqb (queue.ErrorType j) ""); cbn [negb].
  - destruct (0 <? queue.Retries j).
    + apply lookup_insert_eq.
    + apply lookup_empty.
  - rewrite lookup_insert_ne by congruence.
    destruct (0 <? queue.Retries j).
    + apply lookup_insert_eq.
    + apply lookup_empty.
Qed.

(** The error-type entry of the headers of [Publish]. *)
Lemma publish_headers_error (j : queue.Job) :
  RetriesHeader cfg <> ErrorHeader cfg ->
  publish_headers cfg j !! ErrorHeader cfg =
    if String.eqb (queue.ErrorType j) "" then None
    else Some (amqp.VString (queue.ErrorType j)).
Proof.
  intros Hne. unfold publish_headers.
  destruct (String.eqb (queue.ErrorType j) ""); cbn [negb].
  - destruct (0 <? queue.Retries j).
    + rewrite lookup_insert_ne by congruence. apply lookup_empty.
    + apply lookup_empty.
  - apply lookup_insert_eq.
Qed.

(** C7, as the code has it.  When the two header names of the configuration
    differ, the message [Publish] sends for a job it accepts carries the
    retries header exactly when the retries of the job are greater than 0,
    with that count as a 32-bit integer, and the error-type header exactly
    when the error type of the job is not the empty string, with that text. *)
Theorem Publish_headers (q : Queue) (j : queue.Job) (w : World) :
  RetriesHeader cfg <> ErrorHeader cfg ->
  queue.Raw j <> [] ->
  exists msg : amqp.Publishing,
    Publish cfg env q (Some j) w =
      (failure env (trace w)
         (EPublish (conn_channel (conn q)) "" (amqp.Name (queue_ q))
            false false msg),
       record
         (EPublish (conn_channel (conn q)) "" (amqp.Name (queue_ q))
            false false msg) w) /\
    (is_Some (amqp.Headers msg !! RetriesHeader cfg) <-> 0 < queue.Retries j) /\
    (0 < queue.Retries j ->
     amqp.Headers msg !! RetriesHeader cfg
       = Some (amqp.VInt32 (queue.Retries j))) /\
    (is_Some (amqp.Headers msg !! ErrorHeader cfg)
       <-> queue.ErrorType j <> "") /\
    (queue.ErrorType j <> "" ->
     amqp.Headers msg !! ErrorHeader cfg
       = Some (amqp.VString (queue.ErrorType j))).
Proof.
  intros Hne Hraw. exists (publishing cfg j).
  split; [apply Publish_accepted, Hraw|].
  cbn [publishing amqp.Headers].
  rewrite (publish_headers_retries j Hne), (publish_headers_error j Hne).
  destruct (Z.ltb_spec 0 (queue.Retries j)) as [Hpos | Hnpos];
    destruct (String.eqb_spec (queue.ErrorType j) "") as [Hemp | Hnemp];
    repeat split; intros; try lia; try congruence; eauto;
    match goal with
    | H : is_Some None |- _ => destruct H as [? ?]; discriminate
    end.
Qed.

End Headers.

Lemma Publish_headers_witness :
  exists msg : amqp.Publishing,
    Publish default_configuration Sample.calm Sample.main
      (Some (Sample.job "a" 2 "timeout" Sample.payload)) Sample.start =
      (None,
       record (EPublish 1%nat "" "repos" false false msg) Sample.start) /\
    amqp.Headers msg !! "x-retries" = Some (amqp.VInt32 2) /\
    amqp.Headers msg !! "x-error-type" = Some (amqp.VString "timeout").
Proof.
  destruct (Publish_headers default_configuration Sample.calm Sample.main
              (Sample.job "a" 2 "timeout" Sample.payload) Sample.start)
    as (msg & Hp & _ & Hr & _ & He).
  - discriminate.
  - discriminate.
  - exists msg. split; [exact Hp|]. split.
    + apply Hr. reflexivity.
    + apply He. discriminate.
Defined.

(** C7, as the spec words it, fails for a job whose retries are negative: the
    count is not the default value 0, and the message carries no retries
    header. *)
Lemma Publish_negative_retries_without_header :
  let j := Sample.job "a" (-1) "" Sample.payload in
  queue.Retries j <> 0 /\
  Publish default_configuration Sample.calm Sample.main (Some j) Sample.start =
    (None, record (publish_event default_configuration Sample.main j) Sample.start)
  /\ amqp.Headers (publishing default_configuration j)
       !! RetriesHeader default_configuration = None.
Proof.
  intros j. split; [discriminate|]. split; reflexivity.
Qed.

(** ** From a job to a message and back *)

Section RoundTrip.

Context (cfg : Configuration) (env : Env).

Lemma uint8_small (n : Z) : 0 <= n < 256 -> uint8 n = n.
Proof. intros H. unfold uint8. apply Z.mod_small. lia. Qed.

(** What [fromDelivery] makes of the message published for a job, whatever
    the headers say. *)
Lemma fromDelivery_published (fresh j : queue.Job) (a : ChanId) (tag : Z) :
  RetriesHeader cfg <> ErrorHeader cfg ->
  fromDelivery cfg (Ok fresh) (deliver (publishing cfg j) a tag) =
    Ok {| queue.ID := queue.ID j;
          queue.Priority := uint8 (queue.Priority j);
          queue.Timestamp := queue.Timestamp j;
          queue.ContentType := queue.ContentType j;
          queue.Raw := queue.Raw j;
          queue.Retries :=
            if 0 <? queue.Retries j then queue.Retries j
            else queue.Retries fresh;
          queue.ErrorType :=
            if String.eqb (queue.ErrorType j) "" then queue.ErrorType fresh
            else queue.ErrorType j;
          queue.Acknowledger :=
            Some {| Acknowledger.ack := a; Acknowledger.id := tag |} |}.
Proof.
  intros Hne. unfold fromDelivery.
  cbn [deliver publishing amqp.dHeaders amqp.dMessageId amqp.dPriority
       amqp.dTimestamp amqp.dContentType amqp.dAcknowledger amqp.dDeliveryTag
       amqp.dBody amqp.Headers amqp.MessageId amqp.Priority amqp.Timestamp
       amqp.ContentType amqp.Body].
  rewrite (publish_headers_retries cfg j Hne).
  rewrite (publish_headers_error cfg j Hne).
  destruct (0 <? queue.Retries j);
    destruct (String.eqb (queue.ErrorType j) ""); reflexivity.
Qed.

(** The headers of [Publish] hold nothing under any other name. *)
Lemma publish_headers_other (j : queue.Job) (k : string) :
  k <> RetriesHeader cfg -> k <> ErrorHeader cfg ->
  publish_headers cfg j !! k = None.
Proof.
  intros Hr He. unfold publish_headers.
  destruct (String.eqb (queue.ErrorType j) ""); cbn [negb];
    destruct (0 <? queue.Retries j);
    rewrite ?lookup_insert_ne by congruence; apply lookup_empty.
Qed.

(** C2, as the code has it.  Let the configuration give the retries header and
    the error-type header two distinct names.  A job with a payload, whose
    priority fits the 8 bits of its type, is published as one persistent
    message with the id, priority, timestamp, content type and payload of the
    job; its headers are the retries header, present exactly when the retries
    are greater than 0 and then holding them, the error-type header, present
    exactly when the error type is not empty and then holding it, and no
    other.  Decoding the delivery of that message gives a job with the same
    id, priority, timestamp, content type and payload; its retries and its
    error type are those of the job where the header is present and those of
    the fresh job otherwise, and its acknowledger is made of the channel and
    the tag of the delivery. *)
Theorem Publish_fromDelivery_roundtrip (q : Queue) (j fresh : queue.Job)
    (a : ChanId) (tag : Z) (w : World) :
  RetriesHeader cfg <> ErrorHeader cfg ->
  queue.Raw j <> [] ->
  0 <= queue.Priority j < 256 ->
  exists (msg : amqp.Publishing) (j' : queue.Job),
    Publish cfg env q (Some j) w =
      (failure env (trace w)
         (EPublish (conn_channel (conn q)) "" (amqp.Name (queue_ q))
            false false msg),
       record
         (EPublish (conn_channel (conn q)) "" (amqp.Name (queue_ q))
            false false msg) w) /\
    amqp.DeliveryMode msg = amqp.Persistent /\
    amqp.MessageId msg = queue.ID j /\
    amqp.Priority msg = queue.Priority j /\
    amqp.Timestamp msg = queue.Timestamp j /\
    amqp.ContentType msg = queue.ContentType j /\
    amqp.Body msg = queue.Raw j /\
    amqp.Headers msg !! RetriesHeader cfg =
      (if 0 <? queue.Retries j then Some (amqp.VInt32 (queue.Retries j))
       else None) /\
    amqp.Headers msg !! ErrorHeader cfg =
      (if String.eqb (queue.ErrorType j) "" then None
       else Some (amqp.VString (queue.ErrorType j))) /\
    (forall k : string,
       k <> RetriesHeader cfg -> k <> ErrorHeader cfg ->
       amqp.Headers msg !! k = None) /\
    fromDelivery cfg (Ok fresh) (deliver msg a tag) = Ok j' /\
    queue.ID j' = queue.ID j /\
    queue.Priority j' = queue.Priority j /\
    queue.Timestamp j' = queue.Timestamp j /\
    queue.ContentType j' = queue.ContentType j /\
    queue.Raw j' = queue.Raw j /\
    queue.Retries j' =
      (if 0 <? queue.Retries j then queue.Retries j else queue.Retries fresh) /\
    queue.ErrorType j' =
      (if String.eqb (queue.ErrorType j) "" then queue.ErrorType fresh
       else queue.ErrorType j) /\
    queue.Acknowledger j' =
      Some {| Acknowledger.ack := a; Acknowledger.id := tag |}.
Proof.
  intros Hne Hraw Hprio.
  eexists (publishing cfg j), _.
  split; [apply Publish_accepted, Hraw|].
  rewrite (fromDelivery_published fresh j a tag Hne).
  cbn [publishing amqp.DeliveryMode amqp.MessageId amqp.Priority
       amqp.Timestamp amqp.ContentType amqp.Body amqp.Headers].
  rewrite (uint8_small _ Hprio).
  split_and!; try reflexivity.
  - apply publish_headers_retries, Hne.
  - apply publish_headers_error, Hne.
  - intros k Hr He. apply publish_headers_other; assumption.
Qed.

End RoundTrip.

Lemma Publish_fromDelivery_roundtrip_witness :
  exists (msg : amqp.Publishing) (j' : queue.Job),
    Publish default_configuration Sample.calm Sample.main
      (Some (Sample.job "a" 2 "timeout" Sample.payload)) Sample.start =
      (None, record (EPublish 1%nat "" "repos" false false msg) Sample.start) /\
    amqp.Headers msg !! "x-retries" = Some (amqp.VInt32 2) /\
    amqp.Headers msg !! "x-error-type" = Some (amqp.VString "timeout") /\
    fromDelivery default_configuration (Ok Sample.fresh) (deliver msg 7%nat 1)
      = Ok j' /\
    queue.ID j' = "a" /\ queue.Priority j' = 4 /\
    queue.Raw j' = Sample.payload /\
    queue.Retries j' = 2 /\ queue.ErrorType j' = "timeout".
Proof.
  destruct (Publish_fromDelivery_roundtrip default_configuration Sample.calm
              Sample.main (Sample.job "a" 2 "timeout" Sample.payload)
              Sample.fresh 7%nat 1 Sample.start)
    as (msg & j' & Hp & _ & _ & _ & _ & _ & _ & Hhr & Hhe & _ & Hd & Hid
        & Hpr & _ & _ & Hraw & Hre & Het & _).
  - discriminate.
  - discriminate.
  - cbn. lia.
  - exists msg, j'. split_and!; assumption.
Defined.

(** C2, as the spec words it, fails when the configuration gives the two
    headers one name: [Publish] accepts a job with a payload and an error
    type, its message holds the error type under that name, and
    [fromDelivery] refuses the delivery of that message, finding a text where
    it looks for the retries. *)
Lemma Publish_fromDelivery_same_header_names :
  let cfg := Sample.shared_header in
  let j := Sample.job "a" 0 "timeout" Sample.payload in
  queue.Raw j <> [] /\
  0 <= queue.Priority j < 256 /\
  Publish cfg Sample.calm Sample.main (Some j) Sample.start =
    (None, record (publish_event cfg Sample.main j) Sample.start) /\
  amqp.Headers (publishing cfg j) !! "x-meta"
    = Some (amqp.VString "timeout") /\
  fromDelivery cfg (Ok Sample.fresh) (deliver (publishing cfg j) 7%nat 1)
    = Err (ErrRetrievingHeader "x-meta" "a").
Proof.
  intros cfg j. split; [discriminate|]. split; [cbn; lia|].
  split_and!; reflexivity.
Qed.

(** ** Delayed publishing *)

Section Delayed.

Context (cfg : Configuration) (qc : queue.Constants) (env : Env).

Lemma int64_small (n : Z) : min_int64 <= n <= max_int64 -> int64 n = n.
Proof.
  unfold min_int64, max_int64, int64. intros H.
  rewrite Z.mod_small by lia. lia.
Qed.

(** The time to live, in milliseconds, of a delay that fits an int64, and its
    double, fit an int64. *)
Lemma ttl_range (delay : Z) :
  min_int64 <= delay <= max_int64 ->
  min_int64 <= Z.quot delay Millisecond <= max_int64 /\
  min_int64 <= Z.quot delay Millisecond * 2 <= max_int64.
Proof.
  unfold min_int64, max_int64, Millisecond. intros H.
  assert (Hq : - (2 ^ 63 / 1000000) - 1 <= Z.quot delay 1000000
               <= 2 ^ 63 / 1000000 + 1).
  { destruct (Z.le_gt_cases 0 delay) as [Hpos | Hneg].
    - rewrite Z.quot_div_nonneg by lia.
      assert (0 <= delay / 1000000) by (apply Z.div_pos; lia).
      assert (delay / 1000000 <= 2 ^ 63 / 1000000)
        by (apply Z.div_le_mono; lia).
      lia.
    - replace delay with (- (- delay)) by lia.
      rewrite Z.quot_opp_l by lia.
      rewrite Z.quot_div_nonneg by lia.
      assert (0 <= (- delay) / 1000000) by (apply Z.div_pos; lia).
      assert ((- delay) / 1000000 <= 2 ^ 63 / 1000000)
        by (apply Z.div_le_mono; lia).
      lia. }
  change (2 ^ 63 / 1000000) with 9223372036854 in Hq.
  change (2 ^ 63) with 9223372036854775808.
  lia.
Qed.

(** C8.  For a job with a payload and a delay [d], [PublishDelayed] declares a
    queue named by the id of the job, durable and deleted when unused, whose
    arguments give the message time to live as [d] in whole milliseconds, the
    expiry of the queue as twice that, and the dead letters to the default
    exchange with the name of the main queue as routing key.  When the
    declaration succeeds, the job is published to the queue the declaration
    returned, in a message without headers. *)
Theorem PublishDelayed_scratch_queue (q : Queue) (j : queue.Job) (delay : Z)
    (w : World) :
  queue.Raw j <> [] ->
  min_int64 <= delay <= max_int64 ->
  exists (args : amqp.Table) (msg : amqp.Publishing),
    let ch := conn_channel (conn q) in
    let ttl := Z.quot delay Millisecond in
    let declare := EQueueDeclare ch (queue.ID j) true true false false args in
    args !! "x-message-ttl" = Some (amqp.VInt64 ttl) /\
    args !! "x-expires" = Some (amqp.VInt64 (2 * ttl)) /\
    args !! "x-dead-letter-exchange" = Some (amqp.VString "") /\
    args !! "x-dead-letter-routing-key"
      = Some (amqp.VString (amqp.Name (queue_ q))) /\
    amqp.Headers msg = ∅ /\
    amqp.MessageId msg = queue.ID j /\
    amqp.Body msg = queue.Raw j /\
    PublishDelayed qc env q (Some j) delay w =
      match declared env (trace w) declare with
      | Err e => (Some e, record declare w)
      | Ok delayedQueue =>
        let publish :=
          EPublish ch "" (amqp.Name delayedQueue) false false msg in
        (failure env (trace w ++ [declare]) publish,
         record publish (record declare w))
      end.
Proof.
  intros Hraw Hd.
  destruct (ttl_range delay Hd) as [Httl Hexp].
  exists (delayed_args qc q (Z.quot delay Millisecond)).
  eexists {| amqp.DeliveryMode := amqp.Persistent;
             amqp.MessageId := queue.ID j;
             amqp.Priority := uint8 (queue.Priority j);
             amqp.Timestamp := queue.Timestamp j;
             amqp.ContentType := queue.ContentType j;
             amqp.Body := queue.Raw j;
             amqp.Headers := ∅ |}.
  cbn zeta. unfold delayed_args.
  rewrite (int64_small _ Httl), (int64_small _ Hexp).
  split_and!.
  - rewrite !lookup_insert_ne by discriminate. apply lookup_insert_eq.
  - rewrite !lookup_insert_ne by discriminate.
    rewrite lookup_insert_eq. do 2 f_equal. lia.
  - rewrite !lookup_insert_ne by discriminate. apply lookup_insert_eq.
  - rewrite !lookup_insert_ne by discriminate. apply lookup_insert_eq.
  - reflexivity.
  - reflexivity.
  - reflexivity.
  - unfold PublishDelayed. rewrite (Size_nonempty j Hraw).
    unfold bind, Channel_QueueDeclare, delayed_args.
    rewrite (int64_small _ Httl), (int64_small _ Hexp).
    destruct (declared env (trace w) _); reflexivity.
Qed.

End Delayed.

Lemma PublishDelayed_scratch_queue_witness :
  exists (args : amqp.Table) (msg : amqp.Publishing),
    args !! "x-message-ttl" = Some (amqp.VInt64 200) /\
    args !! "x-expires" = Some (amqp.VInt64 400) /\
    amqp.Headers msg = ∅ /\
    PublishDelayed Sample.constants Sample.calm Sample.main
      (Some (Sample.job "a" 2 "timeout" Sample.payload)) (200 * Millisecond)
      Sample.start =
      (None,
       record (EPublish 1%nat "" "a" false false msg)
         (record (EQueueDeclare 1%nat "a" true true false false args)
            Sample.start)).
Proof.
  destruct (PublishDelayed_scratch_queue Sample.constants Sample.calm Sample.main
              (Sample.job "a" 2 "timeout" Sample.payload) (200 * Millisecond)
              Sample.start)
    as (args & msg & Httl & Hexp & _ & _ & Hh & _ & _ & Hp).
  - discriminate.
  - unfold min_int64, max_int64, Millisecond. lia.
  - exists args, msg. repeat split; assumption.
Defined.

(** ** Decoding the headers *)

Section Decoding.

Context (cfg : Configuration).

(** C5.  [fromDelivery], given a fresh job whose retries are 0 and whose error
    type is empty, and a delivery [d]:
    - fails with the header-retrieval error that names the retries header and
      the id of the message when that header is present and is not a 32-bit
      integer;
    - fails with a header-retrieval error with the id of the message when the
      error-type header is present and is not a string; the error names the
      error-type header, unless the retries header is refused first;
    - when the retries header is absent, either returns a job whose retries
      are 0, or fails with the error of the error-type header;
    - when the error-type header is absent, either returns a job whose error
      type is empty, or fails with the error of the retries header. *)
Theorem fromDelivery_headers (fresh : queue.Job) (d : amqp.Delivery) :
  queue.Retries fresh = 0 ->
  queue.ErrorType fresh = "" ->
  let res := fromDelivery cfg (Ok fresh) d in
  let bad_retries :=
    Err (ErrRetrievingHeader (RetriesHeader cfg) (amqp.dMessageId d)) in
  let bad_error :=
    Err (ErrRetrievingHeader (ErrorHeader cfg) (amqp.dMessageId d)) in
  (forall v, amqp.dHeaders d !! RetriesHeader cfg = Some v ->
             is_int32 v = false -> res = bad_retries) /\
  (forall v, amqp.dHeaders d !! ErrorHeader cfg = Some v ->
             is_string v = false ->
             res = match amqp.dHeaders d !! RetriesHeader cfg with
                   | Some r => if is_int32 r then bad_error else bad_retries
                   | None => bad_error
                   end) /\
  (amqp.dHeaders d !! RetriesHeader cfg = None ->
     (exists j, res = Ok j /\ queue.Retries j = 0) \/
     (res = bad_error /\
      exists v, amqp.dHeaders d !! ErrorHeader cfg = Some v /\
                is_string v = false)) /\
  (amqp.dHeaders d !! ErrorHeader cfg = None ->
     (exists j, res = Ok j /\ queue.ErrorType j = "") \/
     (res = bad_retries /\
      exists v, amqp.dHeaders d !! RetriesHeader cfg = Some v /\
                is_int32 v = false)).
Proof.
  intros Hr He. cbn zeta. unfold fromDelivery. split_and!.
  - intros v Hv Hty. rewrite Hv. destruct v; cbn in Hty; congruence.
  - intros v Hv Hty. rewrite Hv.
    destruct (amqp.dHeaders d !! RetriesHeader cfg) as [r|].
    + destruct r; cbn [is_int32]; try reflexivity.
      destruct v; cbn in Hty; congruence.
    + destruct v; cbn in Hty; congruence.
  - intros Hv. rewrite Hv.
    destruct (amqp.dHeaders d !! ErrorHeader cfg) as [v|] eqn:Hev.
    + destruct v; try (right; split; [reflexivity | eexists; split; reflexivity]).
      left. eexists. split; [reflexivity | exact Hr].
    + left. eexists. split; [reflexivity | exact Hr].
  - intros Hv. rewrite Hv.
    destruct (amqp.dHeaders d !! RetriesHeader cfg) as [r|] eqn:Hrv.
    + destruct r; try (right; split; [reflexivity | eexists; split; reflexivity]).
      left. eexists. split; [reflexivity | exact He].
    + left. eexists. split; [reflexivity | exact He].
Qed.

End Decoding.

Lemma fromDelivery_headers_witness :
  let d := {| amqp.dAcknowledger := 7%nat;
              amqp.dHeaders := <["x-retries" := amqp.VString "3"]> ∅;
              amqp.dContentType := ""; amqp.dPriority := 4;
              amqp.dMessageId := "a"; amqp.dTimestamp := 0;
              amqp.dDeliveryTag := 1; amqp.dBody := Sample.payload |} in
  fromDelivery default_configuration (Ok Sample.fresh) d =
    Err (ErrRetrievingHeader "x-retries" "a").
Proof.
  intros d.
  destruct (fromDelivery_headers default_configuration Sample.fresh d
              eq_refl eq_refl) as (H & _).
  apply (H (amqp.VString "3")); reflexivity.
Defined.

(** ** Closing an iterator *)

Section Closing.

Context (env : Env).

(** C6, as the code has it.  [Close] cancels the consumer of the iterator.
    When the cancellation fails, its error is returned and the channel is left
    open: no other call is made.  When it succeeds, the channel is closed and
    the result of that is returned. *)
Theorem JobIter_Close_outcomes (i : JobIter.t) (w : World) :
  let cancel := ECancel (JobIter.ch i) (JobIter.id i) false in
  let close := EClose (JobIter.ch i) in
  JobIter_Close env i w =
    match failure env (trace w) cancel with
    | Some e => (Some e, record cancel w)
    | None => (failure env (trace w ++ [cancel]) close,
               record close (record cancel w))
    end.
Proof.
  cbn zeta. unfold JobIter_Close, bind, Channel_Cancel, Channel_Close, call.
  destruct (failure env (trace w) _); reflexivity.
Qed.

End Closing.

(** C6, as the spec words it, fails when the broker refuses the cancellation:
    the channel of the iterator is never closed. *)
Lemma JobIter_Close_skips_channel :
  let refuse := fun e =>
    match e with
    | ECancel _ _ _ => Some (ErrExternal "channel/connection is not open")
    | _ => None
    end in
  let i := {| JobIter.id := "rovers-repos-1"; JobIter.ch := 12%nat;
              JobIter.c := [] |} in
  let out := JobIter_Close (Sample.broker_env [] refuse) i Sample.start in
  fst out = Some (ErrExternal "channel/connection is not open") /\
  trace (snd out) = [ECancel 12%nat "rovers-repos-1" false] /\
  ~ In (EClose 12%nat) (trace (snd out)).
Proof.
  cbn. split; [reflexivity|]. split; [reflexivity|].
  intros [H | []]. discriminate H.
Qed.

(** ** Transactions *)

Section Transactions.

Context (cfg : Configuration) (qc : queue.Constants) (env : Env).

(** What [Transaction] does once its channel is open and the transaction has
    begun: the callback runs on [txQueue], then the transaction is rolled back
    or committed, then the channel is closed. *)
Lemma Transaction_begun (q : Queue) (txcb : Queue -> M (option error))
    (w : World) (ch : ChanId) :
  opened env (trace w) (conn_connection (conn q)) = Ok ch ->
  failure env (trace w ++ [EChannel (conn_connection (conn q))]) (ETx ch)
    = None ->
  let w1 := record (ETx ch) (record (EChannel (conn_connection (conn q))) w) in
  let cb := txcb (txQueue q ch) w1 in
  Transaction qc env q txcb w =
    match fst cb with
    | Some e =>
      (match failure env (trace (snd cb)) (ETxRollback ch) with
       | Some e' => Some e'
       | None => Some e
       end,
       record (EClose ch) (record (ETxRollback ch) (snd cb)))
    | None =>
      (failure env (trace (snd cb)) (ETxCommit ch),
       record (EClose ch) (record (ETxCommit ch) (snd cb)))
    end.
Proof.
  intros Hopen Htx. cbn zeta.
  unfold Transaction, bind, Connection_Channel. rewrite Hopen.
  unfold Channel_Tx, call. cbn [trace record]. rewrite Htx.
  destruct (txcb (txQueue q ch) _) as [[e|] w2]; cbn [fst snd].
  - unfold Channel_TxRollback, Channel_Close, call, ret.
    destruct (failure env (trace w2) (ETxRollback ch)); reflexivity.
  - unfold Channel_TxCommit, Channel_Close, call, ret. reflexivity.
Qed.

(** The channel [Transaction] opened is closed last, also when the
    transaction cannot begin. *)
Lemma Transaction_closes (q : Queue) (txcb : Queue -> M (option error))
    (w : World) (ch : ChanId) :
  opened env (trace w) (conn_connection (conn q)) = Ok ch ->
  exists t : Trace,
    trace (snd (Transaction qc env q txcb w)) = t ++ [EClose ch].
Proof.
  intros Hopen.
  unfold Transaction, bind, Connection_Channel. rewrite Hopen.
  unfold Channel_Tx, call. cbn [trace record].
  destruct (failure env _ (ETx ch)) as [e|].
  - cbn [snd trace record ret]. eexists. reflexivity.
  - destruct (txcb (txQueue q ch) _) as [[e|] w2].
    + unfold Channel_TxRollback, Channel_Close, call, ret.
      destruct (failure env (trace w2) (ETxRollback ch));
        cbn [snd trace record]; eexists; reflexivity.
    + unfold Channel_TxCommit, Channel_Close, call, ret.
      cbn [snd trace record]. eexists. reflexivity.
Qed.

(** C9.  Let [Transaction] open its channel [ch] and begin the transaction,
    and let the callback, run on the transactional queue, end in the world
    [w2].  If the callback returns an error and the rollback succeeds, the
    error of the callback is returned; if the rollback fails, its error is
    returned; if the callback succeeds, the transaction is committed and the
    result of the commit is returned.  In each case closing [ch] is the last
    call made. *)
Theorem Transaction_outcomes (q : Queue) (txcb : Queue -> M (option error))
    (w : World) (ch : ChanId) :
  opened env (trace w) (conn_connection (conn q)) = Ok ch ->
  failure env (trace w ++ [EChannel (conn_connection (conn q))]) (ETx ch)
    = None ->
  let w1 := record (ETx ch) (record (EChannel (conn_connection (conn q))) w) in
  let cb := txcb (txQueue q ch) w1 in
  let w2 := snd cb in
  let out := Transaction qc env q txcb w in
  (forall e, fst cb = Some e ->
     failure env (trace w2) (ETxRollback ch) = None ->
     fst out = Some e /\
     trace (snd out) = trace w2 ++ [ETxRollback ch; EClose ch]) /\
  (forall e e', fst cb = Some e ->
     failure env (trace w2) (ETxRollback ch) = Some e' ->
     fst out = Some e' /\
     trace (snd out) = trace w2 ++ [ETxRollback ch; EClose ch]) /\
  (fst cb = None ->
     fst out = failure env (trace w2) (ETxCommit ch) /\
     trace (snd out) = trace w2 ++ [ETxCommit ch; EClose ch]) /\
  (exists t : Trace, trace (snd out) = t ++ [EClose ch]).
Proof.
  intros Hopen Htx. cbn zeta.
  rewrite (Transaction_begun q txcb w ch Hopen Htx). cbn zeta.
  split_and!.
  - intros e Hcb Hrb. rewrite Hcb, Hrb. cbn. rewrite <- app_assoc. auto.
  - intros e e' Hcb Hrb. rewrite Hcb, Hrb. cbn. rewrite <- app_assoc. auto.
  - intros Hcb. rewrite Hcb. cbn. rewrite <- app_assoc. auto.
  - rewrite <- (Transaction_begun q txcb w ch Hopen Htx).
    apply Transaction_closes, Hopen.
Qed.

(** C10.  Let [Transaction] open its channel [ch] and begin the transaction.
    Whatever the callback, it is run once, on one queue and in the world the
    beginning of the transaction leaves, and [Transaction] goes on from the
    result and the world of that run: it rolls back on an error and commits
    otherwise, then closes [ch].  That queue is on the connection of [q] and
    on [ch], keeps the name of [q] and has no buried queue; [RepublishBuried]
    on it returns the error of the missing buried queue from any world, with
    any fuel and conditions, and leaves the world as it was. *)
Theorem Transaction_view_without_buried (q : Queue) (w : World) (ch : ChanId) :
  opened env (trace w) (conn_connection (conn q)) = Ok ch ->
  failure env (trace w ++ [EChannel (conn_connection (conn q))]) (ETx ch)
    = None ->
  exists view : Queue,
    buriedQueue view = None /\
    queue_ view = queue_ q /\
    conn_connection (conn view) = conn_connection (conn q) /\
    conn_channel (conn view) = ch /\
    (forall txcb : Queue -> M (option error),
       let cb :=
         txcb view
           (record (ETx ch) (record (EChannel (conn_connection (conn q))) w)) in
       Transaction qc env q txcb w =
         match fst cb with
         | Some e =>
           (match failure env (trace (snd cb)) (ETxRollback ch) with
            | Some e' => Some e'
            | None => Some e
            end,
            record (EClose ch) (record (ETxRollback ch) (snd cb)))
         | None =>
           (failure env (trace (snd cb)) (ETxCommit ch),
            record (EClose ch) (record (ETxCommit ch) (snd cb)))
         end) /\
    (forall (fuel : nat) (comply : queue.Job -> bool) (w' : World),
       RepublishBuried cfg qc env fuel view comply w'
       = (Some (Some ErrBuriedQueueNil), w')).
Proof.
  intros Hopen Htx. exists (txQueue q ch). split_and!; try reflexivity.
  intros txcb. exact (Transaction_begun q txcb w ch Hopen Htx).
Qed.

End Transactions.

(** ** The drain loop *)

Section Drain.

Context (cfg : Configuration) (qc : queue.Constants) (env : Env).
Context (comply : queue.Job -> bool) (q : Queue).

Lemma drain_S (fuel : nat) (iter : JobIter.t) (retries : Z)
    (nc : list queue.Job) (ep : list jobErr) (w : World) :
  drain cfg env (S fuel) comply q iter retries nc ep w =
    let r := nextNonBlocking cfg env iter w in
    let iter := snd (fst r) in
    match fst (fst r) with
    | Err e => (Some (LReturn e), snd r)
    | Ok None =>
      if retries >? BuriedNonBlockingRetries cfg then (Some (LBreak nc ep), snd r)
      else drain cfg env fuel comply q iter (int64 (retries + 1)) nc ep (snd r)
    | Ok (Some j) =>
      let a := Job_Ack env j (snd r) in
      match fst a with
      | Some e => (Some (LReturn e), snd a)
      | None =>
        if comply j then
          let p := Publish cfg env q (Some j) (snd a) in
          match fst p with
          | Some e =>
            drain cfg env fuel comply q iter 0 nc
              (ep ++ [{| job := j; err := e |}]) (snd p)
          | None => drain cfg env fuel comply q iter 0 nc ep (snd p)
          end
        else drain cfg env fuel comply q iter 0 (nc ++ [j]) ep (snd a)
      end
    end.
Proof.
  cbn [drain]. unfold bind at 1.
  destruct (nextNonBlocking cfg env iter w) as [[r iter'] w1].
  cbn [fst snd]. destruct r as [[j|]|e]; try reflexivity.
  - unfold bind at 1. destruct (Job_Ack env j w1) as [[e|] w2];
      cbn [fst snd]; try reflexivity.
    destruct (comply j); [|reflexivity].
    unfold bind at 1. destruct (Publish cfg env q (Some j) w2) as [[e|] w3];
      reflexivity.
  - destruct (retries >? BuriedNonBlockingRetries cfg); reflexivity.
Qed.

(** With nothing left to receive, the loop sleeps until its counter passes the
    limit, and breaks. *)
Lemma drain_idle (n : nat) :
  forall (fuel : nat) (iter : JobIter.t) (retries : Z)
         (nc : list queue.Job) (ep : list jobErr) (w : World),
    JobIter.c iter = [] ->
    BuriedNonBlockingRetries cfg < max_int64 ->
    0 <= retries ->
    Z.to_nat (BuriedNonBlockingRetries cfg + 1 - retries) = n ->
    (n < fuel)%nat ->
    drain cfg env fuel comply q iter retries nc ep w
      = (Some (LBreak nc ep), w).
Proof.
  induction n as [|n IH]; intros fuel iter retries nc ep w Hc Hlim Hr Hn Hf;
    (destruct fuel as [|fuel]; [lia|]);
    rewrite drain_S; unfold nextNonBlocking; rewrite Hc;
    cbn [ret fst snd]; cbv zeta.
  - destruct (Z.gtb_spec retries (BuriedNonBlockingRetries cfg)) as [_ | Hle]; [reflexivity | lia].
  - destruct (Z.gtb_spec retries (BuriedNonBlockingRetries cfg)) as [Hgt | Hle]; [lia|].
    assert (Hwrap : int64 (retries + 1) = retries + 1).
    { unfold int64, max_int64 in *. rewrite Z.mod_small by lia. lia. }
    rewrite Hwrap. apply IH; try assumption; lia.
Qed.

Lemma Job_Ack_call (j : queue.Job) (w : World) :
  (forall t a tag, failure env t (EAck a tag false) = None) ->
  is_Some (queue.Acknowledger j) ->
  Job_Ack env j w =
    (None, {| trace := trace w ++ ack_call j; consumerSeq := consumerSeq w |}).
Proof.
  intros Hack [a Ha]. unfold Job_Ack, ack_call. rewrite Ha.
  unfold Acknowledger_Ack, call. rewrite Hack. reflexivity.
Qed.

Lemma fromDelivery_Acknowledger (nj : result queue.Job) (d : amqp.Delivery)
    (j : queue.Job) :
  fromDelivery cfg nj d = Ok j ->
  queue.Acknowledger j =
    Some {| Acknowledger.ack := amqp.dAcknowledger d;
            Acknowledger.id := amqp.dDeliveryTag d |}.
Proof.
  unfold fromDelivery. destruct nj as [f|e]; [|discriminate].
  destruct (amqp.dHeaders d !! RetriesHeader cfg) as [[]|];
    try discriminate;
    destruct (amqp.dHeaders d !! ErrorHeader cfg) as [[]|];
    try discriminate; intros H; injection H as <-; reflexivity.
Qed.

(** [fromDelivery] keeps two fields of the fresh job only. *)
Lemma fromDelivery_blank (f : queue.Job) (d : amqp.Delivery) :
  queue.Retries f = 0 -> queue.ErrorType f = "" ->
  fromDelivery cfg (Ok f) d = fromDelivery cfg (Ok blank) d.
Proof.
  intros Hr He. unfold fromDelivery. rewrite Hr, He. reflexivity.
Qed.

Lemma nextNonBlocking_delivered (iter : JobIter.t) (d : amqp.Delivery)
    (c' : list Recv) (j : queue.Job) (w : World) :
  JobIter.c iter = Delivered d :: c' ->
  (forall t, exists f, new_job env t = Ok f /\
                       queue.Retries f = 0 /\ queue.ErrorType f = "") ->
  fromDelivery cfg (Ok blank) d = Ok j ->
  nextNonBlocking cfg env iter w = (Ok (Some j), with_c iter c', w).
Proof.
  intros Hc Hnew Hd. unfold nextNonBlocking. rewrite Hc.
  unfold bind, NewJob, ret.
  destruct (Hnew (trace w)) as (f & -> & Hr & He).
  rewrite (fromDelivery_blank f d Hr He), Hd. reflexivity.
Qed.

(** The drain loop on a delivery channel that is not closed, whose deliveries
    decode and whose acks succeed: with fuel for every receive, the loop
    breaks, and its two lists and its world are those of [treat] on the jobs
    it fetched. *)
Lemma drain_treat (c : list Recv) :
  forall (fuel : nat) (iter : JobIter.t) (retries : Z)
         (nc : list queue.Job) (ep : list jobErr) (w : World)
         (js : list queue.Job),
    JobIter.c iter = c ->
    BuriedNonBlockingRetries cfg < max_int64 ->
    0 <= retries ->
    (forall t, exists f, new_job env t = Ok f /\
                         queue.Retries f = 0 /\ queue.ErrorType f = "") ->
    (forall t a tag, failure env t (EAck a tag false) = None) ->
    ~ In Closed c ->
    Forall2 (fun d j => fromDelivery cfg (Ok blank) d = Ok j)
      (fetched (BuriedNonBlockingRetries cfg) c retries) js ->
    (length c + Z.to_nat (BuriedNonBlockingRetries cfg + 1) < fuel)%nat ->
    drain cfg env fuel comply q iter retries nc ep w =
      (Some (LBreak (nc ++ not_complying (fst (treat cfg env comply q js w)))
                    (ep ++ failed (fst (treat cfg env comply q js w)))),
       snd (treat cfg env comply q js w)).
Proof.
  induction c as [|r c' IH];
    intros fuel iter retries nc ep w js Hc Hlim Hr Hnew Hack Hopen Hdec Hfuel.
  - cbn [fetched] in Hdec. inversion Hdec; subst.
    cbn [treat fst snd not_complying failed flat_map]. rewrite !app_nil_r.
    apply (drain_idle (Z.to_nat (BuriedNonBlockingRetries cfg + 1 - retries))); try assumption;
      try reflexivity. lia.
  - destruct fuel as [|fuel]; [cbn in Hfuel; lia|].
    cbn [length] in Hfuel.
    destruct r as [| |d].
    + (* an empty receive *)
      rewrite drain_S. unfold nextNonBlocking. rewrite Hc.
      cbn [ret fst snd]. cbv zeta. cbn [fetched] in Hdec.
      destruct (Z.gtb_spec retries (BuriedNonBlockingRetries cfg)) as [Hgt | Hle].
      * inversion Hdec; subst.
        cbn [treat fst snd not_complying failed flat_map].
        rewrite !app_nil_r. reflexivity.
      * assert (Hwrap : int64 (retries + 1) = retries + 1).
        { unfold int64, max_int64 in *. rewrite Z.mod_small by lia. lia. }
        rewrite Hwrap. apply IH; try assumption; try reflexivity; try lia.
        intros Hin. apply Hopen. right. exact Hin.
    + (* the channel is closed *)
      exfalso. apply Hopen. left. reflexivity.
    + (* a delivery *)
      cbn [fetched] in Hdec.
      inversion Hdec as [|d0 j ds js' Hd Hrest]; subst.
      rewrite drain_S.
      rewrite (nextNonBlocking_delivered iter d c' j w Hc Hnew Hd).
      cbn [fst snd]. cbv zeta.
      assert (Hsome : is_Some (queue.Acknowledger j)).
      { rewrite (fromDelivery_Acknowledger _ _ _ Hd). eexists. reflexivity. }
      rewrite (Job_Ack_call j w Hack Hsome). cbn [fst snd].
      cbn [treat]. rewrite (Job_Ack_call j w Hack Hsome). cbn [fst snd].
      assert (Hopen' : ~ In Closed c')
        by (intros Hin; apply Hopen; right; exact Hin).
      destruct (comply j).
      * destruct (Publish cfg env q (Some j) _) as [[e|] w3] eqn:Hp;
          cbn [fst snd]; cbv zeta;
          rewrite (IH fuel (with_c iter c') 0 _ _ w3 js');
          try assumption; try reflexivity; try lia.
        cbn [fst snd not_complying failed flat_map].
        rewrite <- !app_assoc. reflexivity.
      * cbv zeta.
        rewrite (IH fuel (with_c iter c') 0 _ _ _ js');
          try assumption; try reflexivity; try lia.
        cbn [fst snd not_complying failed flat_map].
        rewrite <- !app_assoc. reflexivity.
Qed.

End Drain.

(** ** The log of a run *)

(** A job is among the failed ones of the log exactly when its verdict is
    [Failed], with that error. *)
Lemma failed_spec (log : list (queue.Job * Verdict)) (j : queue.Job)
    (e : error) :
  In {| job := j; err := e |} (failed log) <-> In (j, Failed e) log.
Proof.
  unfold failed. rewrite in_flat_map. split.
  - intros ([j' v] & Hin & Hje). cbn [fst snd] in Hje.
    destruct v; cbn in Hje; try tauto.
    destruct Hje as [Heq | []]. injection Heq as -> ->. exact Hin.
  - intros Hin. exists (j, Failed e). split; [exact Hin|]. left. reflexivity.
Qed.

Section LogFacts.

Context (cfg : Configuration) (env : Env).
Context (comply : queue.Job -> bool) (q : Queue).

Lemma Job_Ack_trace (j : queue.Job) (w : World) :
  trace (snd (Job_Ack env j w)) = trace w ++ ack_call j /\
  consumerSeq (snd (Job_Ack env j w)) = consumerSeq w.
Proof.
  unfold Job_Ack, ack_call. destruct (queue.Acknowledger j) as [a|].
  - split; reflexivity.
  - cbn. rewrite app_nil_r. split; reflexivity.
Qed.

Lemma Publish_trace (b : Queue) (j : queue.Job) (w : World) :
  trace (snd (Publish cfg env b (Some j) w)) = trace w ++ publish_call cfg b j /\
  consumerSeq (snd (Publish cfg env b (Some j) w)) = consumerSeq w.
Proof.
  unfold Publish, publish_call. destruct (queue.Size j =? 0).
  - cbn. rewrite app_nil_r. split; reflexivity.
  - split; reflexivity.
Qed.

(** The log has one entry for each job, in order. *)
Lemma treat_jobs (js : list queue.Job) :
  forall w, map fst (fst (treat cfg env comply q js w)) = js.
Proof.
  induction js as [|j js IH]; intros w; [reflexivity|].
  cbn [treat]. destruct (comply j); cbn [fst map]; rewrite IH; reflexivity.
Qed.

(** The verdict of a job is [NotComplying] exactly when it does not comply. *)
Lemma treat_verdicts (js : list queue.Job) :
  forall w,
    Forall (fun entry => comply (fst entry) = false <-> snd entry = NotComplying)
      (fst (treat cfg env comply q js w)).
Proof.
  induction js as [|j js IH]; intros w; [constructor|].
  cbn [treat]. destruct (comply j) eqn:Hc; cbn [fst]; constructor;
    try apply IH; cbn [fst snd]; rewrite Hc.
  - destruct (fst (Publish cfg env q (Some j) _)); split; discriminate.
  - split; reflexivity.
Qed.

Lemma treat_not_complying (js : list queue.Job) :
  forall w,
    not_complying (fst (treat cfg env comply q js w))
    = List.filter (fun j => negb (comply j)) js.
Proof.
  induction js as [|j js IH]; intros w; [reflexivity|].
  cbn [treat List.filter]. destruct (comply j) eqn:Hc; cbn [fst negb].
  - unfold not_complying. cbn [flat_map snd].
    destruct (fst (Publish cfg env q (Some j) _)); cbn [app]; apply IH.
  - unfold not_complying. cbn [flat_map snd fst app]. f_equal. apply IH.
Qed.

(** A verdict [Failed] is the error [Publish] returned for a complying job. *)
Lemma treat_Failed (js : list queue.Job) :
  forall w j e,
    In (j, Failed e) (fst (treat cfg env comply q js w)) ->
    comply j = true /\
    exists w1, fst (Publish cfg env q (Some j) w1) = Some e.
Proof.
  induction js as [|j0 js IH]; intros w j e Hin; [contradiction|].
  cbn [treat] in Hin. destruct (comply j0) eqn:Hc; cbn [fst] in Hin.
  - destruct Hin as [Heq | Hin]; [|eapply IH; exact Hin].
    destruct (fst (Publish cfg env q (Some j0) _)) eqn:Hp; try discriminate.
    injection Heq as -> ->. split; [exact Hc|]. eexists. exact Hp.
  - destruct Hin as [Heq | Hin]; [discriminate | eapply IH; exact Hin].
Qed.

(** The calls of the loop are those of the entries of its log. *)
Lemma treat_trace (js : list queue.Job) :
  forall w,
    trace (snd (treat cfg env comply q js w))
    = trace w ++ flat_map (entry_calls cfg q) (fst (treat cfg env comply q js w))
    /\ consumerSeq (snd (treat cfg env comply q js w)) = consumerSeq w.
Proof.
  induction js as [|j js IH]; intros w.
  - cbn. rewrite app_nil_r. split; reflexivity.
  - cbn [treat]. destruct (Job_Ack_trace j w) as [Ha Hs].
    destruct (comply j); cbn [fst snd flat_map].
    + destruct (Publish_trace q j (snd (Job_Ack env j w))) as [Hp Hps].
      destruct (IH (snd (Publish cfg env q (Some j) (snd (Job_Ack env j w)))))
        as [-> ->].
      rewrite Hp, Ha, Hps, Hs. split; [|reflexivity].
      unfold entry_calls at 2. cbn [fst snd].
      destruct (fst (Publish cfg env q (Some j) _));
        rewrite <- !app_assoc; reflexivity.
    + destruct (IH (snd (Job_Ack env j w))) as [-> ->].
      rewrite Ha, Hs. split; [|reflexivity].
      unfold entry_calls at 2. cbn [fst snd].
      rewrite app_nil_r, <- !app_assoc. reflexivity.
Qed.

(** Only complying jobs are published in the loop: an entry whose job does not
    comply makes the call of its ack and no other. *)
Lemma treat_not_published (js : list queue.Job) (w : World) :
  Forall (fun entry => comply (fst entry) = false ->
                       entry_calls cfg q entry = ack_call (fst entry))
    (fst (treat cfg env comply q js w)).
Proof.
  eapply List.Forall_impl; [|apply treat_verdicts].
  intros [j v] Hv Hc. cbn [fst snd] in *. apply Hv in Hc. subst v.
  unfold entry_calls. cbn [fst snd]. apply app_nil_r.
Qed.

End LogFacts.

(** ** After the drain loop *)

Section AfterLoop.

Context (cfg : Configuration) (qc : queue.Constants) (env : Env).
Context (q b : Queue) (Hb : buriedQueue q = Some b).

Lemma reject_all_calls (nc : list queue.Job) :
  forall w,
    (forall t a tag, failure env t (EReject a tag true) = None) ->
    Forall (fun j => is_Some (queue.Acknowledger j)) nc ->
    fst (reject_all env nc w) = None /\
    trace (snd (reject_all env nc w))
      = trace w ++ flat_map (reject_call true) nc /\
    consumerSeq (snd (reject_all env nc w)) = consumerSeq w.
Proof.
  induction nc as [|j nc IH]; intros w Hrej Hall.
  - cbn. rewrite app_nil_r. auto.
  - inversion Hall as [|j' nc' [a Ha] Hall']; subst.
    cbn [reject_all]. unfold bind, Job_Reject. rewrite Ha.
    unfold Acknowledger_Reject, call. rewrite Hrej.
    destruct (IH (record (EReject (Acknowledger.ack a) (Acknowledger.id a) true) w)
                Hrej Hall') as (H1 & H2 & H3).
    rewrite H1, H2, H3. cbn [flat_map]. unfold reject_call at 2. rewrite Ha.
    cbn [record trace consumerSeq]. rewrite <- app_assoc. auto.
Qed.

Lemma Publish_buried_eq (j : option queue.Job) (w : World) :
  Publish_buried cfg env q j w = Publish cfg env b j w.
Proof. unfold Publish_buried. rewrite Hb. reflexivity. Qed.

(** Whatever the broker answers, [handleRepublishErrors] makes no call but the
    publishing of jobs of its list into the buried queue. *)
Lemma rebury_calls (lst : list jobErr) :
  forall (acc : list string) (w : World),
  exists evs : Trace,
    trace (snd (rebury cfg qc env q lst acc w)) = trace w ++ evs /\
    consumerSeq (snd (rebury cfg qc env q lst acc w)) = consumerSeq w /\
    Forall (fun ev => exists je, In je lst /\ ev = publish_event cfg b (job je))
      evs.
Proof.
  induction lst as [|je lst IH]; intros acc w.
  - exists []. cbn. rewrite app_nil_r. auto.
  - cbn [rebury]. cbv zeta. unfold bind. rewrite Publish_buried_eq.
    destruct (Publish_trace cfg env b (job je) w) as [Ht Hs].
    assert (Hpub : Forall (fun ev => exists je0, In je0 (je :: lst) /\
                              ev = publish_event cfg b (job je0))
                     (publish_call cfg b (job je))).
    { unfold publish_call. destruct (queue.Size (job je) =? 0); constructor.
      - exists je. split; [left|]; reflexivity.
      - constructor. }
    destruct (Publish cfg env b (Some (job je)) w) as [[e|] w1];
      cbn [fst snd] in *.
    + exists (publish_call cfg b (job je)). cbn [ret snd]. auto.
    + destruct (IH (acc ++ [Error qc (err je)]) w1) as (evs & H1 & H2 & H3).
      exists (publish_call cfg b (job je) ++ evs).
      rewrite H1, H2, Ht, Hs, <- app_assoc. split_and!; try reflexivity.
      apply Forall_app. split; [exact Hpub|].
      eapply List.Forall_impl; [|exact H3].
      intros ev (je0 & Hin & ->). exists je0. split; [right; exact Hin|].
      reflexivity.
Qed.

Lemma handleRepublishErrors_calls (lst : list jobErr) (w : World) :
  exists evs : Trace,
    trace (snd (handleRepublishErrors cfg qc env q lst w)) = trace w ++ evs /\
    consumerSeq (snd (handleRepublishErrors cfg qc env q lst w))
      = consumerSeq w /\
    Forall (fun ev => exists je, In je lst /\ ev = publish_event cfg b (job je))
      evs.
Proof.
  unfold handleRepublishErrors. destruct (0 <? Z.of_nat (length lst)).
  - unfold bind. destruct (rebury_calls lst [] w) as (evs & H1 & H2 & H3).
    exists evs. destruct (rebury cfg qc env q lst [] w) as [[texts|e] w1];
      cbn [ret snd] in *; auto.
  - exists []. cbn. rewrite app_nil_r. auto.
Qed.

(** When the broker accepts what is published into the buried queue, every
    job of the list, if it has a payload, is published there, in order, and
    the texts of the errors are collected in the same order. *)
Lemma rebury_accepted (lst : list jobErr) :
  forall (acc : list string) (w : World),
    (forall t msg,
       failure env t
         (EPublish (conn_channel (conn b)) "" (amqp.Name (queue_ b))
            false false msg) = None) ->
    Forall (fun je => queue.Raw (job je) <> []) lst ->
    fst (rebury cfg qc env q lst acc w)
      = Ok (acc ++ map (fun je => Error qc (err je)) lst) /\
    trace (snd (rebury cfg qc env q lst acc w))
      = trace w ++ map (fun je => publish_event cfg b (job je)) lst /\
    consumerSeq (snd (rebury cfg qc env q lst acc w)) = consumerSeq w.
Proof.
  induction lst as [|je lst IH]; intros acc w Hacc Hraw.
  - cbn. rewrite !app_nil_r. auto.
  - inversion Hraw as [|je' lst' Hje Hraw']; subst.
    cbn [rebury]. cbv zeta. unfold bind. rewrite Publish_buried_eq.
    assert (Hp : Publish cfg env b (Some (job je)) w
                 = (None, record (publish_event cfg b (job je)) w)).
    { rewrite (Publish_accepted cfg env b (job je) w Hje).
      unfold publish_event. rewrite Hacc. reflexivity. }
    rewrite Hp.
    destruct (IH (acc ++ [Error qc (err je)])
                (record (publish_event cfg b (job je)) w) Hacc Hraw')
      as (H1 & H2 & H3).
    rewrite H1, H2, H3. cbn [map record trace consumerSeq].
    rewrite <- !app_assoc. auto.
Qed.

Lemma handleRepublishErrors_accepted (lst : list jobErr) (w : World) :
  (forall t msg,
     failure env t
       (EPublish (conn_channel (conn b)) "" (amqp.Name (queue_ b))
          false false msg) = None) ->
  Forall (fun je => queue.Raw (job je) <> []) lst ->
  fst (handleRepublishErrors cfg qc env q lst w)
    = match lst with
      | [] => None
      | _ :: _ =>
        Some (ErrRepublishingJobs
                (Join (map (fun je => Error qc (err je)) lst) ": "))
      end /\
  trace (snd (handleRepublishErrors cfg qc env q lst w))
    = trace w ++ map (fun je => publish_event cfg b (job je)) lst /\
  consumerSeq (snd (handleRepublishErrors cfg qc env q lst w)) = consumerSeq w.
Proof.
  intros Hacc Hraw. unfold handleRepublishErrors.
  destruct lst as [|je lst].
  - cbn. rewrite app_nil_r. auto.
  - replace (0 <? Z.of_nat (length (je :: lst))) with true
      by (symmetry; apply Z.ltb_lt; cbn [length]; lia).
    unfold bind.
    destruct (rebury_accepted (je :: lst) [] w Hacc Hraw) as (H1 & H2 & H3).
    destruct (rebury cfg qc env q (je :: lst) [] w) as [r w1].
    cbn [fst snd] in *. subst r. cbn [ret fst snd app]. auto.
Qed.

Lemma JobIter_Close_trace (i : JobIter.t) (w : World) :
  trace (snd (JobIter_Close env i w)) = trace w ++ close_calls env i (trace w).
Proof.
  unfold JobIter_Close, close_calls, bind, Channel_Cancel, Channel_Close, call.
  cbn [fst snd]. destruct (failure env (trace w) _); cbn [ret snd record trace].
  - reflexivity.
  - rewrite <- app_assoc. reflexivity.
Qed.

End AfterLoop.

(** ** A whole run of [RepublishBuried] *)

Section Republish.

Context (cfg : Configuration) (qc : queue.Constants) (env : Env).
Context (comply : queue.Job -> bool) (q b : Queue).
Context (Hb : buriedQueue q = Some b).

Lemma World_eq (w w' : World) :
  trace w = trace w' -> consumerSeq w = consumerSeq w' -> w = w'.
Proof. destruct w, w'. cbn. intros -> ->. reflexivity. Qed.

Lemma decoded_acknowledger (ds : list amqp.Delivery) (js : list queue.Job) :
  Forall2 (fun d j => fromDelivery cfg (Ok blank) d = Ok j) ds js ->
  Forall (fun j => is_Some (queue.Acknowledger j)) js.
Proof.
  induction 1 as [|d j ds js Hd _ IH]; constructor; [|exact IH].
  rewrite (fromDelivery_Acknowledger cfg _ _ _ Hd). eexists. reflexivity.
Qed.

Lemma Forall_filter_bool {A : Type} (P : A -> Prop) (f : A -> bool)
    (l : list A) :
  Forall P l -> Forall P (List.filter f l).
Proof.
  induction 1 as [|x l Hx _ IH]; cbn [List.filter]; [constructor|].
  destruct (f x); [constructor|]; assumption.
Qed.

(** A run in which the consumer of the buried queue is set up, its delivery
    channel is not closed, every fetched delivery decodes, and every ack and
    every reject succeeds: the loop runs as [treat] tells, the jobs that did
    not comply are rejected, [handleRepublishErrors] is called on the failed
    ones, and the iterator is closed. *)
Lemma RepublishBuried_run (fuel : nat) (w w0 : World) (it : JobIter.t)
    (js : list queue.Job) :
  Consume qc env b 1 w = (Ok it, w0) ->
  BuriedNonBlockingRetries cfg < max_int64 ->
  (forall t, exists f, new_job env t = Ok f /\
                       queue.Retries f = 0 /\ queue.ErrorType f = "") ->
  (forall t a tag, failure env t (EAck a tag false) = None) ->
  (forall t a tag, failure env t (EReject a tag true) = None) ->
  ~ In Closed (JobIter.c it) ->
  Forall2 (fun d j => fromDelivery cfg (Ok blank) d = Ok j)
    (fetched (BuriedNonBlockingRetries cfg) (JobIter.c it) 0) js ->
  (length (JobIter.c it) + Z.to_nat (BuriedNonBlockingRetries cfg + 1)
     < fuel)%nat ->
  let log := fst (treat cfg env comply q js w0) in
  let w2 :=
    {| trace := trace w0 ++ flat_map (entry_calls cfg q) log
                  ++ flat_map (reject_call true) (not_complying log);
       consumerSeq := consumerSeq w0 |} in
  let h := handleRepublishErrors cfg qc env q (failed log) w2 in
  fst (RepublishBuried cfg qc env fuel q comply w) = Some (fst h) /\
  trace (snd (RepublishBuried cfg qc env fuel q comply w))
    = trace (snd h) ++ close_calls env it (trace (snd h)).
Proof.
  intros Hcons Hlim Hnew Hack Hrej Hopen Hdec Hfuel. cbv zeta.
  set (log := fst (treat cfg env comply q js w0)).
  set (w2 := {| trace := trace w0 ++ flat_map (entry_calls cfg q) log
                           ++ flat_map (reject_call true) (not_complying log);
                consumerSeq := consumerSeq w0 |}).
  set (h := handleRepublishErrors cfg qc env q (failed log) w2).
  assert (Hrun : RepublishBuried cfg qc env fuel q comply w
                 = (Some (fst h), snd (JobIter_Close env it (snd h)))).
  { unfold RepublishBuried. rewrite Hb. unfold bind at 1. rewrite Hcons.
    unfold bind at 1. unfold bind at 1.
    rewrite (drain_treat cfg env comply q (JobIter.c it) fuel it 0 [] [] w0 js
               eq_refl Hlim (Z.le_refl 0) Hnew Hack Hopen Hdec Hfuel).
    cbn [app]. fold log. unfold bind at 1.
    destruct (treat_trace cfg env comply q js w0) as [Ht Hs].
    assert (Hall : Forall (fun j => is_Some (queue.Acknowledger j))
                     (not_complying log)).
    { unfold log. rewrite treat_not_complying. apply Forall_filter_bool.
      eapply decoded_acknowledger, Hdec. }
    destruct (reject_all_calls env _ (snd (treat cfg env comply q js w0))
                Hrej Hall) as (H1 & H2 & H3).
    destruct (reject_all env _ (snd (treat cfg env comply q js w0)))
      as [r w2'].
    cbn [fst snd] in H1, H2, H3. subst r.
    assert (Hw2 : w2' = w2).
    { apply World_eq; unfold w2; cbn [trace consumerSeq].
      - rewrite H2, Ht, <- app_assoc. reflexivity.
      - rewrite H3, Hs. reflexivity. }
    rewrite Hw2. unfold bind at 1. fold h.
    destruct h as [e w3]. cbn [ret fst snd]. unfold bind.
    destruct (JobIter_Close env it w3) as [ce w4]. reflexivity. }
  rewrite Hrun. cbn [fst snd]. split; [reflexivity|].
  apply JobIter_Close_trace.
Qed.

End Republish.

Section RepublishClaims.

Context (cfg : Configuration) (qc : queue.Constants) (env : Env).
Context (comply : queue.Job -> bool) (q b : Queue).

Lemma treat_app (pre post : list queue.Job) :
  forall w,
    fst (treat cfg env comply q (pre ++ post) w)
    = fst (treat cfg env comply q pre w)
        ++ fst (treat cfg env comply q post
                  (snd (treat cfg env comply q pre w))) /\
    snd (treat cfg env comply q (pre ++ post) w)
    = snd (treat cfg env comply q post (snd (treat cfg env comply q pre w))).
Proof.
  induction pre as [|j pre IH]; intros w; [split; reflexivity|].
  cbn [app treat]. destruct (comply j); cbn [fst snd];
    match goal with
    | |- context [treat cfg env comply q (pre ++ post) ?w1] =>
        destruct (IH w1) as [-> ->]
    end; split; reflexivity.
Qed.

(** No failed publish is missing from the log: a complying job, fetched after
    the jobs [pre], for which [Publish] returns an error once the jobs before
    it are treated and it is acked, has the verdict [Failed] with that
    error. *)
Lemma treat_failed_complete (pre post : list queue.Job) (j : queue.Job)
    (e : error) (w : World) :
  comply j = true ->
  fst (Publish cfg env q (Some j)
         (snd (Job_Ack env j (snd (treat cfg env comply q pre w))))) = Some e ->
  In (j, Failed e) (fst (treat cfg env comply q (pre ++ j :: post) w)).
Proof.
  intros Hc Hp. destruct (treat_app pre (j :: post) w) as [-> _].
  apply in_or_app. right. cbn [treat]. rewrite Hc. cbn [fst].
  rewrite Hp. left. reflexivity.
Qed.

(** X24.  Take a call of [RepublishBuried] on a queue with a buried queue
    whose consumer is set up, whose delivery channel is not closed, whose
    fetched deliveries decode to the jobs [js], and in which every ack and
    every reject succeeds.  With fuel for every receive the call returns.  The
    jobs collected as not complying are the fetched jobs for which the
    conditions do not comply, in the order fetched.  In the drain loop each of
    them is acked and nothing else is called for it; after the calls of the
    loop each of them is rejected with requeue set, in order, on the
    acknowledger and with the delivery tag the loop has acked: every reject
    names a delivery that has been acked before.  The calls that follow
    contain no ack and no reject, and every message published in them is that
    of a fetched job that complies. *)
Theorem RepublishBuried_rejects_not_complying (fuel : nat) (w w0 : World)
    (it : JobIter.t) (js : list queue.Job) :
  buriedQueue q = Some b ->
  Consume qc env b 1 w = (Ok it, w0) ->
  BuriedNonBlockingRetries cfg < max_int64 ->
  (forall t, exists f, new_job env t = Ok f /\
                       queue.Retries f = 0 /\ queue.ErrorType f = "") ->
  (forall t a tag, failure env t (EAck a tag false) = None) ->
  (forall t a tag, failure env t (EReject a tag true) = None) ->
  ~ In Closed (JobIter.c it) ->
  Forall2 (fun d j => fromDelivery cfg (Ok blank) d = Ok j)
    (fetched (BuriedNonBlockingRetries cfg) (JobIter.c it) 0) js ->
  (length (JobIter.c it) + Z.to_nat (BuriedNonBlockingRetries cfg + 1)
     < fuel)%nat ->
  let log := fst (treat cfg env comply q js w0) in
  let rejected := List.filter (fun j => negb (comply j)) js in
  exists (res : option error) (w' : World) (after : Trace),
    RepublishBuried cfg qc env fuel q comply w = (Some res, w') /\
    map fst log = js /\
    not_complying log = rejected /\
    Forall (fun j => exists a,
              queue.Acknowledger j = Some a /\
              In (EAck (Acknowledger.ack a) (Acknowledger.id a) false)
                (flat_map (entry_calls cfg q) log) /\
              reject_call true j
                = [EReject (Acknowledger.ack a) (Acknowledger.id a) true])
      rejected /\
    Forall (fun entry => comply (fst entry) = false ->
                         entry_calls cfg q entry = ack_call (fst entry)) log /\
    trace w' = trace w0 ++ flat_map (entry_calls cfg q) log
                 ++ flat_map (reject_call true) rejected ++ after /\
    Forall (fun ev => is_reject ev = false /\ is_ack ev = false /\
                      publishes_of cfg
                        (fun j => In j js /\ comply j = true) ev) after.
Proof.
  intros Hb Hcons Hlim Hnew Hack Hrej Hopen Hdec Hfuel. cbv zeta.
  destruct (RepublishBuried_run cfg qc env comply q b Hb fuel w w0 it js
              Hcons Hlim Hnew Hack Hrej Hopen Hdec Hfuel) as [Hres Htr].
  cbv zeta in Hres, Htr.
  set (log := fst (treat cfg env comply q js w0)) in *.
  pose proof (treat_not_complying cfg env comply q js w0) as Hnc.
  fold log in Hnc.
  set (w2 := {| trace := trace w0 ++ flat_map (entry_calls cfg q) log
                           ++ flat_map (reject_call true) (not_complying log);
                consumerSeq := consumerSeq w0 |}) in *.
  destruct (handleRepublishErrors_calls cfg qc env q b Hb (failed log) w2)
    as (evs & Hh & _ & Hevs).
  set (h := handleRepublishErrors cfg qc env q (failed log) w2) in *.
  exists (fst h), (snd (RepublishBuried cfg qc env fuel q comply w)),
         (evs ++ close_calls env it (trace (snd h))).
  split_and!.
  - destruct (RepublishBuried cfg qc env fuel q comply w) as [r w'].
    cbn [fst snd] in *. rewrite Hres. reflexivity.
  - apply treat_jobs.
  - exact Hnc.
  - apply List.Forall_forall. intros j Hj.
    apply List.filter_In in Hj. destruct Hj as [Hj _].
    pose proof (decoded_acknowledger cfg _ _ Hdec) as Hall.
    destruct (proj1 (List.Forall_forall _ _) Hall j Hj) as [a Ha].
    exists a. split; [exact Ha|]. split.
    + pose proof (treat_jobs cfg env comply q js w0) as Hjobs.
      fold log in Hjobs.
      rewrite <- Hjobs in Hj. apply List.in_map_iff in Hj.
      destruct Hj as (entry & Hfst & Hentry).
      apply List.in_flat_map. exists entry. split; [exact Hentry|].
      unfold entry_calls, ack_call. rewrite Hfst, Ha. left. reflexivity.
    + unfold reject_call. rewrite Ha. reflexivity.
  - apply treat_not_published.
  - rewrite Htr, Hh. unfold w2. cbn [trace]. rewrite <- Hnc.
    rewrite <- !app_assoc. reflexivity.
  - apply Forall_app. split.
    + eapply List.Forall_impl; [|exact Hevs].
      intros ev (je & Hin & ->). split_and!; try reflexivity.
      cbn [publish_event publishes_of]. exists (job je).
      split; [|reflexivity]. destruct je as [j e]. cbn [job].
      apply (failed_spec log j e) in Hin.
      split.
      * rewrite <- (treat_jobs cfg env comply q js w0).
        apply (in_map fst) in Hin. exact Hin.
      * apply (treat_Failed cfg env comply q js w0 j e Hin).
    + unfold close_calls.
      destruct (failure env (trace (snd h)) _);
        repeat constructor.
Qed.

(** C1, as the code has it.  Take a call of [RepublishBuried] as in the
    theorem before, in which moreover every fetched job has a payload and the
    broker accepts whatever is published into the buried queue.  The call
    returns.  The failed jobs are the complying jobs for which [Publish]
    returned an error.  After the calls of the loop and the rejects, each
    failed job is published into the buried queue by a new call, in the order
    fetched; the consumer is cancelled after that.  The result is nil when no
    job failed, and otherwise the error [ErrRepublishingJobs] built from the
    texts of the errors of all the failed jobs, in order, joined by a colon
    and a space. *)
Theorem RepublishBuried_reburies_failed (fuel : nat) (w w0 : World)
    (it : JobIter.t) (js : list queue.Job) :
  buriedQueue q = Some b ->
  Consume qc env b 1 w = (Ok it, w0) ->
  BuriedNonBlockingRetries cfg < max_int64 ->
  (forall t, exists f, new_job env t = Ok f /\
                       queue.Retries f = 0 /\ queue.ErrorType f = "") ->
  (forall t a tag, failure env t (EAck a tag false) = None) ->
  (forall t a tag, failure env t (EReject a tag true) = None) ->
  ~ In Closed (JobIter.c it) ->
  Forall2 (fun d j => fromDelivery cfg (Ok blank) d = Ok j)
    (fetched (BuriedNonBlockingRetries cfg) (JobIter.c it) 0) js ->
  (length (JobIter.c it) + Z.to_nat (BuriedNonBlockingRetries cfg + 1)
     < fuel)%nat ->
  Forall (fun j => queue.Raw j <> []) js ->
  (forall t msg,
     failure env t
       (EPublish (conn_channel (conn b)) "" (amqp.Name (queue_ b))
          false false msg) = None) ->
  let log := fst (treat cfg env comply q js w0) in
  let before :=
    trace w0 ++ flat_map (entry_calls cfg q) log
      ++ flat_map (reject_call true) (not_complying log) in
  let reburied := map (fun je => publish_event cfg b (job je)) (failed log) in
  exists w' : World,
    RepublishBuried cfg qc env fuel q comply w =
      (Some match failed log with
            | [] => None
            | _ :: _ =>
              Some (ErrRepublishingJobs
                      (Join (map (fun je => Error qc (err je)) (failed log))
                         ": "))
            end, w') /\
    trace w' = before ++ reburied ++ close_calls env it (before ++ reburied) /\
    (forall j e, In {| job := j; err := e |} (failed log) <->
                 In (j, Failed e) log) /\
    (forall j e, In (j, Failed e) log ->
                 In j js /\ comply j = true /\
                 exists w1, fst (Publish cfg env q (Some j) w1) = Some e) /\
    (forall pre post j e,
       js = pre ++ j :: post ->
       comply j = true ->
       fst (Publish cfg env q (Some j)
              (snd (Job_Ack env j (snd (treat cfg env comply q pre w0)))))
         = Some e ->
       In (j, Failed e) log).
Proof.
  intros Hb Hcons Hlim Hnew Hack Hrej Hopen Hdec Hfuel Hraw Hacc. cbv zeta.
  destruct (RepublishBuried_run cfg qc env comply q b Hb fuel w w0 it js
              Hcons Hlim Hnew Hack Hrej Hopen Hdec Hfuel) as [Hres Htr].
  cbv zeta in Hres, Htr.
  set (log := fst (treat cfg env comply q js w0)) in *.
  set (w2 := {| trace := trace w0 ++ flat_map (entry_calls cfg q) log
                           ++ flat_map (reject_call true) (not_complying log);
                consumerSeq := consumerSeq w0 |}) in *.
  assert (Hin : forall j e, In (j, Failed e) log -> In j js).
  { intros j e H. rewrite <- (treat_jobs cfg env comply q js w0).
    apply (in_map fst) in H. exact H. }
  assert (Hraw' : Forall (fun je => queue.Raw (job je) <> []) (failed log)).
  { apply List.Forall_forall. intros [j e] H. cbn [job].
    apply (failed_spec log j e) in H.
    apply (proj1 (List.Forall_forall _ _) Hraw), (Hin j e H). }
  destruct (handleRepublishErrors_accepted cfg qc env q b Hb (failed log) w2
              Hacc Hraw') as (H1 & H2 & _).
  exists (snd (RepublishBuried cfg qc env fuel q comply w)). split_and!.
  - destruct (RepublishBuried cfg qc env fuel q comply w) as [r w'].
    cbn [fst snd] in *. rewrite Hres, H1. reflexivity.
  - rewrite Htr, H2. unfold w2. cbn [trace].
    rewrite <- !app_assoc. reflexivity.
  - intros j e. apply failed_spec.
  - intros j e H. split; [exact (Hin j e H)|].
    apply (treat_Failed cfg env comply q js w0 j e H).
  - intros pre post j e -> Hc Hp.
    apply (treat_failed_complete pre post j e w0 Hc Hp).
Qed.

End RepublishClaims.

(** ** The claims at sample values *)

Lemma Transaction_outcomes_witness :
  let out :=
    Transaction Sample.constants Sample.calm Sample.main Sample.publish_one
      Sample.start in
  fst out = None /\
  trace (snd out) =
    [EChannel 0%nat; ETx 10%nat;
     publish_event default_configuration (txQueue Sample.main 10%nat)
       (Sample.job "a" 0 "" Sample.payload);
     ETxCommit 10%nat; EClose 10%nat].
Proof.
  destruct (Transaction_outcomes Sample.constants Sample.calm Sample.main
              Sample.publish_one Sample.start 10%nat eq_refl eq_refl)
    as (_ & _ & Hcommit & _).
  exact (Hcommit eq_refl).
Defined.

Lemma Transaction_view_without_buried_witness :
  let out :=
    Transaction Sample.constants Sample.calm Sample.main Sample.republish_given
      Sample.start in
  fst out = Some ErrBuriedQueueNil /\
  trace (snd out) =
    [EChannel 0%nat; ETx 10%nat; ETxRollback 10%nat; EClose 10%nat].
Proof.
  destruct (Transaction_view_without_buried default_configuration
              Sample.constants Sample.calm Sample.main Sample.start 10%nat
              eq_refl eq_refl)
    as (view & _ & _ & _ & _ & Hrun & Hrb).
  cbv zeta. rewrite (Hrun Sample.republish_given).
  unfold Sample.republish_given. rewrite Hrb. split; reflexivity.
Defined.

Lemma RepublishBuried_rejects_not_complying_witness :
  exists (res : option error) (w' : World) (after : Trace),
    RepublishBuried default_configuration Sample.constants
      (Sample.broker_env Sample.stream (fun _ => None)) 10 Sample.main
      Sample.few_retries Sample.start = (Some res, w') /\
    trace w' =
      trace Sample.consuming
      ++ [EAck 10%nat 1 false;
          publish_event default_configuration Sample.main
            (Sample.decoded Sample.d1);
          EAck 10%nat 2 false]
      ++ [EReject 10%nat 2 true] ++ after.
Proof.
  destruct (RepublishBuried_rejects_not_complying default_configuration
              Sample.constants (Sample.broker_env Sample.stream (fun _ => None))
              Sample.few_retries Sample.main Sample.buried 10 Sample.start
              Sample.consuming Sample.it
              [Sample.decoded Sample.d1; Sample.decoded Sample.d2])
    as (res & w' & after & Hrun & _ & _ & _ & _ & Htrace & _).
  - reflexivity.
  - reflexivity.
  - unfold max_int64. cbn. lia.
  - intros t. exists Sample.fresh. repeat split.
  - reflexivity.
  - reflexivity.
  - cbn. intros [H | [H | [H | []]]]; discriminate H.
  - repeat constructor.
  - cbn. lia.
  - exists res, w', after. split; [exact Hrun | exact Htrace].
Defined.

Lemma RepublishBuried_reburies_failed_witness :
  exists w' : World,
    RepublishBuried default_configuration Sample.constants
      (Sample.broker_env Sample.stream Sample.refuse_main) 10 Sample.main
      (fun _ => true) Sample.start
    = (Some (Some (ErrRepublishingJobs
         "channel/connection is not open: channel/connection is not open")),
       w') /\
    exists before : Trace,
      trace w' =
        before
        ++ [publish_event default_configuration Sample.buried
              (Sample.decoded Sample.d1);
            publish_event default_configuration Sample.buried
              (Sample.decoded Sample.d2)]
        ++ [ECancel 10%nat "rovers-repos.buriedQueue-1" false; EClose 10%nat].
Proof.
  destruct (RepublishBuried_reburies_failed default_configuration
              Sample.constants
              (Sample.broker_env Sample.stream Sample.refuse_main)
              (fun _ => true) Sample.main Sample.buried 10 Sample.start
              Sample.consuming Sample.it
              [Sample.decoded Sample.d1; Sample.decoded Sample.d2])
    as (w' & Hrun & Htrace & _).
  - reflexivity.
  - reflexivity.
  - unfold max_int64. cbn. lia.
  - intros t. exists Sample.fresh. repeat split.
  - reflexivity.
  - reflexivity.
  - cbn. intros [H | [H | [H | []]]]; discriminate H.
  - repeat constructor.
  - cbn. lia.
  - repeat constructor; discriminate.
  - reflexivity.
  - exists w'. split; [exact Hrun|]. eexists. exact Htrace.
Defined.

(** C1, as the spec words it, fails when the broker refuses every publish: two
    complying jobs are acked and fail to republish; the publish of the first
    into the buried queue fails, and the call returns that error: the second
    job is not published into the buried queue, and the error returned is not
    the aggregate one. *)
Lemma RepublishBuried_drops_failed_job :
  let env := Sample.broker_env Sample.stream Sample.refuse_publish in
  let out :=
    RepublishBuried default_configuration Sample.constants env 10 Sample.main
      (fun _ => true) Sample.start in
  fst out = Some (Some Sample.not_open) /\
  trace (snd out) =
    trace Sample.consuming
    ++ [EAck 10%nat 1 false;
        publish_event default_configuration Sample.main (Sample.decoded Sample.d1);
        EAck 10%nat 2 false;
        publish_event default_configuration Sample.main (Sample.decoded Sample.d2);
        publish_event default_configuration Sample.buried
          (Sample.decoded Sample.d1);
        ECancel 10%nat "rovers-repos.buriedQueue-1" false; EClose 10%nat] /\
  ~ In (publish_event default_configuration Sample.buried
          (Sample.decoded Sample.d2)) (trace (snd out)).
Proof.
  cbv zeta. split; [vm_compute; reflexivity|]. split; [vm_compute; reflexivity|].
  vm_compute. intros H.
  repeat (destruct H as [H | H]; [discriminate H|]). exact H.
Qed.

(** C3.  A buried queue hands the jobs "a", tried once, and "b", tried five
    times, to a call of [RepublishBuried] whose condition is that a job has
    been tried fewer than 3 times; the broker accepts every call.  The job "b"
    does not comply.  The call returns nil.  Its calls are, after those that
    set the consumer up: the ack of "a" and its publish to the main queue; the
    ack of the delivery of "b", tag 2 on the channel 10 of the consumer; the
    reject with requeue of that same delivery; the cancelling of the consumer
    and the closing of its channel.  So the one reject of the call names a
    delivery the call has acked before it, and "b" is published to neither
    queue. *)
Lemma RepublishBuried_rejects_acked_delivery :
  let env := Sample.broker_env Sample.stream (fun _ => None) in
  let out :=
    RepublishBuried default_configuration Sample.constants env 10 Sample.main
      Sample.few_retries Sample.start in
  Sample.few_retries (Sample.decoded Sample.d2) = false /\
  fst out = Some None /\
  trace (snd out) =
    trace Sample.consuming
    ++ [EAck 10%nat 1 false;
        publish_event default_configuration Sample.main (Sample.decoded Sample.d1);
        EAck 10%nat 2 false;
        EReject 10%nat 2 true;
        ECancel 10%nat "rovers-repos.buriedQueue-1" false; EClose 10%nat] /\
  (exists before after : Trace,
     trace (snd out) = before ++ EReject 10%nat 2 true :: after /\
     In (EAck 10%nat 2 false) before /\
     Forall (fun e => is_reject e = false) (before ++ after)) /\
  ~ In (publish_event default_configuration Sample.main
          (Sample.decoded Sample.d2)) (trace (snd out)) /\
  ~ In (publish_event default_configuration Sample.buried
          (Sample.decoded Sample.d2)) (trace (snd out)).
Proof.
  cbv zeta. split; [reflexivity|]. split; [vm_compute; reflexivity|].
  split; [vm_compute; reflexivity|]. split_and!.
  - exists (trace Sample.consuming
            ++ [EAck 10%nat 1 false;
                publish_event default_configuration Sample.main
                  (Sample.decoded Sample.d1);
                EAck 10%nat 2 false]),
           [ECancel 10%nat "rovers-repos.buriedQueue-1" false; EClose 10%nat].
    split_and!.
    + vm_compute. reflexivity.
    + apply in_or_app. right. right. right. left. reflexivity.
    + repeat constructor.
  - vm_compute. intros H.
    repeat (destruct H as [H | H]; [discriminate H|]). exact H.
  - vm_compute. intros H.
    repeat (destruct H as [H | H]; [discriminate H|]). exact H.
Qed.

(** When the broker refuses a reject: two jobs that do not comply are acked
    and collected; the reject of the first fails, and the call returns that
    error: the second job is never rejected. *)
Lemma RepublishBuried_skips_reject :
  let env := Sample.broker_env Sample.stream Sample.refuse_reject in
  let out :=
    RepublishBuried default_configuration Sample.constants env 10 Sample.main
      (fun _ => false) Sample.start in
  fst out = Some (Some Sample.not_open) /\
  trace (snd out) =
    trace Sample.consuming
    ++ [EAck 10%nat 1 false; EAck 10%nat 2 false; EReject 10%nat 1 true;
        ECancel 10%nat "rovers-repos.buriedQueue-1" false; EClose 10%nat] /\
  ~ In (EReject 10%nat 2 true) (trace (snd out)).
Proof.
  cbv zeta. split; [vm_compute; reflexivity|]. split; [vm_compute; reflexivity|].
  vm_compute. intros H.
  repeat (destruct H as [H | H]; [discriminate H|]). exact H.
Qed.

(** A buried message without a body, on a broker that accepts every call: the
    job is acked, [Publish] refuses it, [Publish] into the buried queue refuses
    it again, and the call returns the empty-job error; the job is published
    nowhere. *)
Lemma RepublishBuried_empty_payload :
  let env := Sample.broker_env [Delivered Sample.hollow] (fun _ => None) in
  let out :=
    RepublishBuried default_configuration Sample.constants env 10 Sample.main
      (fun _ => true) Sample.start in
  fst out = Some (Some ErrEmptyJob) /\
  trace (snd out) =
    trace Sample.consuming
    ++ [EAck 10%nat 1 false;
        ECancel 10%nat "rovers-repos.buriedQueue-1" false; EClose 10%nat].
Proof.
  cbv zeta. split; vm_compute; reflexivity.
Qed.

(** ** Receiving what was published *)

Section Receiving.

Context (cfg : Configuration) (env : Env).

Lemma awaited_delivery (k : nat) (d : amqp.Delivery) (rest : list Recv) :
  awaited (replicate k NoDelivery ++ Delivered d :: rest) = Some (Some d, rest).
Proof. induction k as [|k IH]; [reflexivity | exact IH]. Qed.

Lemma awaited_closed (k : nat) (rest : list Recv) :
  awaited (replicate k NoDelivery ++ Closed :: rest)
  = Some (None, Closed :: rest).
Proof. induction k as [|k IH]; [reflexivity | exact IH]. Qed.

(** X1.  A job with a payload is published; when the delivery of that message
    is the first thing to arrive on the delivery channel of an iterator, after
    any number of moments with nothing, [Next] returns a job with the same id,
    priority, timestamp, content type, payload and error type, with the
    acknowledger and delivery tag of the delivery, and with the retries of the
    job when they are positive and 0 otherwise.  [Next] makes no call. *)
Theorem Publish_Next_roundtrip (q : Queue) (j f : queue.Job) (i : JobIter.t)
    (k : nat) (rest : list Recv) (a : ChanId) (tag : Z) (w0 w : World) :
  RetriesHeader cfg <> ErrorHeader cfg ->
  queue.Raw j <> [] ->
  0 <= queue.Priority j < 256 ->
  new_job env (trace w) = Ok f ->
  queue.Retries f = 0 ->
  queue.ErrorType f = "" ->
  JobIter.c i =
    replicate k NoDelivery ++ Delivered (deliver (publishing cfg j) a tag) :: rest ->
  Publish cfg env q (Some j) w0 =
    (failure env (trace w0)
       (EPublish (conn_channel (conn q)) "" (amqp.Name (queue_ q)) false false
          (publishing cfg j)),
     record
       (EPublish (conn_channel (conn q)) "" (amqp.Name (queue_ q)) false false
          (publishing cfg j)) w0) /\
  Next cfg env i w =
    (Some
       (Ok {| queue.ID := queue.ID j;
              queue.Priority := queue.Priority j;
              queue.Timestamp := queue.Timestamp j;
              queue.ContentType := queue.ContentType j;
              queue.Raw := queue.Raw j;
              queue.Retries :=
                if 0 <? queue.Retries j then queue.Retries j else 0;
              queue.ErrorType := queue.ErrorType j;
              queue.Acknowledger :=
                Some {| Acknowledger.ack := a; Acknowledger.id := tag |} |},
        with_c i rest),
     w).
Proof.
  intros Hne Hraw Hprio Hnew Hr He Hc. split.
  - apply (Publish_accepted cfg env q j w0 Hraw).
  - unfold Next. rewrite Hc, awaited_delivery. unfold bind, NewJob, ret.
    rewrite Hnew, (fromDelivery_published cfg f j a tag Hne).
    rewrite (uint8_small _ Hprio), Hr, He.
    destruct (String.eqb_spec (queue.ErrorType j) "") as [-> | _]; reflexivity.
Qed.

(** X2.  [Next] makes no call and leaves the counter of consumers alone.  On a
    delivery channel that is closed it returns the already-closed error, and
    does so again at the next call. *)
Theorem Next_closed (i : JobIter.t) (k : nat) (rest : list Recv) (w : World) :
  JobIter.c i = replicate k NoDelivery ++ Closed :: rest ->
  (forall (i' : JobIter.t) (w' : World), snd (Next cfg env i' w') = w') /\
  Next cfg env i w
    = (Some (Err ErrAlreadyClosed, with_c i (Closed :: rest)), w) /\
  Next cfg env (with_c i (Closed :: rest)) w
    = (Some (Err ErrAlreadyClosed, with_c i (Closed :: rest)), w).
Proof.
  intros Hc. split_and!.
  - intros i' w'. unfold Next.
    destruct (awaited (JobIter.c i')) as [[[d|] c']|]; reflexivity.
  - unfold Next. rewrite Hc, awaited_closed. reflexivity.
  - reflexivity.
Qed.

(** X3.  A job decoded from a delivery carries an acknowledger made of the
    acknowledger of that delivery and its delivery tag.  [Ack] on it acks that
    one delivery (not the earlier ones), [Reject] rejects it and passes the
    requeue flag on, each returns what the broker answered, and [Job.Ack] and
    [Job.Reject] on the job make the same calls. *)
Theorem decoded_job_settles_its_delivery (nj : result queue.Job)
    (d : amqp.Delivery) (j : queue.Job) (requeue : bool) (w : World) :
  fromDelivery cfg nj d = Ok j ->
  exists a : Acknowledger.t,
    queue.Acknowledger j = Some a /\
    Acknowledger_Ack env a w =
      (failure env (trace w)
         (EAck (amqp.dAcknowledger d) (amqp.dDeliveryTag d) false),
       record (EAck (amqp.dAcknowledger d) (amqp.dDeliveryTag d) false) w) /\
    Acknowledger_Reject env a requeue w =
      (failure env (trace w)
         (EReject (amqp.dAcknowledger d) (amqp.dDeliveryTag d) requeue),
       record (EReject (amqp.dAcknowledger d) (amqp.dDeliveryTag d) requeue) w)
    /\
    Job_Ack env j w = Acknowledger_Ack env a w /\
    Job_Reject env j requeue w = Acknowledger_Reject env a requeue w.
Proof.
  intros Hd. eexists. unfold Job_Ack, Job_Reject.
  rewrite (fromDelivery_Acknowledger cfg nj d j Hd).
  split_and!; reflexivity.
Qed.

End Receiving.

Lemma Publish_Next_roundtrip_witness :
  let j := Sample.job "a" (-1) "timeout" Sample.payload in
  let i := {| JobIter.id := "rovers-repos-1"; JobIter.ch := 10%nat;
              JobIter.c :=
                [NoDelivery;
                 Delivered (deliver (publishing default_configuration j)
                              10%nat 1)] |} in
  exists j' : queue.Job,
    fst (Next default_configuration Sample.calm i Sample.start)
      = Some (Ok j', with_c i []) /\
    queue.ID j' = "a" /\ queue.Retries j' = 0 /\ queue.ErrorType j' = "timeout".
Proof.
  intros j i.
  destruct (Publish_Next_roundtrip default_configuration Sample.calm Sample.main
              j Sample.fresh i 1 [] 10%nat 1 Sample.start Sample.start)
    as [_ Hnext]; try reflexivity; try discriminate.
  - cbn. lia.
  - eexists. rewrite Hnext. cbn [fst]. split; [reflexivity|].
    repeat split.
Defined.

Lemma Next_closed_witness :
  let i := {| JobIter.id := "rovers-repos-1"; JobIter.ch := 10%nat;
              JobIter.c := [NoDelivery; Closed] |} in
  Next default_configuration Sample.calm i Sample.start
    = (Some (Err ErrAlreadyClosed, with_c i [Closed]), Sample.start).
Proof.
  intros i.
  destruct (Next_closed default_configuration Sample.calm i 1 [] Sample.start
              eq_refl) as (_ & H & _).
  exact H.
Defined.

Lemma decoded_job_settles_its_delivery_witness :
  Job_Reject Sample.calm (Sample.decoded Sample.d2) true Sample.start
    = (None, record (EReject 10%nat 2 true) Sample.start).
Proof.
  destruct (decoded_job_settles_its_delivery default_configuration Sample.calm
              (Ok blank) Sample.d2 (Sample.decoded Sample.d2) true Sample.start
              eq_refl) as (a & _ & _ & Hr & _ & Hj).
  rewrite Hj. exact Hr.
Defined.

(** ** Setting up a consumer *)

Section Consuming.

Context (qc : queue.Constants) (env : Env).

(** X4.  When the broker opens the channel, accepts the Qos and registers the
    consumer, [Consume] makes these three calls and no other: the prefetch count
    is the advertised window itself, with prefetch size 0 and not global; the
    consumer is registered on the new channel for the name of the queue, without
    auto-ack, under the tag made of the program name, the queue name and the
    incremented counter.  The iterator holds that tag, that channel and the
    delivery channel the broker returned. *)
Theorem Consume_registers (q : Queue) (advertisedWindow : Z) (w : World)
    (ch : ChanId) (c : list Recv) :
  opened env (trace w) (conn_connection (conn q)) = Ok ch ->
  failure env (trace w ++ [EChannel (conn_connection (conn q))])
    (EQos ch advertisedWindow 0 false) = None ->
  consumed env
    (trace w ++ [EChannel (conn_connection (conn q));
                 EQos ch advertisedWindow 0 false])
    (EConsume ch (amqp.Name (queue_ q))
       (args0 env +:+ "-" +:+ amqp.Name (queue_ q) +:+ "-"
          +:+ pretty (uint64 (consumerSeq w + 1)))
       false false false false ∅) = Ok c ->
  Consume qc env q advertisedWindow w =
    (Ok {| JobIter.id :=
             args0 env +:+ "-" +:+ amqp.Name (queue_ q) +:+ "-"
               +:+ pretty (uint64 (consumerSeq w + 1));
           JobIter.ch := ch;
           JobIter.c := c |},
     {| trace :=
          trace w ++ [EChannel (conn_connection (conn q));
                      EQos ch advertisedWindow 0 false;
                      EConsume ch (amqp.Name (queue_ q))
                        (args0 env +:+ "-" +:+ amqp.Name (queue_ q) +:+ "-"
                           +:+ pretty (uint64 (consumerSeq w + 1)))
                        false false false false ∅];
        consumerSeq := uint64 (consumerSeq w + 1) |}).
Proof.
  intros Hopen Hqos Hcons.
  unfold Consume, bind, Connection_Channel. rewrite Hopen.
  unfold Channel_Qos, call. cbn [record trace consumerSeq]. rewrite Hqos.
  unfold consumeID, Channel_Consume. cbn [record trace consumerSeq].
  rewrite <- ?app_assoc. cbn [app]. rewrite Hcons.
  unfold ret, record. cbn [trace consumerSeq].
  rewrite <- ?app_assoc. reflexivity.
Qed.

Lemma uint64_succ_ne (n : Z) : uint64 (uint64 (n + 1) + 1) <> uint64 (n + 1).
Proof.
  unfold uint64. intros H.
  assert (H0 : 0 <= (n + 1) mod 2 ^ 64 < 2 ^ 64) by (apply Z.mod_pos_bound; lia).
  destruct (Z.eq_dec ((n + 1) mod 2 ^ 64) (2 ^ 64 - 1)) as [Hmax | Hlt].
  - rewrite Hmax in H. change ((2 ^ 64 - 1 + 1) mod 2 ^ 64) with 0 in H. lia.
  - rewrite Z.mod_small in H by lia. lia.
Qed.

(** X5.  The consumer tags [consumeID] makes for one queue differ whenever the
    counter values they are made from differ; two calls in a row never give
    the same tag, whatever the counter was. *)
Theorem consumeID_distinct (q : Queue) (w w' : World) :
  (uint64 (consumerSeq w + 1) <> uint64 (consumerSeq w' + 1) ->
   fst (consumeID env q w) <> fst (consumeID env q w')) /\
  fst (consumeID env q (snd (consumeID env q w))) <> fst (consumeID env q w).
Proof.
  assert (Hinj : forall n m : Z,
             args0 env +:+ "-" +:+ amqp.Name (queue_ q) +:+ "-" +:+ pretty n
             = args0 env +:+ "-" +:+ amqp.Name (queue_ q) +:+ "-" +:+ pretty m
             -> n = m).
  { intros n m H.
    apply (inj (String.app (args0 env))) in H.
    apply (inj (String.app "-")) in H.
    apply (inj (String.app (amqp.Name (queue_ q)))) in H.
    apply (inj (String.app "-")) in H.
    apply (inj pretty) in H. exact H. }
  split.
  - intros Hne H. apply Hne. unfold consumeID in H. cbn [fst] in H.
    apply Hinj, H.
  - intros H. unfold consumeID in H. cbn [fst snd consumerSeq] in H.
    apply Hinj in H. apply (uint64_succ_ne _ H).
Qed.

(** X6.  How [Consume] fails.  When the channel cannot be opened, the error is
    [ErrOpenChannel] with the text of the cause, after that one call.  When the
    Qos or the registration of the consumer is refused, the error of the broker
    is returned and the channel just opened is left open: no call follows the
    refused one.  The counter of consumers moves only once the Qos is
    accepted. *)
Theorem Consume_failures (q : Queue) (advertisedWindow : Z) (w : World) :
  let open := EChannel (conn_connection (conn q)) in
  let out := Consume qc env q advertisedWindow w in
  (forall e, opened env (trace w) (conn_connection (conn q)) = Err e ->
     out = (Err (ErrOpenChannel (Error qc e)), record open w)) /\
  (forall ch e,
     opened env (trace w) (conn_connection (conn q)) = Ok ch ->
     failure env (trace w ++ [open]) (EQos ch advertisedWindow 0 false) = Some e ->
     out = (Err e, record (EQos ch advertisedWindow 0 false) (record open w))) /\
  (forall ch e,
     opened env (trace w) (conn_connection (conn q)) = Ok ch ->
     failure env (trace w ++ [open]) (EQos ch advertisedWindow 0 false) = None ->
     consumed env (trace w ++ [open; EQos ch advertisedWindow 0 false])
       (EConsume ch (amqp.Name (queue_ q))
          (args0 env +:+ "-" +:+ amqp.Name (queue_ q) +:+ "-"
             +:+ pretty (uint64 (consumerSeq w + 1)))
          false false false false ∅) = Err e ->
     out =
       (Err e,
        {| trace :=
             trace w ++ [open; EQos ch advertisedWindow 0 false;
                         EConsume ch (amqp.Name (queue_ q))
                           (args0 env +:+ "-" +:+ amqp.Name (queue_ q) +:+ "-"
                              +:+ pretty (uint64 (consumerSeq w + 1)))
                           false false false false ∅];
           consumerSeq := uint64 (consumerSeq w + 1) |})).
Proof.
  cbv zeta. split_and!.
  - intros e Hopen. unfold Consume, bind, Connection_Channel.
    rewrite Hopen. reflexivity.
  - intros ch e Hopen Hqos. unfold Consume, bind, Connection_Channel.
    rewrite Hopen. unfold Channel_Qos, call. cbn [record trace consumerSeq].
    rewrite Hqos. reflexivity.
  - intros ch e Hopen Hqos Hcons. unfold Consume, bind, Connection_Channel.
    rewrite Hopen. unfold Channel_Qos, call. cbn [record trace consumerSeq].
    rewrite Hqos. unfold consumeID, Channel_Consume.
    cbn [record trace consumerSeq]. rewrite <- ?app_assoc. cbn [app].
    rewrite Hcons. unfold ret, record. cbn [trace consumerSeq].
    rewrite <- ?app_assoc. reflexivity.
Qed.

End Consuming.

Lemma Consume_registers_witness :
  Consume Sample.constants (Sample.broker_env Sample.stream (fun _ => None))
    Sample.buried 1 Sample.start = (Ok Sample.it, Sample.consuming).
Proof.
  apply (Consume_registers Sample.constants
           (Sample.broker_env Sample.stream (fun _ => None)) Sample.buried 1
           Sample.start 10%nat Sample.stream); reflexivity.
Defined.

Lemma consumeID_distinct_witness :
  fst (consumeID Sample.calm Sample.buried Sample.start)
  <> fst (consumeID Sample.calm Sample.buried Sample.consuming).
Proof.
  destruct (consumeID_distinct Sample.calm Sample.buried Sample.start
              Sample.consuming) as [H _].
  apply H. vm_compute. discriminate.
Defined.

Lemma Consume_failures_witness :
  let refuse := fun e =>
    match e with EQos _ _ _ _ => Some Sample.not_open | _ => None end in
  Consume Sample.constants (Sample.broker_env [] refuse) Sample.buried 1
    Sample.start =
    (Err Sample.not_open,
     {| trace := [EChannel 0%nat; EQos 10%nat 1 0 false]; consumerSeq := 0 |}).
Proof.
  intros refuse.
  destruct (Consume_failures Sample.constants (Sample.broker_env [] refuse)
              Sample.buried 1 Sample.start) as (_ & H & _).
  apply (H 10%nat Sample.not_open); reflexivity.
Defined.

(** ** More on the runs of [RepublishBuried] *)

Section Runs.

Context (cfg : Configuration) (qc : queue.Constants) (env : Env).
Context (comply : queue.Job -> bool) (q b : Queue).
Context (Hb : buriedQueue q = Some b).

(** [RepublishBuried] once its consumer is set up: the drain loop, what follows
    it, and the closing of the iterator. *)
Lemma RepublishBuried_consumed (fuel : nat) (w w0 : World) (it : JobIter.t) :
  Consume qc env b 1 w = (Ok it, w0) ->
  RepublishBuried cfg qc env fuel q comply w =
    let d := drain cfg env fuel comply q it 0 [] [] w0 in
    let r :=
      match fst d with
      | None => (None, snd d)
      | Some (LReturn e) => (Some (Some e), snd d)
      | Some (LBreak nc ep) =>
        let rj := reject_all env nc (snd d) in
        match fst rj with
        | Some e => (Some (Some e), snd rj)
        | None =>
          let h := handleRepublishErrors cfg qc env q ep (snd rj) in
          (Some (fst h), snd h)
        end
      end in
    (fst r, snd (JobIter_Close env it (snd r))).
Proof.
  intros Hcons. unfold RepublishBuried. rewrite Hb.
  unfold bind at 1. rewrite Hcons. unfold bind at 1. unfold bind at 1.
  destruct (drain cfg env fuel comply q it 0 [] [] w0) as [[[nc ep|e]|] w1];
    cbn [fst snd]; cbv zeta.
  - unfold bind at 1. destruct (reject_all env nc w1) as [[e|] w2];
      cbn [fst snd].
    + unfold ret, bind. destruct (JobIter_Close env it w2). reflexivity.
    + unfold bind at 1.
      destruct (handleRepublishErrors cfg qc env q ep w2) as [e w3].
      unfold ret, bind. cbn [fst snd].
      destruct (JobIter_Close env it w3). reflexivity.
  - unfold ret, bind. destruct (JobIter_Close env it w1). reflexivity.
  - unfold ret, bind. destruct (JobIter_Close env it w1). reflexivity.
Qed.

Lemma nextNonBlocking_world (iter : JobIter.t) (w : World) :
  snd (nextNonBlocking cfg env iter w) = w.
Proof.
  unfold nextNonBlocking.
  destruct (JobIter.c iter) as [|[| |d] c']; reflexivity.
Qed.

Lemma Forall_settles_ack (j : queue.Job) :
  Forall (fun e => settles_or_publishes e = true) (ack_call j).
Proof.
  unfold ack_call. destruct (queue.Acknowledger j); repeat constructor.
Qed.

Lemma Forall_settles_publish (x : Queue) (j : queue.Job) :
  Forall (fun e => settles_or_publishes e = true) (publish_call cfg x j).
Proof.
  unfold publish_call. destruct (queue.Size j =? 0); repeat constructor.
Qed.

(** The drain loop acks and publishes, and makes no other call. *)
Lemma drain_calls (fuel : nat) :
  forall (iter : JobIter.t) (retries : Z) (nc : list queue.Job)
         (ep : list jobErr) (w : World),
  exists mid : Trace,
    trace (snd (drain cfg env fuel comply q iter retries nc ep w))
      = trace w ++ mid /\
    Forall (fun e => settles_or_publishes e = true) mid.
Proof.
  induction fuel as [|fuel IH]; intros iter retries nc ep w.
  - exists []. cbn. rewrite app_nil_r. auto.
  - rewrite drain_S. cbv zeta.
    pose proof (nextNonBlocking_world iter w) as Hw.
    destruct (nextNonBlocking cfg env iter w) as [[r iter'] w1].
    cbn [fst snd] in *. subst w1.
    destruct r as [[j|]|e].
    + destruct (Job_Ack_trace env j w) as [Ha _].
      destruct (Job_Ack env j w) as [[e|] w2]; cbn [fst snd] in *.
      * exists (ack_call j). split; [exact Ha | apply Forall_settles_ack].
      * destruct (comply j).
        -- destruct (Publish_trace cfg env q j w2) as [Hp _].
           destruct (Publish cfg env q (Some j) w2) as [[e|] w3];
             cbn [fst snd] in *;
             match goal with
             | |- context [drain cfg env fuel comply q ?i ?r ?n ?e w3] =>
                 destruct (IH i r n e w3) as (mid & Hmid & Hall)
             end;
             exists (ack_call j ++ publish_call cfg q j ++ mid);
             (split; [rewrite Hmid, Hp, Ha, <- !app_assoc; reflexivity|]);
             repeat (apply Forall_app; split);
             auto using Forall_settles_ack, Forall_settles_publish.
        -- match goal with
           | |- context [drain cfg env fuel comply q ?i ?r ?n ?e w2] =>
               destruct (IH i r n e w2) as (mid & Hmid & Hall)
           end.
           exists (ack_call j ++ mid).
           split; [rewrite Hmid, Ha, <- !app_assoc; reflexivity|].
           apply Forall_app. split; [apply Forall_settles_ack | exact Hall].
    + destruct (retries >? BuriedNonBlockingRetries cfg).
      * exists []. cbn. rewrite app_nil_r. auto.
      * apply IH.
    + exists []. cbn. rewrite app_nil_r. auto.
Qed.

Lemma reject_all_trace (nc : list queue.Job) :
  forall w,
  exists mid : Trace,
    trace (snd (reject_all env nc w)) = trace w ++ mid /\
    Forall (fun e => settles_or_publishes e = true) mid.
Proof.
  induction nc as [|j nc IH]; intros w.
  - exists []. cbn. rewrite app_nil_r. auto.
  - cbn [reject_all]. unfold bind, Job_Reject.
    destruct (queue.Acknowledger j) as [a|].
    + unfold Acknowledger_Reject, call.
      destruct (failure env (trace w) _) as [e|].
      * eexists [_]. split; [reflexivity | repeat constructor].
      * destruct (IH (record (EReject (Acknowledger.ack a) (Acknowledger.id a)
                                true) w)) as (mid & Hmid & Hall).
        exists (EReject (Acknowledger.ack a) (Acknowledger.id a) true :: mid).
        split.
        -- rewrite Hmid. cbn [record trace]. rewrite <- app_assoc. reflexivity.
        -- constructor; [reflexivity | exact Hall].
    + exists []. cbn. rewrite app_nil_r. auto.
Qed.

(** X7.  Once the consumer of the buried queue is set up, the iterator is
    closed on every way out of [RepublishBuried], whatever the broker
    answers: a call that returns ends with the cancellation of the consumer,
    followed by the closing of its channel when the cancellation succeeds.
    Between the setting up and that, the call acks, publishes and rejects, and
    does nothing else. *)
Theorem RepublishBuried_closes_iterator (fuel : nat) (w w0 : World)
    (it : JobIter.t) (res : option error) :
  Consume qc env b 1 w = (Ok it, w0) ->
  fst (RepublishBuried cfg qc env fuel q comply w) = Some res ->
  exists mid : Trace,
    trace (snd (RepublishBuried cfg qc env fuel q comply w))
      = trace w0 ++ mid ++ close_calls env it (trace w0 ++ mid) /\
    Forall (fun e => settles_or_publishes e = true) mid.
Proof.
  intros Hcons _. rewrite (RepublishBuried_consumed fuel w w0 it Hcons).
  cbv zeta. cbn [snd]. rewrite JobIter_Close_trace.
  destruct (drain_calls fuel it 0 [] [] w0) as (m1 & H1 & A1).
  destruct (drain cfg env fuel comply q it 0 [] [] w0) as [[[nc ep|e]|] w1];
    cbn [fst snd] in *.
  - destruct (reject_all_trace nc w1) as (m2 & H2 & A2).
    destruct (reject_all env nc w1) as [[e|] w2]; cbn [fst snd] in *.
    + exists (m1 ++ m2). split.
      * rewrite H2, H1, <- !app_assoc. reflexivity.
      * apply Forall_app. split; assumption.
    + destruct (handleRepublishErrors_calls cfg qc env q b Hb ep w2)
        as (m3 & H3 & _ & A3).
      exists (m1 ++ m2 ++ m3). split.
      * rewrite H3, H2, H1, <- !app_assoc. reflexivity.
      * repeat (apply Forall_app; split); auto.
        eapply List.Forall_impl; [|exact A3].
        intros ev (je & _ & ->). reflexivity.
  - exists m1. rewrite H1, <- app_assoc. split; [reflexivity | assumption].
  - exists m1. rewrite H1, <- app_assoc. split; [reflexivity | assumption].
Qed.

End Runs.

Section QuietRuns.

Context (cfg : Configuration) (qc : queue.Constants) (env : Env).
Context (comply : queue.Job -> bool) (q b : Queue).
Context (Hb : buriedQueue q = Some b).

Lemma int64_succ (retries : Z) :
  0 <= retries -> retries <= BuriedNonBlockingRetries cfg ->
  BuriedNonBlockingRetries cfg < max_int64 ->
  int64 (retries + 1) = retries + 1.
Proof.
  unfold int64, max_int64. intros H0 H1 H2.
  rewrite Z.mod_small by lia. lia.
Qed.

(** Empty receives, followed by nothing or numerous enough to pass the limit:
    the loop breaks without having fetched anything. *)
Lemma drain_gap (k : nat) :
  forall (fuel : nat) (iter : JobIter.t) (retries : Z) (rest : list Recv)
         (nc : list queue.Job) (ep : list jobErr) (w : World),
    JobIter.c iter = replicate k NoDelivery ++ rest ->
    BuriedNonBlockingRetries cfg < max_int64 ->
    0 <= retries ->
    rest = [] \/
      ((0 < k)%nat /\ BuriedNonBlockingRetries cfg + 1 - retries < Z.of_nat k) ->
    (k + Z.to_nat (BuriedNonBlockingRetries cfg + 1) < fuel)%nat ->
    drain cfg env fuel comply q iter retries nc ep w
      = (Some (LBreak nc ep), w).
Proof.
  induction k as [|k IH]; intros fuel iter retries rest nc ep w Hc Hlim Hr Hgap Hf.
  - destruct Hgap as [-> | [Hk _]]; [|lia].
    apply (drain_idle cfg env comply q
             (Z.to_nat (BuriedNonBlockingRetries cfg + 1 - retries)));
      try assumption; try reflexivity. lia.
  - destruct fuel as [|fuel]; [lia|].
    rewrite drain_S. unfold nextNonBlocking. rewrite Hc.
    cbn [replicate app ret fst snd]. cbv zeta.
    destruct (Z.gtb_spec retries (BuriedNonBlockingRetries cfg)) as [Hgt | Hle];
      [reflexivity|].
    rewrite (int64_succ retries Hr Hle Hlim).
    apply (IH fuel (with_c iter (replicate k NoDelivery ++ rest)) (retries + 1)
             rest); try reflexivity; try assumption; try lia.
    destruct Hgap as [-> | [_ Hk]]; [left; reflexivity | right; lia].
Qed.

(** The closing of the delivery channel is met within the limit of empty
    receives: the loop returns the already-closed error. *)
Lemma drain_closed (k : nat) :
  forall (fuel : nat) (iter : JobIter.t) (retries : Z) (rest : list Recv)
         (nc : list queue.Job) (ep : list jobErr) (w : World),
    JobIter.c iter = replicate k NoDelivery ++ Closed :: rest ->
    BuriedNonBlockingRetries cfg < max_int64 ->
    0 <= retries ->
    retries + Z.of_nat k <= BuriedNonBlockingRetries cfg + 1 ->
    (k < fuel)%nat ->
    drain cfg env fuel comply q iter retries nc ep w
      = (Some (LReturn ErrAlreadyClosed), w).
Proof.
  induction k as [|k IH]; intros fuel iter retries rest nc ep w Hc Hlim Hr Hk Hf;
    (destruct fuel as [|fuel]; [lia|]);
    rewrite drain_S; unfold nextNonBlocking; rewrite Hc;
    cbn [replicate app ret fst snd]; cbv zeta.
  - reflexivity.
  - destruct (Z.gtb_spec retries (BuriedNonBlockingRetries cfg)) as [Hgt | Hle];
      [lia|].
    rewrite (int64_succ retries Hr Hle Hlim).
    apply (IH fuel (with_c iter (replicate k NoDelivery ++ Closed :: rest))
             (retries + 1) rest); try reflexivity; try assumption; lia.
Qed.

(** X8.  With nothing to receive, [RepublishBuried] returns nil once it has
    closed its iterator, and has acked, published and rejected nothing.  So it
    is when the delivery channel stays empty, and also when deliveries arrive
    only after more empty receives than the limit plus one: they are left for
    a later call. *)
Theorem RepublishBuried_nothing_to_fetch (fuel : nat) (w w0 : World)
    (it : JobIter.t) (k : nat) (rest : list Recv) :
  Consume qc env b 1 w = (Ok it, w0) ->
  JobIter.c it = replicate k NoDelivery ++ rest ->
  BuriedNonBlockingRetries cfg < max_int64 ->
  rest = [] \/
    ((0 < k)%nat /\ BuriedNonBlockingRetries cfg + 1 < Z.of_nat k) ->
  (k + Z.to_nat (BuriedNonBlockingRetries cfg + 1) < fuel)%nat ->
  fst (RepublishBuried cfg qc env fuel q comply w) = Some None /\
  trace (snd (RepublishBuried cfg qc env fuel q comply w))
    = trace w0 ++ close_calls env it (trace w0).
Proof.
  intros Hcons Hc Hlim Hgap Hf.
  rewrite (RepublishBuried_consumed cfg qc env comply q b Hb fuel w w0 it Hcons).
  rewrite (drain_gap k fuel it 0 rest [] [] w0 Hc Hlim (Z.le_refl 0)).
  - cbv zeta. cbn [fst snd reject_all ret]. unfold handleRepublishErrors.
    cbn [length Z.of_nat Z.ltb Z.compare ret fst snd].
    split; [reflexivity | apply JobIter_Close_trace].
  - destruct Hgap as [-> | [Hk Hlt]]; [left; reflexivity | right; split; lia].
  - exact Hf.
Qed.

(** X9.  When the delivery channel is found closed, after no more empty
    receives than the limit plus one, [RepublishBuried] returns the
    already-closed error once it has closed its iterator, and has acked,
    published and rejected nothing. *)
Theorem RepublishBuried_channel_closed (fuel : nat) (w w0 : World)
    (it : JobIter.t) (k : nat) (rest : list Recv) :
  Consume qc env b 1 w = (Ok it, w0) ->
  JobIter.c it = replicate k NoDelivery ++ Closed :: rest ->
  BuriedNonBlockingRetries cfg < max_int64 ->
  Z.of_nat k <= BuriedNonBlockingRetries cfg + 1 ->
  (k < fuel)%nat ->
  fst (RepublishBuried cfg qc env fuel q comply w)
    = Some (Some ErrAlreadyClosed) /\
  trace (snd (RepublishBuried cfg qc env fuel q comply w))
    = trace w0 ++ close_calls env it (trace w0).
Proof.
  intros Hcons Hc Hlim Hk Hf.
  rewrite (RepublishBuried_consumed cfg qc env comply q b Hb fuel w w0 it Hcons).
  rewrite (drain_closed k fuel it 0 rest [] [] w0 Hc Hlim (Z.le_refl 0)
             ltac:(lia) Hf).
  cbv zeta. cbn [fst snd]. split; [reflexivity | apply JobIter_Close_trace].
Qed.

(** X10.  When the ack of the first fetched job fails, [RepublishBuried]
    returns the error of the ack once it has closed its iterator: the job is
    not published and not rejected, and nothing more is fetched. *)
Theorem RepublishBuried_ack_fails (fuel : nat) (w w0 : World) (it : JobIter.t)
    (d : amqp.Delivery) (rest : list Recv) (j : queue.Job) (e : error) :
  Consume qc env b 1 w = (Ok it, w0) ->
  JobIter.c it = Delivered d :: rest ->
  fromDelivery cfg (new_job env (trace w0)) d = Ok j ->
  failure env (trace w0)
    (EAck (amqp.dAcknowledger d) (amqp.dDeliveryTag d) false) = Some e ->
  (0 < fuel)%nat ->
  fst (RepublishBuried cfg qc env fuel q comply w) = Some (Some e) /\
  trace (snd (RepublishBuried cfg qc env fuel q comply w))
    = trace w0
      ++ [EAck (amqp.dAcknowledger d) (amqp.dDeliveryTag d) false]
      ++ close_calls env it
           (trace w0
            ++ [EAck (amqp.dAcknowledger d) (amqp.dDeliveryTag d) false]).
Proof.
  intros Hcons Hc Hd Hack Hf.
  rewrite (RepublishBuried_consumed cfg qc env comply q b Hb fuel w w0 it Hcons).
  destruct fuel as [|fuel]; [lia|].
  rewrite drain_S. unfold nextNonBlocking. rewrite Hc.
  unfold bind, NewJob, ret. rewrite Hd. cbn [fst snd]. cbv zeta.
  unfold Job_Ack. rewrite (fromDelivery_Acknowledger cfg _ d j Hd).
  unfold Acknowledger_Ack, call. cbn [Acknowledger.ack Acknowledger.id].
  rewrite Hack. cbn [fst snd].
  split; [reflexivity|].
  rewrite JobIter_Close_trace. cbn [record trace].
  rewrite <- app_assoc. reflexivity.
Qed.

End QuietRuns.

Section FullRuns.

Context (cfg : Configuration) (qc : queue.Constants) (env : Env).
Context (comply : queue.Job -> bool) (q b : Queue).
Context (Hb : buriedQueue q = Some b).

(** When every job complies and has a payload and the broker accepts what is
    published to the queue, every verdict is [Republished]. *)
Lemma treat_all_republished (js : list queue.Job) :
  forall w,
    Forall (fun j => comply j = true /\ queue.Raw j <> []) js ->
    (forall t msg,
       failure env t
         (EPublish (conn_channel (conn q)) "" (amqp.Name (queue_ q))
            false false msg) = None) ->
    fst (treat cfg env comply q js w) = map (fun j => (j, Republished)) js /\
    trace (snd (treat cfg env comply q js w))
      = trace w ++ flat_map (fun j => ack_call j ++ [publish_event cfg q j]) js.
Proof.
  induction js as [|j js IH]; intros w Hall Hacc.
  - cbn. rewrite app_nil_r. auto.
  - inversion Hall as [|j' js' [Hc Hraw] Hall']; subst.
    cbn [treat]. rewrite Hc.
    destruct (Job_Ack_trace env j w) as [Ha _].
    rewrite (Publish_accepted cfg env q j _ Hraw). cbn [fst snd].
    unfold publish_event at 1. rewrite Hacc.
    destruct (IH (record (publish_event cfg q j) (snd (Job_Ack env j w)))
                Hall' Hacc) as [H1 H2].
    rewrite H1, H2. cbn [map flat_map record trace]. rewrite Ha.
    rewrite <- !app_assoc. auto.
Qed.

Lemma not_complying_republished (js : list queue.Job) :
  not_complying (map (fun j => (j, Republished)) js) = [] /\
  failed (map (fun j => (j, Republished)) js) = [].
Proof. induction js as [|j js [IH1 IH2]]; split; auto. Qed.

(** X11.  Take a call of [RepublishBuried] whose consumer is set up, whose
    delivery channel is not closed and whose fetched deliveries decode to the
    jobs [js], all of them complying and with a payload; let every ack
    succeed and the broker accept what is published to the main queue.  With
    fuel for every receive the call returns nil.  Each fetched job, in the
    order fetched, is acked and then published to the main queue, once;
    nothing is rejected, nothing is published into the buried queue, and the
    iterator is closed last. *)
Theorem RepublishBuried_all_republished (fuel : nat) (w w0 : World)
    (it : JobIter.t) (js : list queue.Job) :
  Consume qc env b 1 w = (Ok it, w0) ->
  BuriedNonBlockingRetries cfg < max_int64 ->
  (forall t, exists f, new_job env t = Ok f /\
                       queue.Retries f = 0 /\ queue.ErrorType f = "") ->
  (forall t a tag, failure env t (EAck a tag false) = None) ->
  ~ In Closed (JobIter.c it) ->
  Forall2 (fun d j => fromDelivery cfg (Ok blank) d = Ok j)
    (fetched (BuriedNonBlockingRetries cfg) (JobIter.c it) 0) js ->
  (length (JobIter.c it) + Z.to_nat (BuriedNonBlockingRetries cfg + 1)
     < fuel)%nat ->
  Forall (fun j => comply j = true /\ queue.Raw j <> []) js ->
  (forall t msg,
     failure env t
       (EPublish (conn_channel (conn q)) "" (amqp.Name (queue_ q))
          false false msg) = None) ->
  fst (RepublishBuried cfg qc env fuel q comply w) = Some None /\
  trace (snd (RepublishBuried cfg qc env fuel q comply w))
    = trace w0
      ++ flat_map (fun j => ack_call j ++ [publish_event cfg q j]) js
      ++ close_calls env it
           (trace w0
            ++ flat_map (fun j => ack_call j ++ [publish_event cfg q j]) js).
Proof.
  intros Hcons Hlim Hnew Hack Hopen Hdec Hfuel Hall Hacc.
  rewrite (RepublishBuried_consumed cfg qc env comply q b Hb fuel w w0 it Hcons).
  rewrite (drain_treat cfg env comply q (JobIter.c it) fuel it 0 [] [] w0 js
             eq_refl Hlim (Z.le_refl 0) Hnew Hack Hopen Hdec Hfuel).
  destruct (treat_all_republished js w0 Hall Hacc) as [Hlog Htr].
  rewrite Hlog. destruct (not_complying_republished js) as [-> ->].
  cbv zeta. cbn [app fst snd reject_all ret].
  change (handleRepublishErrors cfg qc env q [] (snd (treat cfg env comply q js w0)))
    with (@None error, snd (treat cfg env comply q js w0)).
  cbn [fst snd]. split; [reflexivity|].
  rewrite JobIter_Close_trace, Htr, <- app_assoc. reflexivity.
Qed.

(** X12.  Take a call of [RepublishBuried] whose drain loop ends by its own
    break, as above, and in which some fetched job does not comply.  When the
    broker refuses the reject of the first such job, the call returns that
    error once it has closed its iterator: the jobs collected after it are
    not rejected, and no job whose publish failed is published into the
    buried queue. *)
Theorem RepublishBuried_reject_fails (fuel : nat) (w w0 : World)
    (it : JobIter.t) (js more : list queue.Job) (j1 : queue.Job)
    (a : Acknowledger.t) (e : error) :
  Consume qc env b 1 w = (Ok it, w0) ->
  BuriedNonBlockingRetries cfg < max_int64 ->
  (forall t, exists f, new_job env t = Ok f /\
                       queue.Retries f = 0 /\ queue.ErrorType f = "") ->
  (forall t a tag, failure env t (EAck a tag false) = None) ->
  ~ In Closed (JobIter.c it) ->
  Forall2 (fun d j => fromDelivery cfg (Ok blank) d = Ok j)
    (fetched (BuriedNonBlockingRetries cfg) (JobIter.c it) 0) js ->
  (length (JobIter.c it) + Z.to_nat (BuriedNonBlockingRetries cfg + 1)
     < fuel)%nat ->
  List.filter (fun j => negb (comply j)) js = j1 :: more ->
  queue.Acknowledger j1 = Some a ->
  failure env
    (trace w0
     ++ flat_map (entry_calls cfg q) (fst (treat cfg env comply q js w0)))
    (EReject (Acknowledger.ack a) (Acknowledger.id a) true) = Some e ->
  fst (RepublishBuried cfg qc env fuel q comply w) = Some (Some e) /\
  trace (snd (RepublishBuried cfg qc env fuel q comply w))
    = trace w0
      ++ flat_map (entry_calls cfg q) (fst (treat cfg env comply q js w0))
      ++ [EReject (Acknowledger.ack a) (Acknowledger.id a) true]
      ++ close_calls env it
           (trace w0
            ++ flat_map (entry_calls cfg q)
                 (fst (treat cfg env comply q js w0))
            ++ [EReject (Acknowledger.ack a) (Acknowledger.id a) true]).
Proof.
  intros Hcons Hlim Hnew Hack Hopen Hdec Hfuel Hnc Ha Hrej.
  rewrite (RepublishBuried_consumed cfg qc env comply q b Hb fuel w w0 it Hcons).
  rewrite (drain_treat cfg env comply q (JobIter.c it) fuel it 0 [] [] w0 js
             eq_refl Hlim (Z.le_refl 0) Hnew Hack Hopen Hdec Hfuel).
  cbv zeta. cbn [app fst snd].
  rewrite treat_not_complying, Hnc.
  destruct (treat_trace cfg env comply q js w0) as [Htr _].
  cbn [reject_all]. unfold bind, Job_Reject. rewrite Ha.
  unfold Acknowledger_Reject, call. rewrite Htr, Hrej. cbn [fst snd ret].
  split; [reflexivity|].
  rewrite JobIter_Close_trace. cbn [record trace]. rewrite Htr.
  rewrite <- !app_assoc. reflexivity.
Qed.

(** X13.  [handleRepublishErrors] stops at the first job the broker refuses to
    take into the buried queue: the jobs before it are published there, the
    refused one is tried, the jobs after it are not, and the error returned is
    the refusal of the broker, not the aggregate error. *)
Theorem handleRepublishErrors_stops_at_refusal (pre post : list jobErr)
    (je : jobErr) (e : error) (w : World) :
  Forall (fun x => queue.Raw (job x) <> []) (pre ++ [je]) ->
  (forall t x, In x pre ->
     failure env t (publish_event cfg b (job x)) = None) ->
  (forall t, failure env t (publish_event cfg b (job je)) = Some e) ->
  fst (handleRepublishErrors cfg qc env q (pre ++ je :: post) w) = Some e /\
  trace (snd (handleRepublishErrors cfg qc env q (pre ++ je :: post) w))
    = trace w ++ map (fun x => publish_event cfg b (job x)) (pre ++ [je]).
Proof.
  intros Hraw Hacc Href. unfold handleRepublishErrors.
  replace (0 <? Z.of_nat (length (pre ++ je :: post))) with true
    by (symmetry; apply Z.ltb_lt; rewrite length_app; cbn [length]; lia).
  unfold bind.
  assert (Hgen : forall acc w,
             fst (rebury cfg qc env q (pre ++ je :: post) acc w) = Err e /\
             trace (snd (rebury cfg qc env q (pre ++ je :: post) acc w))
             = trace w ++ map (fun x => publish_event cfg b (job x))
                            (pre ++ [je])).
  { clear w. induction pre as [|x pre IH]; intros acc w.
    - cbn [app rebury]. cbv zeta. unfold bind.
      rewrite (Publish_buried_eq cfg env q b Hb).
      inversion Hraw as [|? ? Hje _]; subst.
      rewrite (Publish_accepted cfg env b (job je) w Hje). rewrite Href.
      split; reflexivity.
    - cbn [app rebury]. cbv zeta. unfold bind.
      rewrite (Publish_buried_eq cfg env q b Hb).
      inversion Hraw as [|? ? Hx Hraw']; subst.
      rewrite (Publish_accepted cfg env b (job x) w Hx).
      rewrite (Hacc _ x (or_introl eq_refl)).
      destruct (IH Hraw' (fun t y Hy => Hacc t y (or_intror Hy))
                  (acc ++ [Error qc (err x)])
                  (record (publish_event cfg b (job x)) w)) as [H1 H2].
      rewrite H1, H2. cbn [map record trace app]. rewrite <- app_assoc.
      split; reflexivity. }
  destruct (Hgen [] w) as [H1 H2].
  destruct (rebury cfg qc env q (pre ++ je :: post) [] w) as [r w1].
  cbn [fst snd] in *. subst r. split; [reflexivity | exact H2].
Qed.

End FullRuns.

(** ** More on transactions and delayed jobs *)

Section MoreTransactions.

Context (cfg : Configuration) (qc : queue.Constants) (env : Env).

(** X14.  When [Transaction] cannot open its channel it returns
    [ErrOpenChannel] with the text of the cause after that one call; when the
    transaction cannot begin it returns the error of the broker and closes the
    channel.  In both cases the callback is not run: the outcome is the same
    for every callback. *)
Theorem Transaction_not_begun (q : Queue) (w : World) :
  (forall e, opened env (trace w) (conn_connection (conn q)) = Err e ->
     forall txcb : Queue -> M (option error),
       Transaction qc env q txcb w =
         (Some (ErrOpenChannel (Error qc e)),
          record (EChannel (conn_connection (conn q))) w)) /\
  (forall ch e,
     opened env (trace w) (conn_connection (conn q)) = Ok ch ->
     failure env (trace w ++ [EChannel (conn_connection (conn q))]) (ETx ch)
       = Some e ->
     forall txcb : Queue -> M (option error),
       Transaction qc env q txcb w =
         (Some e,
          {| trace := trace w ++ [EChannel (conn_connection (conn q));
                                  ETx ch; EClose ch];
             consumerSeq := consumerSeq w |})).
Proof.
  split.
  - intros e Hopen txcb. unfold Transaction, bind, Connection_Channel.
    rewrite Hopen. reflexivity.
  - intros ch e Hopen Htx txcb. unfold Transaction, bind, Connection_Channel.
    rewrite Hopen. unfold Channel_Tx, call. cbn [record trace]. rewrite Htx.
    unfold ret, Channel_Close, call, record. cbn [trace consumerSeq].
    rewrite <- !app_assoc. reflexivity.
Qed.

(** X15.  A job with a payload published by the callback of a transaction goes
    out on the channel of the transaction, to the queue of the same name.
    When the broker accepts it the transaction is committed and the result of
    the commit returned; when the broker refuses it the transaction is rolled
    back and the refusal returned, or the error of the rollback when that
    fails too.  The channel is closed last. *)
Theorem Transaction_publish (q : Queue) (j : queue.Job) (w : World)
    (ch : ChanId) :
  opened env (trace w) (conn_connection (conn q)) = Ok ch ->
  failure env (trace w ++ [EChannel (conn_connection (conn q))]) (ETx ch)
    = None ->
  queue.Raw j <> [] ->
  Transaction qc env q (fun v => Publish cfg env v (Some j)) w =
    match
      failure env (trace w ++ [EChannel (conn_connection (conn q)); ETx ch])
        (EPublish ch "" (amqp.Name (queue_ q)) false false (publishing cfg j))
    with
    | None =>
      (failure env
         (trace w ++ [EChannel (conn_connection (conn q)); ETx ch;
                      EPublish ch "" (amqp.Name (queue_ q)) false false
                        (publishing cfg j)])
         (ETxCommit ch),
       {| trace :=
            trace w ++ [EChannel (conn_connection (conn q)); ETx ch;
                        EPublish ch "" (amqp.Name (queue_ q)) false false
                          (publishing cfg j);
                        ETxCommit ch; EClose ch];
          consumerSeq := consumerSeq w |})
    | Some e =>
      (match
         failure env
           (trace w ++ [EChannel (conn_connection (conn q)); ETx ch;
                        EPublish ch "" (amqp.Name (queue_ q)) false false
                          (publishing cfg j)])
           (ETxRollback ch)
       with
       | Some e' => Some e'
       | None => Some e
       end,
       {| trace :=
            trace w ++ [EChannel (conn_connection (conn q)); ETx ch;
                        EPublish ch "" (amqp.Name (queue_ q)) false false
                          (publishing cfg j);
                        ETxRollback ch; EClose ch];
          consumerSeq := consumerSeq w |})
    end.
Proof.
  intros Hopen Htx Hraw.
  rewrite (Transaction_begun qc env q _ w ch Hopen Htx). cbv zeta.
  rewrite (Publish_accepted cfg env (txQueue q ch) j _ Hraw).
  unfold publish_event, txQueue, record.
  cbn [conn queue_ conn_channel fst snd trace consumerSeq].
  rewrite <- !app_assoc. cbn [app].
  destruct (failure env _ (EPublish ch "" _ false false _)); reflexivity.
Qed.

(** X16.  A delay shorter than a millisecond, in either direction, is cut to
    nothing: the scratch queue is declared with a time to live of 0 and an
    expiry of 0. *)
Theorem PublishDelayed_short_delay (q : Queue) (j : queue.Job) (delay : Z)
    (w : World) :
  queue.Raw j <> [] ->
  - Millisecond < delay < Millisecond ->
  exists (args : amqp.Table) (rest : Trace),
    trace (snd (PublishDelayed qc env q (Some j) delay w))
      = trace w
        ++ EQueueDeclare (conn_channel (conn q)) (queue.ID j)
             true true false false args :: rest /\
    args !! "x-message-ttl" = Some (amqp.VInt64 0) /\
    args !! "x-expires" = Some (amqp.VInt64 0).
Proof.
  intros Hraw Hd.
  assert (Hq : Z.quot delay Millisecond = 0).
  { unfold Millisecond in *. apply Z.quot_small_iff; [lia|].
    apply Z.abs_lt. lia. }
  exists (delayed_args qc q 0).
  unfold PublishDelayed. rewrite (Size_nonempty j Hraw), Hq.
  unfold bind, Channel_QueueDeclare.
  destruct (declared env (trace w) _) as [dq|e].
  - eexists [_]. split_and!; [|reflexivity|reflexivity].
    unfold Channel_Publish, call, record. cbn [snd trace].
    rewrite <- app_assoc. reflexivity.
  - exists []. split_and!; reflexivity.
Qed.

(** X17.  A job published with a delay loses its retries and its error type:
    when the scratch queue is declared, the message published into it decodes
    to a job with the same id, priority, timestamp, content type and payload,
    with 0 retries and an empty error type, whatever those of the job were. *)
Theorem PublishDelayed_fromDelivery (q : Queue) (j f : queue.Job) (delay : Z)
    (w : World) (delayedQueue : amqp.Queue) (a : ChanId) (tag : Z) :
  queue.Raw j <> [] ->
  0 <= queue.Priority j < 256 ->
  queue.Retries f = 0 ->
  queue.ErrorType f = "" ->
  declared env (trace w)
    (EQueueDeclare (conn_channel (conn q)) (queue.ID j) true true false false
       (delayed_args qc q (Z.quot delay Millisecond))) = Ok delayedQueue ->
  exists msg : amqp.Publishing,
    trace (snd (PublishDelayed qc env q (Some j) delay w))
      = trace w
        ++ [EQueueDeclare (conn_channel (conn q)) (queue.ID j)
              true true false false
              (delayed_args qc q (Z.quot delay Millisecond));
            EPublish (conn_channel (conn q)) "" (amqp.Name delayedQueue)
              false false msg] /\
    fromDelivery cfg (Ok f) (deliver msg a tag) =
      Ok {| queue.ID := queue.ID j;
            queue.Priority := queue.Priority j;
            queue.Timestamp := queue.Timestamp j;
            queue.ContentType := queue.ContentType j;
            queue.Raw := queue.Raw j;
            queue.Retries := 0;
            queue.ErrorType := "";
            queue.Acknowledger :=
              Some {| Acknowledger.ack := a; Acknowledger.id := tag |} |}.
Proof.
  intros Hraw Hprio Hr He Hdecl.
  eexists. unfold PublishDelayed. rewrite (Size_nonempty j Hraw).
  unfold bind, Channel_QueueDeclare. rewrite Hdecl.
  unfold Channel_Publish, call, record. cbn [snd trace].
  rewrite <- app_assoc. split; [reflexivity|].
  unfold fromDelivery, deliver.
  cbn [amqp.dHeaders amqp.Headers amqp.dMessageId amqp.MessageId
       amqp.dPriority amqp.Priority amqp.dTimestamp amqp.Timestamp
       amqp.dContentType amqp.ContentType amqp.dBody amqp.Body
       amqp.dAcknowledger amqp.dDeliveryTag].
  rewrite !lookup_empty, (uint8_small _ Hprio), Hr, He. reflexivity.
Qed.

End MoreTransactions.

(** ** The queues of a broker *)

Ltac bstep :=
  unfold bcall, bdeclare, bchannel, brecord, bret, bbind;
  cbn [calls stopped fst snd]; rewrite <- ?app_assoc; cbn [app].

Section BrokerFacts.

Context (cfg : Configuration) (qc : queue.Constants) (benv : BrokerEnv).

(** X18.  When the broker accepts the five calls of [Broker.Queue], the queue
    returned holds what the broker answered to the declaration of the main
    queue, and a buried queue holding what it answered to the declaration of
    the buried queue; both use the connection and channel of the broker.  The
    calls are the opening of a channel, the declaration on it of a durable
    fanout exchange, the declaration on the channel of the broker of the
    durable buried queue, the binding on the new channel of the buried queue
    to the exchange, and the declaration of the durable main queue, whose dead
    letters go to that same exchange with the name of the main queue as
    routing key. *)
Theorem Broker_Queue_declares (b : connection) (name : string)
    (w : BrokerWorld) (ch : ChanId) (buried main : amqp.Queue) :
  channel_answer benv (calls w) (conn_connection b) = Ok ch ->
  error_answer benv (calls w ++ take 1 (queue_calls cfg qc b name ch))
    (exchange_call cfg name ch) = None ->
  declare_answer benv (calls w ++ take 2 (queue_calls cfg qc b name ch))
    (buried_call cfg b name) = Ok buried ->
  error_answer benv (calls w ++ take 3 (queue_calls cfg qc b name ch))
    (bind_call cfg name ch) = None ->
  declare_answer benv (calls w ++ take 4 (queue_calls cfg qc b name ch))
    (main_call cfg qc b name) = Ok main ->
  Broker_Queue cfg qc benv b name w =
    (Ok (mkQueue b main (Some (mkQueue b buried None))),
     {| calls := calls w ++ queue_calls cfg qc b name ch;
        stopped := stopped w |}) /\
  exists (rex : string) (args : amqp.Table),
    queue_calls cfg qc b name ch =
      [Call (EChannel (conn_connection b));
       EExchangeDeclare ch rex "fanout" true false false false ∅;
       Call (EQueueDeclare (conn_channel b) (name +:+ BuriedQueueSuffix cfg)
               true false false false ∅);
       EQueueBind ch (name +:+ BuriedQueueSuffix cfg) "" rex true ∅;
       Call (EQueueDeclare (conn_channel b) name true false false false args)]
    /\ args !! "x-dead-letter-exchange" = Some (amqp.VString rex)
    /\ args !! "x-dead-letter-routing-key" = Some (amqp.VString name)
    /\ args !! "x-max-priority"
         = Some (amqp.VUint8 (uint8 (queue.PriorityUrgent qc))).
Proof.
  intros Hch Hex Hbq Hbind Hmain. split.
  - cbn [take queue_calls] in Hex, Hbq, Hbind, Hmain.
    unfold exchange_call, buried_call, bind_call, main_call in *.
    unfold Broker_Queue, newBuriedQueue.
    bstep. rewrite Hch. bstep. rewrite Hex. bstep. rewrite Hbq. bstep.
    rewrite Hbind. bstep. rewrite Hmain. bstep. reflexivity.
  - exists (name +:+ BuriedExchangeSuffix cfg),
           (main_args qc name (name +:+ BuriedExchangeSuffix cfg)).
    split_and!; reflexivity.
Qed.

(** X19.  Every queue [Broker.Queue] returns has a buried queue that has no
    buried queue of its own, on the same connection and channel;
    [RepublishBuried] on that buried queue returns the error of the missing
    buried queue from any world and makes no call. *)
Theorem Broker_Queue_buried_depth (b : connection) (name : string)
    (w : BrokerWorld) (q : Queue) :
  fst (Broker_Queue cfg qc benv b name w) = Ok q ->
  conn q = b /\
  exists buried : Queue,
    buriedQueue q = Some buried /\
    conn buried = b /\
    buriedQueue buried = None /\
    (forall (env : Env) (fuel : nat) (comply : queue.Job -> bool) (w' : World),
       RepublishBuried cfg qc env fuel buried comply w'
       = (Some (Some ErrBuriedQueueNil), w')).
Proof.
  unfold Broker_Queue, bbind.
  destruct (newBuriedQueue cfg benv b name w) as [[[bq rex] [e|]] w1];
    cbn [fst snd]; cbv zeta; [discriminate|].
  unfold bdeclare. destruct (declare_answer benv (calls w1) _) as [mq|e];
    cbn [bret fst]; unfold bret; cbn [fst]; [|discriminate].
  intros H. injection H as <-. split; [reflexivity|].
  exists (mkQueue b bq None). split_and!; reflexivity.
Qed.

(** X20.  [Broker.Queue] stops at the first call the broker refuses and
    returns the error of that call.  When the channel cannot be opened, that
    attempt is the only call.  When the declaration of the exchange is
    refused, the calls are the first two of [queue_calls]; when that of the
    buried queue is, the first three; when the binding is, the first four;
    when the declaration of the main queue is, all five: the main queue is
    declared only once the exchange, the buried queue and the binding are in
    place.  None of the calls closes anything: the channel opened for the
    exchange and the binding stays open, whether the queue is obtained or
    not. *)
Theorem Broker_Queue_stops_at_refusal (b : connection) (name : string)
    (w : BrokerWorld) :
  (forall e, channel_answer benv (calls w) (conn_connection b) = Err e ->
     Broker_Queue cfg qc benv b name w
     = (Err e, brecord (Call (EChannel (conn_connection b))) w)) /\
  (forall ch e,
     channel_answer benv (calls w) (conn_connection b) = Ok ch ->
     error_answer benv (calls w ++ take 1 (queue_calls cfg qc b name ch))
       (exchange_call cfg name ch) = Some e ->
     Broker_Queue cfg qc benv b name w
     = (Err e,
        {| calls := calls w ++ take 2 (queue_calls cfg qc b name ch);
           stopped := stopped w |})) /\
  (forall ch e,
     channel_answer benv (calls w) (conn_connection b) = Ok ch ->
     error_answer benv (calls w ++ take 1 (queue_calls cfg qc b name ch))
       (exchange_call cfg name ch) = None ->
     declare_answer benv (calls w ++ take 2 (queue_calls cfg qc b name ch))
       (buried_call cfg b name) = Err e ->
     Broker_Queue cfg qc benv b name w
     = (Err e,
        {| calls := calls w ++ take 3 (queue_calls cfg qc b name ch);
           stopped := stopped w |})) /\
  (forall ch buried e,
     channel_answer benv (calls w) (conn_connection b) = Ok ch ->
     error_answer benv (calls w ++ take 1 (queue_calls cfg qc b name ch))
       (exchange_call cfg name ch) = None ->
     declare_answer benv (calls w ++ take 2 (queue_calls cfg qc b name ch))
       (buried_call cfg b name) = Ok buried ->
     error_answer benv (calls w ++ take 3 (queue_calls cfg qc b name ch))
       (bind_call cfg name ch) = Some e ->
     Broker_Queue cfg qc benv b name w
     = (Err e,
        {| calls := calls w ++ take 4 (queue_calls cfg qc b name ch);
           stopped := stopped w |})) /\
  (forall ch buried e,
     channel_answer benv (calls w) (conn_connection b) = Ok ch ->
     error_answer benv (calls w ++ take 1 (queue_calls cfg qc b name ch))
       (exchange_call cfg name ch) = None ->
     declare_answer benv (calls w ++ take 2 (queue_calls cfg qc b name ch))
       (buried_call cfg b name) = Ok buried ->
     error_answer benv (calls w ++ take 3 (queue_calls cfg qc b name ch))
       (bind_call cfg name ch) = None ->
     declare_answer benv (calls w ++ take 4 (queue_calls cfg qc b name ch))
       (main_call cfg qc b name) = Err e ->
     Broker_Queue cfg qc benv b name w
     = (Err e,
        {| calls := calls w ++ queue_calls cfg qc b name ch;
           stopped := stopped w |})) /\
  (forall ch,
     Forall (fun e => is_close e = false) (queue_calls cfg qc b name ch)).
Proof.
  split_and!.
  - intros e Hch. unfold Broker_Queue, newBuriedQueue. bstep. rewrite Hch.
    reflexivity.
  - intros ch e Hch Hex.
    cbn [take queue_calls] in Hex. unfold exchange_call in Hex.
    unfold Broker_Queue, newBuriedQueue.
    bstep. rewrite Hch. bstep. rewrite Hex. bstep. reflexivity.
  - intros ch e Hch Hex Hbq.
    cbn [take queue_calls] in Hex, Hbq.
    unfold exchange_call, buried_call in *.
    unfold Broker_Queue, newBuriedQueue.
    bstep. rewrite Hch. bstep. rewrite Hex. bstep. rewrite Hbq. bstep.
    reflexivity.
  - intros ch buried e Hch Hex Hbq Hbind.
    cbn [take queue_calls] in Hex, Hbq, Hbind.
    unfold exchange_call, buried_call, bind_call in *.
    unfold Broker_Queue, newBuriedQueue.
    bstep. rewrite Hch. bstep. rewrite Hex. bstep. rewrite Hbq. bstep.
    rewrite Hbind. bstep. reflexivity.
  - intros ch buried e Hch Hex Hbq Hbind Hmain.
    cbn [take queue_calls] in Hex, Hbq, Hbind, Hmain.
    unfold exchange_call, buried_call, bind_call, main_call in *.
    unfold Broker_Queue, newBuriedQueue.
    bstep. rewrite Hch. bstep. rewrite Hex. bstep. rewrite Hbq. bstep.
    rewrite Hbind. bstep. rewrite Hmain. bstep. reflexivity.
  - intros ch. repeat constructor.
Qed.

(** X21.  [Broker.Close] on a broker that has not been closed closes the
    channel and then the connection, and returns the result of closing the
    connection; when closing the channel fails it returns that error and
    leaves the connection open.  Either way, a second [Close] panics. *)
Theorem Broker_Close_once (b : connection) (w : BrokerWorld) :
  stopped w = false ->
  (forall e,
     error_answer benv (calls w) (Call (EClose (conn_channel b))) = Some e ->
     Broker_Close benv b w =
       (Returned (Some e),
        {| calls := calls w ++ [Call (EClose (conn_channel b))];
           stopped := true |})) /\
  (error_answer benv (calls w) (Call (EClose (conn_channel b))) = None ->
   Broker_Close benv b w =
     (Returned
        (error_answer benv (calls w ++ [Call (EClose (conn_channel b))])
           (EConnectionClose (conn_connection b))),
      {| calls := calls w ++ [Call (EClose (conn_channel b));
                              EConnectionClose (conn_connection b)];
         stopped := true |})) /\
  Broker_Close benv b (snd (Broker_Close benv b w))
    = (Panicked "close of closed channel", snd (Broker_Close benv b w)).
Proof.
  intros Hs. split_and!.
  - intros e He. unfold Broker_Close. rewrite Hs. bstep. rewrite He.
    reflexivity.
  - intros He. unfold Broker_Close. rewrite Hs. bstep. rewrite He. bstep.
    reflexivity.
  - unfold Broker_Close at 2 3. rewrite Hs. bstep.
    destruct (error_answer benv (calls w) _); reflexivity.
Qed.

End BrokerFacts.

(** ** Reconnecting *)

Section Reconnecting.

Context (benv : BrokerEnv).

Lemma dials_app (t l : list BrokerEvent) :
  dials (t ++ l) = (dials t + dials l)%nat.
Proof. unfold dials. rewrite List.filter_app, length_app. reflexivity. Qed.

Lemma opens_app (t l : list BrokerEvent) :
  opens (t ++ l) = (opens t + opens l)%nat.
Proof. unfold opens. rewrite List.filter_app, length_app. reflexivity. Qed.

Lemma failed_attempts_cons (attempt : BrokerEvent) (d : Z) (ds : list Z) :
  failed_attempts attempt (d :: ds)
  = [attempt; EBackoffDuration; ESleep d] ++ failed_attempts attempt ds.
Proof. reflexivity. Qed.

Lemma dials_failed_dials (url : string) (ds : list Z) :
  dials (failed_attempts (EDial url) ds) = length ds /\
  opens (failed_attempts (EDial url) ds) = 0%nat.
Proof.
  induction ds as [|d ds [IH1 IH2]]; [split; reflexivity|].
  rewrite failed_attempts_cons, dials_app, opens_app, IH1, IH2.
  split; reflexivity.
Qed.

(** X22.  [tryConnection] returns the connection of the first dial that
    succeeds, and nothing else ends it.  After each dial that fails it asks the
    backoff policy for a duration and sleeps exactly that long before dialing
    again; after the dial that succeeds it resets the policy.  Here the broker
    refuses the first [k] dials and accepts the next. *)
Theorem tryConnection_first_connection (k : nat) :
  forall (fuel : nat) (url : string) (w : BrokerWorld) (conn : ConnId),
    (forall t, (dials t < dials (calls w) + k)%nat ->
               exists e, dial_answer benv t url = Err e) ->
    (forall t, dials t = (dials (calls w) + k)%nat ->
               dial_answer benv t url = Ok conn) ->
    (k < fuel)%nat ->
    exists ds : list Z,
      length ds = k /\
      tryConnection benv fuel url w =
        (Some conn,
         {| calls := calls w ++ failed_attempts (EDial url) ds
                       ++ [EDial url; EBackoffReset];
            stopped := stopped w |}) /\
      (forall (i : nat) (d : Z),
         ds !! i = Some d ->
         d = duration_answer benv
               (calls w ++ failed_attempts (EDial url) (take i ds)
                  ++ [EDial url])).
Proof.
  induction k as [|k IH]; intros fuel url w conn Hfail Hok Hfuel;
    (destruct fuel as [|fuel]; [lia|]); cbn [tryConnection].
  - exists []. split; [reflexivity|]. split.
    + unfold bdial. bstep. rewrite (Hok (calls w)) by lia.
      unfold backoff_Reset. bstep. reflexivity.
    + intros i d Hi. destruct i; discriminate Hi.
  - unfold bdial. bstep.
    destruct (Hfail (calls w)) as [e ->]; [lia|].
    unfold backoff_Duration, bsleep. bstep.
    set (d := duration_answer benv (calls w ++ [EDial url])).
    set (w1 := {| calls := calls w ++ [EDial url; EBackoffDuration; ESleep d];
                  stopped := stopped w |}).
    assert (Hd : dials (calls w1) = S (dials (calls w))).
    { unfold w1. cbn [calls]. rewrite dials_app. cbn. lia. }
    destruct (IH fuel url w1 conn) as (ds & Hlen & Hrun & Hdur).
    + intros t Ht. apply Hfail. lia.
    + intros t Ht. apply Hok. lia.
    + lia.
    + exists (d :: ds). split; [cbn [length]; lia|]. split.
      * rewrite Hrun. unfold w1. cbn [calls stopped].
        rewrite failed_attempts_cons, <- !app_assoc. reflexivity.
      * intros [|i] d' Hi.
        -- injection Hi as <-. reflexivity.
        -- cbn [lookup list_lookup] in Hi. rewrite (Hdur i d' Hi).
           unfold w1. cbn [calls take].
           rewrite failed_attempts_cons, <- !app_assoc. reflexivity.
Qed.

Lemma tryChannel_first_channel (k : nat) :
  forall (fuel : nat) (conn : ConnId) (w : BrokerWorld) (ch : ChanId),
    (forall t, (opens t < opens (calls w) + k)%nat ->
               exists e, channel_answer benv t conn = Err e) ->
    (forall t, opens t = (opens (calls w) + k)%nat ->
               channel_answer benv t conn = Ok ch) ->
    (k < fuel)%nat ->
    exists hs : list Z,
      length hs = k /\
      tryChannel benv fuel conn w =
        (Some ch,
         {| calls := calls w ++ failed_attempts (Call (EChannel conn)) hs
                       ++ [Call (EChannel conn); EBackoffReset];
            stopped := stopped w |}).
Proof.
  induction k as [|k IH]; intros fuel conn w ch Hfail Hok Hfuel;
    (destruct fuel as [|fuel]; [lia|]); cbn [tryChannel].
  - exists []. split; [reflexivity|].
    bstep. rewrite (Hok (calls w)) by lia.
    unfold backoff_Reset. bstep. reflexivity.
  - bstep.
    destruct (Hfail (calls w)) as [e ->]; [lia|].
    unfold backoff_Duration, bsleep. bstep.
    set (d := duration_answer benv (calls w ++ [Call (EChannel conn)])).
    set (w1 := {| calls := calls w ++ [Call (EChannel conn); EBackoffDuration;
                                      ESleep d];
                  stopped := stopped w |}).
    assert (Hd : opens (calls w1) = S (opens (calls w))).
    { unfold w1. cbn [calls]. rewrite opens_app. cbn. lia. }
    destruct (IH fuel conn w1 ch) as (hs & Hlen & Hrun).
    + intros t Ht. apply Hfail. lia.
    + intros t Ht. apply Hok. lia.
    + lia.
    + exists (d :: hs). split; [cbn [length]; lia|].
      rewrite Hrun. unfold w1. cbn [calls stopped].
      rewrite failed_attempts_cons, <- !app_assoc. reflexivity.
Qed.

(** X23.  [reconnect] resets the backoff policy, dials until a connection is
    obtained, then opens channels on that connection until one is obtained, and
    returns the two; the policy is reset again after the connection and after
    the channel.  Here the broker refuses the first [k] dials and the first
    [m] openings of a channel. *)
Theorem reconnect_returns_pair (k m fuel : nat) (url : string)
    (w : BrokerWorld) (conn : ConnId) (ch : ChanId) :
  (forall t, (dials t < dials (calls w) + k)%nat ->
             exists e, dial_answer benv t url = Err e) ->
  (forall t, dials t = (dials (calls w) + k)%nat ->
             dial_answer benv t url = Ok conn) ->
  (forall t, (opens t < opens (calls w) + m)%nat ->
             exists e, channel_answer benv t conn = Err e) ->
  (forall t, opens t = (opens (calls w) + m)%nat ->
             channel_answer benv t conn = Ok ch) ->
  (k < fuel)%nat ->
  (m < fuel)%nat ->
  exists ds hs : list Z,
    length ds = k /\ length hs = m /\
    reconnect benv fuel url w =
      (Some (conn, ch),
       {| calls := calls w ++ [EBackoffReset]
                     ++ failed_attempts (EDial url) ds
                     ++ [EDial url; EBackoffReset]
                     ++ failed_attempts (Call (EChannel conn)) hs
                     ++ [Call (EChannel conn); EBackoffReset];
          stopped := stopped w |}).
Proof.
  intros Hdf Hdo Hcf Hco Hk Hm. unfold reconnect.
  unfold backoff_Reset at 1. bstep.
  set (w1 := {| calls := calls w ++ [EBackoffReset]; stopped := stopped w |}).
  assert (Hd1 : dials (calls w1) = dials (calls w))
    by (unfold w1; cbn [calls]; rewrite dials_app; cbn; lia).
  assert (Ho1 : opens (calls w1) = opens (calls w))
    by (unfold w1; cbn [calls]; rewrite opens_app; cbn; lia).
  destruct (tryConnection_first_connection k fuel url w1 conn)
    as (ds & Hds & Hrun & _); try assumption.
  { intros t Ht. apply Hdf. lia. }
  { intros t Ht. apply Hdo. lia. }
  rewrite Hrun. bstep.
  set (w2 := {| calls := calls w1 ++ failed_attempts (EDial url) ds
                           ++ [EDial url; EBackoffReset];
                stopped := stopped w1 |}).
  assert (Ho2 : opens (calls w2) = opens (calls w)).
  { unfold w2, w1. cbn [calls]. rewrite !opens_app.
    destruct (dials_failed_dials url ds) as [_ ->].
    unfold opens. cbn [List.filter is_open length]. lia. }
  destruct (tryChannel_first_channel m fuel conn w2 ch)
    as (hs & Hhs & Hrun2); try assumption.
  { intros t Ht. apply Hcf. lia. }
  { intros t Ht. apply Hco. lia. }
  exists ds, hs. split; [exact Hds|]. split; [exact Hhs|].
  rewrite Hrun2. unfold w2, w1. cbn [calls stopped].
  rewrite <- !app_assoc. reflexivity.
Qed.

End Reconnecting.

(** ** The further properties at sample values *)

Lemma RepublishBuried_closes_iterator_witness :
  exists mid : Trace,
    trace (snd (RepublishBuried default_configuration Sample.constants
                  (Sample.broker_env Sample.stream Sample.refuse_publish) 10
                  Sample.main (fun _ => true) Sample.start))
    = trace Sample.consuming ++ mid
      ++ [ECancel 10%nat "rovers-repos.buriedQueue-1" false; EClose 10%nat].
Proof.
  destruct (RepublishBuried_closes_iterator default_configuration
              Sample.constants
              (Sample.broker_env Sample.stream Sample.refuse_publish)
              (fun _ => true) Sample.main Sample.buried eq_refl 10 Sample.start
              Sample.consuming Sample.it (Some Sample.not_open) eq_refl
              ltac:(vm_compute; reflexivity)) as (mid & H & _).
  exists mid. exact H.
Defined.

Lemma RepublishBuried_nothing_to_fetch_witness :
  let stream := replicate 6 NoDelivery ++ [Delivered Sample.d1] in
  let out :=
    RepublishBuried default_configuration Sample.constants
      (Sample.broker_env stream (fun _ => None)) 20 Sample.main
      (fun _ => true) Sample.start in
  fst out = Some None /\
  trace (snd out) =
    trace Sample.consuming
    ++ [ECancel 10%nat "rovers-repos.buriedQueue-1" false; EClose 10%nat].
Proof.
  intros stream.
  apply (RepublishBuried_nothing_to_fetch default_configuration
           Sample.constants (Sample.broker_env stream (fun _ => None))
           (fun _ => true) Sample.main Sample.buried eq_refl 20 Sample.start
           Sample.consuming (Sample.it_on stream) 6 [Delivered Sample.d1]).
  - reflexivity.
  - reflexivity.
  - unfold max_int64. cbn. lia.
  - right. cbn. lia.
  - cbn. lia.
Defined.

Lemma RepublishBuried_channel_closed_witness :
  let stream := [NoDelivery; Closed] in
  fst (RepublishBuried default_configuration Sample.constants
         (Sample.broker_env stream (fun _ => None)) 5 Sample.main
         (fun _ => true) Sample.start)
  = Some (Some ErrAlreadyClosed).
Proof.
  intros stream.
  apply (RepublishBuried_channel_closed default_configuration
           Sample.constants (Sample.broker_env stream (fun _ => None))
           (fun _ => true) Sample.main Sample.buried eq_refl 5 Sample.start
           Sample.consuming (Sample.it_on stream) 1 []).
  - reflexivity.
  - reflexivity.
  - unfold max_int64. cbn. lia.
  - cbn. lia.
  - lia.
Defined.

Lemma RepublishBuried_ack_fails_witness :
  let out :=
    RepublishBuried default_configuration Sample.constants
      (Sample.broker_env Sample.stream Sample.refuse_ack) 10 Sample.main
      (fun _ => true) Sample.start in
  fst out = Some (Some Sample.not_open) /\
  trace (snd out) =
    trace Sample.consuming
    ++ [EAck 10%nat 1 false]
    ++ [ECancel 10%nat "rovers-repos.buriedQueue-1" false; EClose 10%nat].
Proof.
  apply (RepublishBuried_ack_fails default_configuration Sample.constants
           (Sample.broker_env Sample.stream Sample.refuse_ack)
           (fun _ => true) Sample.main Sample.buried eq_refl 10 Sample.start
           Sample.consuming Sample.it Sample.d1
           [NoDelivery; Delivered Sample.d2] (Sample.decoded Sample.d1)
           Sample.not_open); try reflexivity. lia.
Defined.

Lemma RepublishBuried_all_republished_witness :
  let out :=
    RepublishBuried default_configuration Sample.constants
      (Sample.broker_env Sample.stream (fun _ => None)) 10 Sample.main
      (fun _ => true) Sample.start in
  fst out = Some None /\
  trace (snd out) =
    trace Sample.consuming
    ++ [EAck 10%nat 1 false;
        publish_event default_configuration Sample.main (Sample.decoded Sample.d1);
        EAck 10%nat 2 false;
        publish_event default_configuration Sample.main (Sample.decoded Sample.d2)]
    ++ [ECancel 10%nat "rovers-repos.buriedQueue-1" false; EClose 10%nat].
Proof.
  apply (RepublishBuried_all_republished default_configuration
           Sample.constants (Sample.broker_env Sample.stream (fun _ => None))
           (fun _ => true) Sample.main Sample.buried eq_refl 10 Sample.start
           Sample.consuming Sample.it
           [Sample.decoded Sample.d1; Sample.decoded Sample.d2]).
  - reflexivity.
  - unfold max_int64. cbn. lia.
  - intros t. exists Sample.fresh. repeat split.
  - reflexivity.
  - cbn. intros [H | [H | [H | []]]]; discriminate H.
  - repeat constructor.
  - cbn. lia.
  - repeat constructor; discriminate.
  - reflexivity.
Defined.

Lemma RepublishBuried_reject_fails_witness :
  let out :=
    RepublishBuried default_configuration Sample.constants
      (Sample.broker_env Sample.stream Sample.refuse_reject) 10 Sample.main
      (fun _ => false) Sample.start in
  fst out = Some (Some Sample.not_open) /\
  trace (snd out) =
    trace Sample.consuming
    ++ [EAck 10%nat 1 false; EAck 10%nat 2 false]
    ++ [EReject 10%nat 1 true]
    ++ [ECancel 10%nat "rovers-repos.buriedQueue-1" false; EClose 10%nat].
Proof.
  apply (RepublishBuried_reject_fails default_configuration
           Sample.constants
           (Sample.broker_env Sample.stream Sample.refuse_reject)
           (fun _ => false) Sample.main Sample.buried eq_refl 10 Sample.start
           Sample.consuming Sample.it
           [Sample.decoded Sample.d1; Sample.decoded Sample.d2]
           [Sample.decoded Sample.d2] (Sample.decoded Sample.d1)
           {| Acknowledger.ack := 10%nat; Acknowledger.id := 1 |}
           Sample.not_open).
  - reflexivity.
  - unfold max_int64. cbn. lia.
  - intros t. exists Sample.fresh. repeat split.
  - reflexivity.
  - cbn. intros [H | [H | [H | []]]]; discriminate H.
  - repeat constructor.
  - cbn. lia.
  - reflexivity.
  - reflexivity.
  - reflexivity.
Defined.

Lemma handleRepublishErrors_stops_at_refusal_witness :
  let ja := Sample.decoded Sample.d1 in
  let jb := Sample.decoded Sample.d2 in
  let out :=
    handleRepublishErrors default_configuration Sample.constants
      (Sample.broker_env [] Sample.refuse_b) Sample.main
      [{| job := ja; err := Sample.not_open |};
       {| job := jb; err := Sample.not_open |};
       {| job := ja; err := Sample.not_open |}] Sample.start in
  fst out = Some Sample.not_open /\
  trace (snd out) =
    [publish_event default_configuration Sample.buried ja;
     publish_event default_configuration Sample.buried jb].
Proof.
  intros ja jb.
  apply (handleRepublishErrors_stops_at_refusal default_configuration
           Sample.constants (Sample.broker_env [] Sample.refuse_b)
           Sample.main Sample.buried eq_refl
           [{| job := ja; err := Sample.not_open |}]
           [{| job := ja; err := Sample.not_open |}]
           {| job := jb; err := Sample.not_open |} Sample.not_open
           Sample.start).
  - repeat constructor; discriminate.
  - intros t x [<- | []]. reflexivity.
  - intros t. reflexivity.
Defined.

Lemma Transaction_not_begun_witness :
  let refuse := fun e => match e with ETx _ => Some Sample.not_open | _ => None end in
  Transaction Sample.constants (Sample.broker_env [] refuse) Sample.main
    Sample.publish_one Sample.start =
    (Some Sample.not_open,
     {| trace := [EChannel 0%nat; ETx 10%nat; EClose 10%nat];
        consumerSeq := 0 |}).
Proof.
  intros refuse.
  destruct (Transaction_not_begun Sample.constants
              (Sample.broker_env [] refuse) Sample.main Sample.start)
    as [_ H].
  apply (H 10%nat Sample.not_open); reflexivity.
Defined.

Lemma Transaction_publish_witness :
  let j := Sample.job "a" 0 "" Sample.payload in
  Transaction Sample.constants (Sample.broker_env [] Sample.refuse_publish)
    Sample.main
    (fun v =>
       Publish default_configuration
         (Sample.broker_env [] Sample.refuse_publish) v (Some j))
    Sample.start =
    (Some Sample.not_open,
     {| trace :=
          [EChannel 0%nat; ETx 10%nat;
           EPublish 10%nat "" "repos" false false
             (publishing default_configuration j);
           ETxRollback 10%nat; EClose 10%nat];
        consumerSeq := 0 |}).
Proof.
  intros j.
  apply (Transaction_publish default_configuration Sample.constants
           (Sample.broker_env [] Sample.refuse_publish) Sample.main j
           Sample.start 10%nat); try reflexivity. discriminate.
Defined.

Lemma PublishDelayed_short_delay_witness :
  exists (args : amqp.Table) (rest : Trace),
    trace (snd (PublishDelayed Sample.constants Sample.calm Sample.main
                  (Some (Sample.job "a" 0 "" Sample.payload)) 999999
                  Sample.start))
      = trace Sample.start
        ++ EQueueDeclare 1%nat "a" true true false false args :: rest /\
    args !! "x-message-ttl" = Some (amqp.VInt64 0) /\
    args !! "x-expires" = Some (amqp.VInt64 0).
Proof.
  apply (PublishDelayed_short_delay Sample.constants Sample.calm Sample.main
           (Sample.job "a" 0 "" Sample.payload) 999999 Sample.start).
  - discriminate.
  - unfold Millisecond. lia.
Defined.

Lemma PublishDelayed_fromDelivery_witness :
  exists msg : amqp.Publishing,
    fromDelivery default_configuration (Ok Sample.fresh) (deliver msg 10%nat 1) =
      Ok {| queue.ID := "a"; queue.Priority := 4;
            queue.Timestamp := 1500000000;
            queue.ContentType := "application/msgpack";
            queue.Raw := Sample.payload;
            queue.Retries := 0; queue.ErrorType := "";
            queue.Acknowledger :=
              Some {| Acknowledger.ack := 10%nat; Acknowledger.id := 1 |} |}.
Proof.
  destruct (PublishDelayed_fromDelivery default_configuration Sample.constants
              Sample.calm Sample.main
              (Sample.job "a" 7 "timeout" Sample.payload) Sample.fresh
              (200 * Millisecond) Sample.start
              {| amqp.Name := "a"; amqp.Messages := 0; amqp.Consumers := 0 |}
              10%nat 1) as (msg & _ & H); try reflexivity.
  - discriminate.
  - cbn. lia.
  - exists msg. exact H.
Defined.

Lemma Broker_Queue_declares_witness :
  fst (Broker_Queue default_configuration Sample.constants
         (Sample.registrar (fun _ => None)) Sample.broker "repos"
         Sample.running)
  = Ok Sample.main.
Proof.
  destruct (Broker_Queue_declares default_configuration Sample.constants
              (Sample.registrar (fun _ => None)) Sample.broker "repos"
              Sample.running 10%nat
              {| amqp.Name := "repos.buriedQueue"; amqp.Messages := 0;
                 amqp.Consumers := 0 |}
              {| amqp.Name := "repos"; amqp.Messages := 0;
                 amqp.Consumers := 0 |}
              eq_refl eq_refl eq_refl eq_refl eq_refl) as [H _].
  rewrite H. reflexivity.
Defined.

Lemma Broker_Queue_buried_depth_witness :
  exists buried : Queue,
    buriedQueue Sample.main = Some buried /\
    RepublishBuried default_configuration Sample.constants Sample.calm 5
      buried (fun _ => true) Sample.start
    = (Some (Some ErrBuriedQueueNil), Sample.start).
Proof.
  destruct (Broker_Queue_buried_depth default_configuration Sample.constants
              (Sample.registrar (fun _ => None)) Sample.broker "repos"
              Sample.running Sample.main eq_refl)
    as (_ & buried & Hb & _ & _ & Hrb).
  exists buried. split; [exact Hb | apply Hrb].
Defined.

Lemma Broker_Queue_stops_at_refusal_witness :
  Broker_Queue default_configuration Sample.constants
    (Sample.registrar Sample.refuse_bind) Sample.broker "repos" Sample.running
  = (Err Sample.not_open,
     {| calls :=
          [Call (EChannel 0%nat);
           EExchangeDeclare 10%nat "repos.buriedExchange" "fanout"
             true false false false ∅;
           Call (EQueueDeclare 1%nat "repos.buriedQueue"
                   true false false false ∅);
           EQueueBind 10%nat "repos.buriedQueue" "" "repos.buriedExchange"
             true ∅];
        stopped := false |}) /\
  Broker_Queue default_configuration Sample.constants
    (Sample.registrar Sample.refuse_exchange) Sample.broker "repos"
    Sample.running
  = (Err Sample.not_open,
     {| calls :=
          [Call (EChannel 0%nat);
           EExchangeDeclare 10%nat "repos.buriedExchange" "fanout"
             true false false false ∅];
        stopped := false |}).
Proof.
  split.
  - destruct (Broker_Queue_stops_at_refusal default_configuration
                Sample.constants (Sample.registrar Sample.refuse_bind)
                Sample.broker "repos" Sample.running)
      as (_ & _ & _ & H & _).
    exact (H 10%nat
             {| amqp.Name := "repos.buriedQueue"; amqp.Messages := 0;
                amqp.Consumers := 0 |}
             Sample.not_open eq_refl eq_refl eq_refl eq_refl).
  - destruct (Broker_Queue_stops_at_refusal default_configuration
                Sample.constants (Sample.registrar Sample.refuse_exchange)
                Sample.broker "repos" Sample.running)
      as (_ & H & _).
    exact (H 10%nat Sample.not_open eq_refl eq_refl).
Defined.

Lemma Broker_Close_once_witness :
  Broker_Close (Sample.registrar Sample.refuse_close) Sample.broker
    Sample.running =
    (Returned (Some Sample.not_open),
     {| calls := [Call (EClose 1%nat)]; stopped := true |}).
Proof.
  destruct (Broker_Close_once (Sample.registrar Sample.refuse_close)
              Sample.broker Sample.running eq_refl) as (H & _ & _).
  apply (H Sample.not_open). reflexivity.
Defined.

Lemma tryConnection_first_connection_witness :
  exists ds : list Z,
    length ds = 2%nat /\
    tryConnection Sample.flaky 5 "amqp://localhost:5672" Sample.running =
      (Some 3%nat,
       {| calls :=
            failed_attempts (EDial "amqp://localhost:5672") ds
            ++ [EDial "amqp://localhost:5672"; EBackoffReset];
          stopped := false |}).
Proof.
  destruct (tryConnection_first_connection Sample.flaky 2 5
              "amqp://localhost:5672" Sample.running 3%nat)
    as (ds & Hlen & H & _).
  - intros t Ht. exists Sample.not_open.
    change (dials (calls Sample.running)) with 0%nat in Ht.
    unfold Sample.flaky, dial_answer.
    destruct (Nat.ltb_spec (dials t) 2); [reflexivity | lia].
  - intros t Ht. change (dials (calls Sample.running)) with 0%nat in Ht.
    unfold Sample.flaky, dial_answer.
    destruct (Nat.ltb_spec (dials t) 2); [lia | reflexivity].
  - lia.
  - exists ds. split; [exact Hlen | exact H].
Defined.

Lemma reconnect_returns_pair_witness :
  fst (reconnect Sample.flaky 5 "amqp://localhost:5672" Sample.running)
  = Some (3%nat, 7%nat).
Proof.
  destruct (reconnect_returns_pair Sample.flaky 2 1 5 "amqp://localhost:5672"
              Sample.running 3%nat 7%nat) as (ds & hs & _ & _ & H).
  - intros t Ht. exists Sample.not_open.
    change (dials (calls Sample.running)) with 0%nat in Ht.
    unfold Sample.flaky, dial_answer.
    destruct (Nat.ltb_spec (dials t) 2); [reflexivity | lia].
  - intros t Ht. change (dials (calls Sample.running)) with 0%nat in Ht.
    unfold Sample.flaky, dial_answer.
    destruct (Nat.ltb_spec (dials t) 2); [lia | reflexivity].
  - intros t Ht. exists Sample.not_open.
    change (opens (calls Sample.running)) with 0%nat in Ht.
    unfold Sample.flaky, channel_answer.
    destruct (Nat.ltb_spec (opens t) 1); [reflexivity | lia].
  - intros t Ht. change (opens (calls Sample.running)) with 0%nat in Ht.
    unfold Sample.flaky, channel_answer.
    destruct (Nat.ltb_spec (opens t) 1); [lia | reflexivity].
  - lia.
  - lia.
  - rewrite H. reflexivity.
Defined.
